(** * todo-api-errors: the error model and its translation to gRPC and HTTP

    A shallow embedding of the Go packages [internal/errors],
    [internal/validation], [internal/repository], [internal/service] and
    [internal/middleware], with the properties the specification states
    about them.

    Conventions.
    - A Go pointer that may be [nil] is an [option]; a slice is a [list]
      ([nil] and the empty slice are both [[]], the code only takes [len]
      and [range] of them); a Go [map] is a [gmap].
    - [timestamppb.Now()], [time.Now()] and [uuid.New()] read the
      environment: the reading is an explicit argument ([now], [uuids]).
    - The lines the interceptor logs and the attributes
      [BatchCreateTasks] sets on its span are returned next to the
      result; other tracing calls are left out.
    - Third-party code (protovalidate, the grpc-gateway status table,
      protojson) is a [Variable] of the section that uses it. *)

From stdpp Require Import gmap strings list fin_maps pretty.
From Stdlib Require Import ZArith Ascii.

Local Open Scope string_scope.
Local Open Scope Z_scope.
Local Open Scope list_scope.

(** ** google.golang.org/grpc/codes *)

Module codes.

Inductive Code :=
| OK | Canceled | Unknown | InvalidArgument | DeadlineExceeded | NotFound
| AlreadyExists | PermissionDenied | ResourceExhausted | FailedPrecondition
| Aborted | OutOfRange | Unimplemented | Internal | Unavailable | DataLoss
| Unauthenticated.

#[global] Instance Code_eq_dec : EqDecision Code.
Proof. solve_decision. Defined.

Definition String (c : Code) : string :=
  match c with
  | OK => "OK" | Canceled => "Canceled" | Unknown => "Unknown"
  | InvalidArgument => "InvalidArgument"
  | DeadlineExceeded => "DeadlineExceeded" | NotFound => "NotFound"
  | AlreadyExists => "AlreadyExists"
  | PermissionDenied => "PermissionDenied"
  | ResourceExhausted => "ResourceExhausted"
  | FailedPrecondition => "FailedPrecondition" | Aborted => "Aborted"
  | OutOfRange => "OutOfRange" | Unimplemented => "Unimplemented"
  | Internal => "Internal" | Unavailable => "Unavailable"
  | DataLoss => "DataLoss" | Unauthenticated => "Unauthenticated"
  end.

End codes.

(** ** google.protobuf well-known types *)

(** [timestamppb.Timestamp]. *)
Record Timestamp := mkTimestamp { seconds : Z; nanos : Z }.

#[global] Instance Timestamp_eq_dec : EqDecision Timestamp.
Proof. solve_decision. Defined.

(** Go's [int64] arithmetic wraps around. *)
Definition wrap64 (z : Z) : Z := (z + 2 ^ 63) mod 2 ^ 64 - 2 ^ 63.

(** [time.Time] without a monotonic reading: the seconds since year 1
    (an [int64]) and the nanoseconds within the second. *)
Record Time := mkTime { ext : Z; nsec : Z }.

(** The seconds from year 1 to 1970, [unixToInternal]. *)
Definition unixToInternal : Z := 62135596800.

(** [time.Unix(sec, nsec)]: nanoseconds outside [0, 1e9) are carried into
    the seconds ([/] truncates), and the epoch offset is added, all in
    [int64]. *)
Definition Unix (sec nsec : Z) : Time :=
  let '(sec, nsec) :=
    if (nsec <? 0) || (1000000000 <=? nsec)
    then
      let n := Z.quot nsec 1000000000 in
      let sec := wrap64 (sec + n) in
      let nsec := nsec - n * 1000000000 in
      if nsec <? 0 then (wrap64 (sec - 1), nsec + 1000000000)
      else (sec, nsec)
    else (sec, nsec) in
  mkTime (wrap64 (sec + unixToInternal)) nsec.

(** [t.AsTime()] is [time.Unix(t.Seconds, t.Nanos).UTC()];
    [time.Time.After] compares the seconds, then the nanoseconds. *)
Definition AsTime (t : Timestamp) : Time := Unix (seconds t) (nanos t).
Definition After (t u : Time) : bool :=
  (ext u <? ext t) || ((ext t =? ext u) && (nsec u <? nsec t)).

(** [anypb.Any]: a type URL and the serialized payload. *)
Record Any := mkAny { TypeUrl : string; Value : string }.

#[global] Instance Any_eq_dec : EqDecision Any.
Proof. solve_decision. Defined.

(** ** api/proto/errors/v1 *)

Module errorspb.

Inductive AppErrorCode :=
| APP_ERROR_CODE_UNSPECIFIED
| VALIDATION_FAILED | REQUIRED_FIELD | TOO_SHORT | TOO_LONG | INVALID_FORMAT
| MUST_BE_FUTURE | INVALID_VALUE | DUPLICATE_TAG | INVALID_TAG_FORMAT
| OVERDUE_COMPLETION | EMPTY_BATCH | BATCH_TOO_LARGE | DUPLICATE_TITLE
| RESOURCE_NOT_FOUND | RESOURCE_CONFLICT
| AUTHENTICATION_FAILED | PERMISSION_DENIED
| RATE_LIMIT_EXCEEDED | SERVICE_UNAVAILABLE
| INTERNAL_ERROR.

#[global] Instance AppErrorCode_eq_dec : EqDecision AppErrorCode.
Proof. solve_decision. Defined.

Definition String (c : AppErrorCode) : string :=
  match c with
  | APP_ERROR_CODE_UNSPECIFIED => "APP_ERROR_CODE_UNSPECIFIED"
  | VALIDATION_FAILED => "VALIDATION_FAILED"
  | REQUIRED_FIELD => "REQUIRED_FIELD"
  | TOO_SHORT => "TOO_SHORT"
  | TOO_LONG => "TOO_LONG"
  | INVALID_FORMAT => "INVALID_FORMAT"
  | MUST_BE_FUTURE => "MUST_BE_FUTURE"
  | INVALID_VALUE => "INVALID_VALUE"
  | DUPLICATE_TAG => "DUPLICATE_TAG"
  | INVALID_TAG_FORMAT => "INVALID_TAG_FORMAT"
  | OVERDUE_COMPLETION => "OVERDUE_COMPLETION"
  | EMPTY_BATCH => "EMPTY_BATCH"
  | BATCH_TOO_LARGE => "BATCH_TOO_LARGE"
  | DUPLICATE_TITLE => "DUPLICATE_TITLE"
  | RESOURCE_NOT_FOUND => "RESOURCE_NOT_FOUND"
  | RESOURCE_CONFLICT => "RESOURCE_CONFLICT"
  | AUTHENTICATION_FAILED => "AUTHENTICATION_FAILED"
  | PERMISSION_DENIED => "PERMISSION_DENIED"
  | RATE_LIMIT_EXCEEDED => "RATE_LIMIT_EXCEEDED"
  | SERVICE_UNAVAILABLE => "SERVICE_UNAVAILABLE"
  | INTERNAL_ERROR => "INTERNAL_ERROR"
  end.

(** The validation group of the taxonomy (numbers 1 to 13 of the enum). *)
Definition is_validation (c : AppErrorCode) : bool :=
  match c with
  | VALIDATION_FAILED | REQUIRED_FIELD | TOO_SHORT | TOO_LONG
  | INVALID_FORMAT | MUST_BE_FUTURE | INVALID_VALUE | DUPLICATE_TAG
  | INVALID_TAG_FORMAT | OVERDUE_COMPLETION | EMPTY_BATCH
  | BATCH_TOO_LARGE | DUPLICATE_TITLE => true
  | _ => false
  end.

Record FieldViolation := mkFieldViolation {
  Field : string;
  Description : string;
  Code : string
}.

#[global] Instance FieldViolation_eq_dec : EqDecision FieldViolation.
Proof. solve_decision. Defined.

Record ErrorDetail := mkErrorDetail {
  ed_Code : string;
  ed_Title : string;
  ed_Detail : string;
  ed_FieldViolations : list FieldViolation;
  ed_TraceId : string;
  ed_Timestamp : option Timestamp;
  ed_Instance : string;
  ed_Extensions : gmap string Any
}.

End errorspb.

(** ** google.golang.org/genproto/googleapis/rpc/errdetails *)

Module errdetails.

Record BadRequest_FieldViolation := mkBRFieldViolation {
  br_Field : string;
  br_Description : string
}.

Record BadRequest := mkBadRequest {
  br_FieldViolations : list BadRequest_FieldViolation
}.

End errdetails.

(** ** google.golang.org/grpc/status *)

Module status.

(** One entry of [Status.Details()]: the detail messages this program
    attaches, or a payload of another type. *)
Inductive Detail :=
| DErrorDetail (d : errorspb.ErrorDetail)
| DBadRequest (b : errdetails.BadRequest)
| DOther (a : Any).

Record Status := mkStatus {
  Code : codes.Code;
  Message : string;
  Details : list Detail
}.

Definition New (c : codes.Code) (msg : string) : Status :=
  mkStatus c msg [].

(** [WithDetails] refuses a status whose code is [OK]; the caller below
    discards the error and keeps the [nil] status ([None]). Marshalling
    of the detail messages themselves is not modelled and taken to
    succeed. *)
Definition WithDetails (s : Status) (ds : list Detail) : option Status :=
  if decide (Code s = codes.OK) then None
  else Some (mkStatus (Code s) (Message s) (Details s ++ ds)).

End status.

(** ** internal/repository: the sentinel errors

    [ErrNotFound], [ErrAlreadyExists] and [ErrConnection] are package
    variables made with [errors.New]; [errors.Is] compares them by
    identity. *)

Inductive Sentinel := ErrNotFound | ErrAlreadyExists | ErrConnection.

#[global] Instance Sentinel_eq_dec : EqDecision Sentinel.
Proof. solve_decision. Defined.

(** ** internal/errors *)

Module apperrors.

Import errorspb.

(** [AppError], over the type of the [error] it keeps in [CausedBy]. *)
Record AppErrorOf (E : Type) := mkAppError {
  GRPCCode : codes.Code;
  AppCode : AppErrorCode;
  Title : string;
  Detail : string;
  FieldViolations : list FieldViolation;
  TraceID : string;
  Instance : string;
  Extensions : gmap string Any;
  CausedBy : option E (* For internal logging *)
}.

Arguments mkAppError {E}.
Arguments GRPCCode {E}.
Arguments AppCode {E}.
Arguments Title {E}.
Arguments Detail {E}.
Arguments FieldViolations {E}.
Arguments TraceID {E}.
Arguments Instance {E}.
Arguments Extensions {E}.
Arguments CausedBy {E}.

(** Go's [error] values as this program builds them. *)
#[warnings="-register-all"] Inductive error :=
| errorString (s : string)                 (* errors.New, fmt.Errorf *)
| sentinelError (s : Sentinel)             (* the repository's sentinels *)
| wrapError (msg : string) (inner : error) (* fmt.Errorf with %w *)
| statusError (st : status.Status)         (* status.Error, Status.Err *)
| appError (e : AppErrorOf error).

Abbreviation AppError := (AppErrorOf error).

(** [Status.Err()]: nil for a nil status or the code [OK]. *)
Definition Status_Err (s : option status.Status) : option error :=
  match s with
  | None => None
  | Some st =>
      if decide (status.Code st = codes.OK) then None
      else Some (statusError st)
  end.

Definition AppError_Error (e : AppError) : string :=
  "gRPC Code: " +:+ codes.String (GRPCCode e) +:+
  ", App Code: " +:+ String (AppCode e) +:+
  ", Title: " +:+ Title e +:+ ", Detail: " +:+ Detail e.

(** [err.Error()]. *)
Definition Error (err : error) : string :=
  match err with
  | errorString s => s
  | sentinelError ErrNotFound => "not found"
  | sentinelError ErrAlreadyExists => "already exists"
  | sentinelError ErrConnection => "connection error"
  | wrapError msg _ => msg
  | statusError st =>
      "rpc error: code = " +:+ codes.String (status.Code st) +:+
      " desc = " +:+ status.Message st
  | appError e => AppError_Error e
  end.

(** The [ErrorDetail] that [ToGRPCStatus] fills in. *)
Definition errorDetailOf (now : Timestamp) (e : AppError) : ErrorDetail :=
  {| ed_Code := String (AppCode e);
     ed_Title := Title e;
     ed_Detail := Detail e;
     ed_FieldViolations := FieldViolations e;
     ed_TraceId := TraceID e;
     ed_Timestamp := Some now;
     ed_Instance := Instance e;
     ed_Extensions := Extensions e |}.

Definition toBadRequest (fvs : list FieldViolation) : errdetails.BadRequest :=
  errdetails.mkBadRequest
    (map (fun fv => errdetails.mkBRFieldViolation (Field fv) (Description fv))
         fvs).

Definition ToGRPCStatus (now : Timestamp) (e : AppError)
  : option status.Status :=
  let st := status.New (GRPCCode e) (Title e) in
  let errorDetail := errorDetailOf now e in
  (* For validation errors, we also attach the standard BadRequest detail *)
  if bool_decide (GRPCCode e = codes.InvalidArgument)
     && bool_decide (0 < length (FieldViolations e))%nat
  then
    status.WithDetails st
      [status.DBadRequest (toBadRequest (FieldViolations e));
       status.DErrorDetail errorDetail]
  else status.WithDetails st [status.DErrorDetail errorDetail].

Definition NewValidationFailed (violations : list FieldViolation)
    (traceID : string) : AppError :=
  {| GRPCCode := codes.InvalidArgument;
     AppCode := VALIDATION_FAILED;
     Title := "Validation Failed";
     Detail := "The request contains " +:+ pretty (length violations)
               +:+ " validation errors";
     FieldViolations := violations;
     TraceID := traceID;
     Instance := "";
     Extensions := ∅;
     CausedBy := None |}.

Definition NewNotFound (resource id traceID : string) : AppError :=
  {| GRPCCode := codes.NotFound;
     AppCode := RESOURCE_NOT_FOUND;
     Title := "Resource Not Found";
     Detail := resource +:+ " with ID '" +:+ id +:+ "' was not found.";
     FieldViolations := [];
     TraceID := traceID;
     Instance := "";
     Extensions := ∅;
     CausedBy := None |}.

Definition NewConflict (resource reason traceID : string) : AppError :=
  {| GRPCCode := codes.AlreadyExists;
     AppCode := RESOURCE_CONFLICT;
     Title := "Resource Conflict";
     Detail := "Conflict creating " +:+ resource +:+ ": " +:+ reason;
     FieldViolations := [];
     TraceID := traceID;
     Instance := "";
     Extensions := ∅;
     CausedBy := None |}.

Definition NewInternal (message traceID : string) (causedBy : option error)
  : AppError :=
  {| GRPCCode := codes.Internal;
     AppCode := INTERNAL_ERROR;
     Title := "Internal Server Error";
     Detail := message;
     FieldViolations := [];
     TraceID := traceID;
     Instance := "";
     Extensions := ∅;
     CausedBy := causedBy |}.

Definition NewPermissionDenied (resource action traceID : string)
  : AppError :=
  {| GRPCCode := codes.PermissionDenied;
     AppCode := PERMISSION_DENIED;
     Title := "Permission Denied";
     Detail := "You don't have permission to " +:+ action +:+ " "
               +:+ resource;
     FieldViolations := [];
     TraceID := traceID;
     Instance := "";
     Extensions := ∅;
     CausedBy := None |}.

Definition NewServiceUnavailable (message traceID : string) : AppError :=
  {| GRPCCode := codes.Unavailable;
     AppCode := SERVICE_UNAVAILABLE;
     Title := "Service Unavailable";
     Detail := message;
     FieldViolations := [];
     TraceID := traceID;
     Instance := "";
     Extensions := ∅;
     CausedBy := None |}.

Definition NewRequiredField (field message traceID : string) : AppError :=
  {| GRPCCode := codes.InvalidArgument;
     AppCode := VALIDATION_FAILED;
     Title := "Validation Failed";
     Detail := "The request contains validation errors";
     FieldViolations :=
       [ {| Field := field;
            Code := String REQUIRED_FIELD;
            Description := message |} ];
     TraceID := traceID;
     Instance := "";
     Extensions := ∅;
     CausedBy := None |}.

(** [errors.As(err, &appErr)] with [appErr *AppError]: the first
    [AppError] on the [Unwrap] chain. [AppError] has no [Unwrap] method,
    so [CausedBy] is not followed. *)
Fixpoint errors_As_AppError (err : error) : option AppError :=
  match err with
  | appError e => Some e
  | wrapError _ inner => errors_As_AppError inner
  | _ => None
  end.

(** The first error on the [Unwrap] chain with a [GRPCStatus] method. *)
Fixpoint errors_As_grpcstatus (err : error) : option status.Status :=
  match err with
  | statusError st => Some st
  | wrapError _ inner => errors_As_grpcstatus inner
  | _ => None
  end.

(** [status.FromError] for a non-nil error: the status of a status error,
    the wrapped status with the wrapper's message, or an [Unknown] status
    and [false]. *)
Definition FromError (err : error) : status.Status * bool :=
  match err with
  | statusError st => (st, true)
  | _ =>
      match errors_As_grpcstatus err with
      | Some st =>
          (status.mkStatus (status.Code st) (Error err) (status.Details st),
           true)
      | None => (status.New codes.Unknown (Error err), false)
      end
  end.

(** [errors.Is(err, target)] for a sentinel [target]. *)
Fixpoint errors_Is (err : error) (target : Sentinel) : bool :=
  match err with
  | sentinelError s => bool_decide (s = target)
  | wrapError _ inner => errors_Is inner target
  | _ => false
  end.

End apperrors.

(** ** Go's [strings] package, as far as the program uses it *)

Module gostrings.

(** [strings.Contains(s, substr)]. *)
Fixpoint Contains (s substr : string) : bool :=
  String.prefix substr s
  || match s with
     | EmptyString => false
     | String _ s' => Contains s' substr
     end.

(** [strings.Join(parts, sep)]. *)
Definition Join (parts : list string) (sep : string) : string :=
  String.concat sep parts.

(** [strings.Split(s, sep)] for a separator of one byte. *)
Fixpoint Split (s : string) (sep : Ascii.ascii) : list string :=
  match s with
  | EmptyString => [""]
  | String c s' =>
      if Ascii.eqb c sep then "" :: Split s' sep
      else match Split s' sep with
           | h :: t => String c h :: t
           | [] => [String c ""]
           end
  end.

End gostrings.

(** ** api/proto/todo/v1 *)

Module todopb.

(** The enum members the program names; [STATUS_OTHER] and
    [PRIORITY_OTHER] stand for the remaining numbers of the open enums. *)
Inductive Status :=
| STATUS_UNSPECIFIED | STATUS_PENDING | STATUS_COMPLETED
| STATUS_OTHER (n : Z).

Inductive Priority :=
| PRIORITY_UNSPECIFIED | PRIORITY_MEDIUM | PRIORITY_OTHER (n : Z).

#[global] Instance Status_eq_dec : EqDecision Status.
Proof. solve_decision. Defined.
#[global] Instance Priority_eq_dec : EqDecision Priority.
Proof. solve_decision. Defined.

Record Task := mkTask {
  Name : string;
  Title : string;
  Description : string;
  Status_ : Status;
  Priority_ : Priority;
  DueDate : option Timestamp;
  Tags : list string;
  CreateTime : option Timestamp;
  UpdateTime : option Timestamp;
  CreatedBy : string
}.

Record CreateTaskRequest := mkCreateTaskRequest {
  Task_ : option Task
}.

Record BatchCreateTasksRequest := mkBatchCreateTasksRequest {
  Requests : list CreateTaskRequest
}.

Record BatchCreateTasksResponse := mkBatchCreateTasksResponse {
  Tasks : list Task
}.

End todopb.

(** ** buf.build/go/protovalidate, as seen by its caller *)

Module protovalidate.

Record FieldPathElement := mkFieldPathElement {
  GetFieldName : string;
  GetFieldNumber : Z
}.

(** [validate.FieldPath]: [GetElements()]. *)
Definition FieldPath := list FieldPathElement.

(** One violation: [Proto.GetField()] (may be nil), [Proto.GetRuleId()],
    [Proto.GetMessage()]. *)
Record Violation := mkViolation {
  GetField : option FieldPath;
  GetRuleId : string;
  GetMessage : string
}.

(** What [pv.Validate(msg)] returns: nil, a [*ValidationError], or
    another error. *)
Inductive Result :=
| Valid
| ValidationError (Violations : list Violation)
| OtherError (err : apperrors.error).

End protovalidate.

(** ** The Go runtime's map iteration

    [for k, v := range m] visits every entry of [m] once, in an order the
    runtime picks for each loop. A run of the program supplies the order:
    any function that lists the entries of each map. *)

Record MapRange (K V : Type) `{Countable K} := mkMapRange {
  range_order : gmap K V → list (K * V);
  range_perm : ∀ m, range_order m ≡ₚ map_to_list m
}.

Arguments range_order {K V _ _}.
Arguments range_perm {K V _ _}.

(** ** internal/validation *)

Module validation.

Import errorspb apperrors protovalidate.

Definition formatFieldPath (fieldPath : option FieldPath) : string :=
  match fieldPath with
  | None => ""
  | Some elements =>
      let parts :=
        flat_map (fun element =>
          if negb (String.eqb (GetFieldName element) "")
          then [GetFieldName element]
          else if negb (GetFieldNumber element =? 0)
          then ["field_" +:+ pretty (GetFieldNumber element)]
          else []) elements in
      gostrings.Join parts "."
  end.

Definition mapConstraintToCode (ruleId : string) : string :=
  if gostrings.Contains ruleId "required" then String REQUIRED_FIELD
  else if gostrings.Contains ruleId "min_len" then String TOO_SHORT
  else if gostrings.Contains ruleId "max_len" then String TOO_LONG
  else if gostrings.Contains ruleId "pattern" then String INVALID_FORMAT
  else if gostrings.Contains ruleId "gt_now" then String MUST_BE_FUTURE
  else if String.eqb ruleId "" then String VALIDATION_FAILED
  else String INVALID_VALUE.

(** [validTagPattern]: the regular expression [^[a-z0-9-]+$]. *)
Definition tagByte (c : Ascii.ascii) : bool :=
  let n := Ascii.nat_of_ascii c in
  ((97 <=? n) && (n <=? 122) || (48 <=? n) && (n <=? 57) || (n =? 45))%nat.

Definition validTagPattern_MatchString (s : string) : bool :=
  negb (String.eqb s "") && forallb tagByte (String.list_ascii_of_string s).

Definition isValidTag (tag : string) : bool :=
  (String.length tag <=? 50)%nat && validTagPattern_MatchString tag.

(** [ValidateRequest] for the messages of one type; [pv] is the
    validator's verdict on them. An error it returns is always an
    [*AppError]. *)
Definition ValidateRequest {M : Type} (pv : M → Result) (req : M)
    (traceID : string) : option AppError :=
  match pv req with
  | Valid => None
  | ValidationError validationErrs =>
      let violations :=
        map (fun violation =>
          {| Field := match GetField violation with
                      | Some _ => formatFieldPath (GetField violation)
                      | None => ""
                      end;
             Description := GetMessage violation;
             Code := mapConstraintToCode (GetRuleId violation) |})
          validationErrs in
      Some (NewValidationFailed violations traceID)
  | OtherError err => Some (NewInternal "Validation failed" traceID (Some err))
  end.

Section WithValidator.

(** The process-wide validator [pv] on [Task] messages; the constraints
    it checks are annotations of the proto files. *)
Variable pv : todopb.Task → Result.

Definition overdueCompletion : FieldViolation :=
  {| Field := "due_date";
     Code := String OVERDUE_COMPLETION;
     Description := "Task was completed after the due date" |}.

Definition invalidTagFormat (i : nat) (tag : string) : FieldViolation :=
  {| Field := "tags[" +:+ pretty i +:+ "]";
     Code := String INVALID_TAG_FORMAT;
     Description := "Tag '" +:+ tag +:+
       "' must be lowercase letters, numbers, and hyphens only" |}.

Definition duplicateTag (i : nat) (tag : string) : FieldViolation :=
  {| Field := "tags[" +:+ pretty i +:+ "]";
     Code := String DUPLICATE_TAG;
     Description := "Tag '" +:+ tag +:+ "' appears multiple times" |}.

(** The duplicate-tag loop: [tagMap] and the violations appended so far. *)
Definition duplicateTagStep (acc : gmap string bool * list FieldViolation)
    (it : nat * string) : gmap string bool * list FieldViolation :=
  let '(tagMap, violations) := acc in
  let '(i, tag) := it in
  (<[tag := true]> tagMap,
   if default false (tagMap !! tag)
   then violations ++ [duplicateTag i tag] else violations).

Definition ValidateTask (task : todopb.Task) (traceID : string)
  : option AppError :=
  (* Proto validation first *)
  let violations :=
    match ValidateRequest pv task traceID with
    | Some appErr => FieldViolations appErr
    | None => []
    end in
  (* Additional business rules *)
  let violations :=
    match todopb.Status_ task, todopb.DueDate task,
          todopb.UpdateTime task with
    | todopb.STATUS_COMPLETED, Some dueDate, Some updateTime =>
        if After (AsTime updateTime) (AsTime dueDate)
        then violations ++ [overdueCompletion] else violations
    | _, _, _ => violations
    end in
  (* Validate tags format *)
  let violations :=
    violations ++
    concat (imap (fun i tag =>
                    if isValidTag tag then [] else [invalidTagFormat i tag])
                 (todopb.Tags task)) in
  (* Check for duplicate tags *)
  let violations :=
    snd (foldl duplicateTagStep (∅, violations)
               (imap pair (todopb.Tags task))) in
  if bool_decide (0 < length violations)%nat
  then Some (NewValidationFailed violations traceID)
  else None.

Definition emptyBatch : FieldViolation :=
  {| Field := "requests";
     Code := String EMPTY_BATCH;
     Description := "Batch must contain at least one task" |}.

Definition batchTooLarge (n : nat) : FieldViolation :=
  {| Field := "requests";
     Code := String BATCH_TOO_LARGE;
     Description := "Batch size " +:+ pretty n +:+ " exceeds maximum of 100" |}.

Definition taskRequired (i : nat) : FieldViolation :=
  {| Field := "requests[" +:+ pretty i +:+ "].task";
     Code := String REQUIRED_FIELD;
     Description := "Task is required" |}.

(** [violation.Field = fmt.Sprintf("requests[%d].task.%s", i, ...)]. *)
Definition prefixField (i : nat) (violation : FieldViolation)
  : FieldViolation :=
  {| Field := "requests[" +:+ pretty i +:+ "].task." +:+ Field violation;
     Code := Code violation;
     Description := Description violation |}.

Definition duplicateTitle (title : string) (idx : nat) : FieldViolation :=
  {| Field := "requests[" +:+ pretty idx +:+ "].task.title";
     Code := String DUPLICATE_TITLE;
     Description := "Title '" +:+ title +:+
       "' is used by multiple tasks in the batch" |}.

(** The body of the loop "Validate each task", for item [i]. *)
Definition validateItem (traceID : string) (i : nat)
    (createReq : todopb.CreateTaskRequest) : list FieldViolation :=
  match todopb.Task_ createReq with
  | None => [taskRequired i]
  | Some task =>
      match ValidateTask task traceID with
      | Some appErr => map (prefixField i) (FieldViolations appErr)
      | None => []
      end
  end.

(** The loop that fills [titleMap]: title to the indices that carry it. *)
Definition titleMapStep (titleMap : gmap string (list nat))
    (it : nat * todopb.CreateTaskRequest) : gmap string (list nat) :=
  let '(i, createReq) := it in
  match todopb.Task_ createReq with
  | Some task =>
      if negb (String.eqb (todopb.Title task) "")
      then <[todopb.Title task :=
               default [] (titleMap !! todopb.Title task) ++ [i]]> titleMap
      else titleMap
  | None => titleMap
  end.

Definition buildTitleMap (requests : list todopb.CreateTaskRequest)
  : gmap string (list nat) :=
  foldl titleMapStep ∅ (imap pair requests).

(** The loop [for title, indices := range titleMap]. *)
Definition duplicateTitleViolations (rng : MapRange string (list nat))
    (titleMap : gmap string (list nat)) : list FieldViolation :=
  flat_map (fun '(title, indices) =>
              if bool_decide (1 < length indices)%nat
              then map (duplicateTitle title) indices
              else [])
           (range_order rng titleMap).

Definition ValidateBatchCreateTasks (rng : MapRange string (list nat))
    (req : todopb.BatchCreateTasksRequest) (traceID : string)
  : option AppError :=
  let violations := [] in
  (* Check batch size *)
  let violations :=
    if bool_decide (length (todopb.Requests req) = 0%nat)
    then violations ++ [emptyBatch] else violations in
  let violations :=
    if bool_decide (100 < length (todopb.Requests req))%nat
    then violations ++ [batchTooLarge (length (todopb.Requests req))]
    else violations in
  (* Validate each task *)
  let violations :=
    violations
    ++ concat (imap (validateItem traceID) (todopb.Requests req)) in
  (* Check for duplicate titles *)
  let titleMap := buildTitleMap (todopb.Requests req) in
  let violations := violations ++ duplicateTitleViolations rng titleMap in
  if bool_decide (0 < length violations)%nat
  then Some (NewValidationFailed violations traceID)
  else None.

End WithValidator.

End validation.

(** ** internal/repository *)

Module repository.

Import apperrors.

(** The methods of the [TodoRepository] interface that task creation
    calls. A method returns what the Go method returns and the store
    after the call. *)
Class TodoRepository (R : Type) := {
  CreateTask : todopb.Task → R → option error * R;
  GetTask : string → R → option todopb.Task * option error;
  GetTaskByTitle : string → R → option todopb.Task * option error
}.

Definition IsNotFound (err : error) : bool := errors_Is err ErrNotFound.
Definition IsAlreadyExists (err : error) : bool :=
  errors_Is err ErrAlreadyExists.
Definition IsConnectionError (err : error) : bool :=
  errors_Is err ErrConnection.

Definition extractID (name : string) : string :=
  match gostrings.Split name "/"%char with
  | [_; id] => id
  | _ => name
  end.

(** [InMemoryRepository]: the two maps; the mutex is not modelled. *)
Record InMemoryRepository := mkInMemoryRepository {
  tasks : gmap string todopb.Task;
  index : gmap string string (* title -> id index *)
}.

Definition NewInMemoryRepository : InMemoryRepository :=
  mkInMemoryRepository ∅ ∅.

Definition InMemory_CreateTask (task : todopb.Task) (r : InMemoryRepository)
  : option error * InMemoryRepository :=
  let id := extractID (todopb.Name task) in
  (* Check if already exists *)
  match tasks r !! id with
  | Some _ => (Some (sentinelError ErrAlreadyExists), r)
  | None =>
      (* Check title uniqueness *)
      match index r !! todopb.Title task with
      | Some existingID =>
          if negb (String.eqb existingID id)
          then (Some (sentinelError ErrAlreadyExists), r)
          else (None, mkInMemoryRepository
                        (<[id := task]> (tasks r))
                        (<[todopb.Title task := id]> (index r)))
      | None =>
          (None, mkInMemoryRepository
                   (<[id := task]> (tasks r))
                   (<[todopb.Title task := id]> (index r)))
      end
  end.

Definition InMemory_GetTask (id : string) (r : InMemoryRepository)
  : option todopb.Task * option error :=
  match tasks r !! id with
  | Some task => (Some task, None)
  | None => (None, Some (sentinelError ErrNotFound))
  end.

Definition InMemory_GetTaskByTitle (title : string) (r : InMemoryRepository)
  : option todopb.Task * option error :=
  match index r !! title with
  | Some id => InMemory_GetTask id r
  | None => (None, Some (sentinelError ErrNotFound))
  end.

#[global] Instance InMemory_TodoRepository
  : TodoRepository InMemoryRepository :=
  {| CreateTask := InMemory_CreateTask;
     GetTask := InMemory_GetTask;
     GetTaskByTitle := InMemory_GetTaskByTitle |}.

End repository.

(** ** internal/service *)

Module service.

Import errorspb apperrors.

(** A span attribute. *)
Inductive AttrValue := AttrString (s : string) | AttrInt (n : nat).

Section WithEnvironment.

Context {R : Type} `{repository.TodoRepository R}.

Variable pv : todopb.Task → protovalidate.Result.
Variable rng : MapRange string (list nat).
(** The successive readings of [uuid.New().String()] and
    [timestamppb.Now()]. *)
Variable uuids : nat → string.
Variable clock : nat → Timestamp.
(** [getUserFromContext(ctx)]. *)
Variable user : string.

(** The store, and how many ids and clock readings were consumed. *)
Record World := mkWorld {
  repo : R;
  uuidCount : nat;
  clockCount : nat
}.

Definition handleRepositoryError (err : error) (traceID : string)
  : AppError :=
  if repository.IsConnectionError err
  then NewServiceUnavailable
         "Unable to connect to the database. Please try again later." traceID
  else NewInternal
         "An unexpected error occurred while processing your request"
         traceID (Some err).

(** The end of [CreateTask], from "Generate task ID" on. *)
Definition saveNewTask (traceID : string) (reqTask : todopb.Task)
    (w : World) : (todopb.Task + error) * World :=
  (* Generate task ID *)
  let taskID := uuids (uuidCount w) in
  let task :=
    {| todopb.Name := "tasks/" +:+ taskID;
       todopb.Title := todopb.Title reqTask;
       todopb.Description := todopb.Description reqTask;
       todopb.Status_ :=
         (* Set defaults *)
         if decide (todopb.Status_ reqTask = todopb.STATUS_UNSPECIFIED)
         then todopb.STATUS_PENDING else todopb.Status_ reqTask;
       todopb.Priority_ :=
         if decide (todopb.Priority_ reqTask = todopb.PRIORITY_UNSPECIFIED)
         then todopb.PRIORITY_MEDIUM else todopb.Priority_ reqTask;
       todopb.DueDate := todopb.DueDate reqTask;
       todopb.Tags := todopb.Tags reqTask;
       todopb.CreateTime := Some (clock (clockCount w));
       todopb.UpdateTime := Some (clock (S (clockCount w)));
       todopb.CreatedBy := user |} in
  (* Save to repository *)
  let '(err, repo') := repository.CreateTask task (repo w) in
  let w' := mkWorld repo' (S (uuidCount w)) (S (S (clockCount w))) in
  match err with
  | Some err' => (inr (appError (handleRepositoryError err' traceID)), w')
  | None => (inl task, w')
  end.

Definition CreateTask (traceID : string) (req : todopb.CreateTaskRequest)
    (w : World) : (todopb.Task + error) * World :=
  (* Validate request *)
  match todopb.Task_ req with
  | None =>
      (inr (appError
              (NewRequiredField "task" "Task object is required" traceID)), w)
  | Some reqTask =>
      (* Validate task fields using the new validation package *)
      match validation.ValidateTask pv reqTask traceID with
      | Some err => (inr (appError err), w)
      | None =>
          (* Check for duplicate title *)
          let '(existing, err) :=
            repository.GetTaskByTitle (todopb.Title reqTask) (repo w) in
          let afterLookup :=
            match existing with
            | Some _ =>
                (inr (appError
                        (NewConflict "task"
                           "A task with this title already exists" traceID)),
                 w)
            | None => saveNewTask traceID reqTask w
            end in
          match err with
          | Some err' =>
              if negb (repository.IsNotFound err')
              then (inr (appError (handleRepositoryError err' traceID)), w)
              else afterLookup
          | None => afterLookup
          end
      end
  end.

(** The loop "Process each task": [created], [batchErrors] and the world
    after the items seen so far. *)
Definition batchStep (traceID : string)
    (acc : list todopb.Task * list string * World)
    (it : nat * todopb.CreateTaskRequest)
  : list todopb.Task * list string * World :=
  let '(created, batchErrors, w) := acc in
  let '(i, createReq) := it in
  match CreateTask traceID createReq w with
  | (inr err, w') =>
      (* Collect errors for batch response *)
      (created,
       batchErrors ++ ["Task " +:+ pretty i +:+ ": " +:+ Error err], w')
  | (inl task, w') => (created ++ [task], batchErrors, w')
  end.

(** [BatchCreateTasks]: the response or the error, the attributes set on
    the span of the call, and the world afterwards. *)
Definition BatchCreateTasks (traceID : string)
    (req : todopb.BatchCreateTasksRequest) (w : World)
  : (todopb.BatchCreateTasksResponse + error)
    * list (string * AttrValue) * World :=
  (* Validate batch request using the new validation package *)
  match validation.ValidateBatchCreateTasks pv rng req traceID with
  | Some err =>
      (inr (appError err),
       [("validation.error", AttrString (AppError_Error err))], w)
  | None =>
      (* Process each task *)
      let '(created, batchErrors, w') :=
        foldl (batchStep traceID) ([], [], w)
              (imap pair (todopb.Requests req)) in
      (* If all tasks failed, return error *)
      if bool_decide (length created = 0%nat)
         && bool_decide (0 < length batchErrors)%nat
      then (inr (appError
                   (NewInternal "All batch operations failed" traceID None)),
            [], w')
      else
        (* Return partial success *)
        let response := todopb.mkBatchCreateTasksResponse created in
        (* Add partial errors to response metadata if any *)
        (inl response,
         if bool_decide (0 < length batchErrors)%nat
         then [("batch.total", AttrInt (length (todopb.Requests req)));
               ("batch.success", AttrInt (length created));
               ("batch.failed", AttrInt (length batchErrors))]
         else [],
         w')
  end.

End WithEnvironment.

End service.

(** ** JSON documents and HTTP response writers *)

(** A value handed to [encoding/json]: what [map[string]interface{}]
    holds in this program. [JTime] is a [time.Time] or a protobuf
    timestamp. *)
#[warnings="-register-all"] Inductive JSON :=
| JNull
| JStr (s : string)
| JInt (n : Z)
| JTime (t : Timestamp)
| JArr (l : list JSON)
| JObj (m : gmap string JSON).

(** The bytes given to [Write]: raw, or the encoding of a JSON
    document, which is kept as the document. *)
Inductive Body :=
| RawBytes (b : string)
| JSONDoc (j : JSON).

(** [http.ResponseWriter]: [Header().Set], [WriteHeader], [Write]. *)
Class ResponseWriter (W : Type) := {
  Header_Set : string → string → W → W;
  WriteHeader : Z → W → W;
  Write : Body → W → W
}.

(** The calls a writer received, oldest first: the observable behaviour
    of the connection's own [ResponseWriter]. *)
Inductive Event :=
| EvHeaderSet (key value : string)
| EvWriteHeader (code : Z)
| EvWrite (b : Body).

Definition Recorder := list Event.

#[global] Instance Recorder_ResponseWriter : ResponseWriter Recorder :=
  {| Header_Set := fun k v w => w ++ [EvHeaderSet k v];
     WriteHeader := fun code w => w ++ [EvWriteHeader code];
     Write := fun b w => w ++ [EvWrite b] |}.

(** The status codes passed to [WriteHeader], in order. *)
Definition headerCodes (w : Recorder) : list Z :=
  omap (fun ev => match ev with EvWriteHeader c => Some c | _ => None end) w.

(** [*http.Request]: the header and [URL.Path]. *)
Record Request := mkRequest {
  Header : gmap string (list string);
  URL_Path : string
}.

(** [validHeaderFieldByte] of net/textproto: the bytes of an HTTP token. *)
Definition validHeaderFieldByte (c : Ascii.ascii) : bool :=
  let n := Ascii.nat_of_ascii c in
  ((48 <=? n) && (n <=? 57))%nat
  || ((65 <=? n) && (n <=? 90))%nat
  || ((97 <=? n) && (n <=? 122))%nat
  || existsb (Ascii.eqb c) (String.list_ascii_of_string "!#$%&'*+-.^_`|~").

(** The loop of [canonicalMIMEHeaderKey]: upper case for the first letter
    and for a letter after a dash, lower case for the others. *)
Fixpoint canonicalFrom (upper : bool) (s : string) : string :=
  match s with
  | EmptyString => EmptyString
  | String.String c s' =>
      let n := Ascii.nat_of_ascii c in
      let c' :=
        if upper && ((97 <=? n) && (n <=? 122))%nat
        then Ascii.ascii_of_nat (n - 32)
        else if negb upper && ((65 <=? n) && (n <=? 90))%nat
        then Ascii.ascii_of_nat (n + 32)
        else c in
      String.String c' (canonicalFrom (Ascii.eqb c' "-"%char) s')
  end.

(** [textproto.CanonicalMIMEHeaderKey]: a key with a byte that is not
    valid in a header field name is returned as it is. *)
Definition CanonicalMIMEHeaderKey (s : string) : string :=
  if forallb validHeaderFieldByte (String.list_ascii_of_string s)
  then canonicalFrom true s
  else s.

(** [r.Header.Get(key)]: the first value stored under the canonical form
    of [key], or [""]. The server stores the headers of a request under
    their canonical keys. *)
Definition Header_Get (h : gmap string (list string)) (key : string)
  : string :=
  match h !! CanonicalMIMEHeaderKey key with
  | Some (v :: _) => v
  | _ => ""
  end.

(** ** internal/middleware *)

Module middleware.

Import errorspb apperrors.

(** *** The gRPC interceptor *)

(** [UnaryErrorInterceptor], given what [handler(ctx, req)] returned:
    the pair it returns and the lines it logs. *)
Definition UnaryErrorInterceptor {Resp : Type} (now : Timestamp)
    (resp : option Resp) (err : option error)
  : (option Resp * option error) * list string :=
  match err with
  | None => ((resp, None), [])
  | Some err =>
      match errors_As_AppError err with
      | Some appErr =>
          ((None, Status_Err (ToGRPCStatus now appErr)),
           match CausedBy appErr with
           | Some cause =>
               ["ERROR: " +:+ Title appErr +:+ ", Original cause: "
                +:+ Error cause]
           | None => []
           end)
      | None =>
          if snd (FromError err)
          then ((None, Some err), []) (* Already a gRPC status *)
          else
            ((None,
              Status_Err
                (ToGRPCStatus now
                   (NewInternal "An unexpected error occurred" ""
                      (Some err)))),
             ["UNEXPECTED ERROR: " +:+ Error err])
      end
  end.

(** *** The HTTP side *)

(** [responseWriter] wraps http.ResponseWriter to intercept errors. *)
Record responseWriter (W : Type) := mkResponseWriter {
  ResponseWriter_ : W;
  request : Request;
  traceID : string;
  statusCode : Z;
  written : bool
}.

Arguments mkResponseWriter {W}.
Arguments ResponseWriter_ {W}.
Arguments request {W}.
Arguments traceID {W}.
Arguments statusCode {W}.
Arguments written {W}.

Section Writers.

Context {W : Type} `{ResponseWriter W}.

Definition responseWriter_WriteHeader (code : Z) (w : responseWriter W)
  : responseWriter W :=
  if negb (written w)
  then {| ResponseWriter_ := WriteHeader code (ResponseWriter_ w);
          request := request w;
          traceID := traceID w;
          statusCode := code;
          written := true |}
  else w.

Definition responseWriter_Write (b : Body) (w : responseWriter W)
  : responseWriter W :=
  let w := if negb (written w) then responseWriter_WriteHeader 200 w else w in
  {| ResponseWriter_ := Write b (ResponseWriter_ w);
     request := request w;
     traceID := traceID w;
     statusCode := statusCode w;
     written := written w |}.

(** [Header()] is promoted from the embedded writer. *)
Definition responseWriter_Header_Set (k v : string) (w : responseWriter W)
  : responseWriter W :=
  {| ResponseWriter_ := Header_Set k v (ResponseWriter_ w);
     request := request w;
     traceID := traceID w;
     statusCode := statusCode w;
     written := written w |}.

#[global] Instance responseWriter_ResponseWriter
  : ResponseWriter (responseWriter W) :=
  {| Header_Set := responseWriter_Header_Set;
     WriteHeader := responseWriter_WriteHeader;
     Write := responseWriter_Write |}.

End Writers.

Definition getTypeForCode (code : string) : string :=
  if String.eqb code (String VALIDATION_FAILED)
  then "https://api.example.com/errors/validation-failed"
  else if String.eqb code (String RESOURCE_NOT_FOUND)
  then "https://api.example.com/errors/resource-not-found"
  else if String.eqb code (String RESOURCE_CONFLICT)
  then "https://api.example.com/errors/resource-conflict"
  else if String.eqb code (String PERMISSION_DENIED)
  then "https://api.example.com/errors/permission-denied"
  else if String.eqb code (String INTERNAL_ERROR)
  then "https://api.example.com/errors/internal-error"
  else if String.eqb code (String SERVICE_UNAVAILABLE)
  then "https://api.example.com/errors/service-unavailable"
  else "https://api.example.com/errors/unknown".

(** The ["errors"] array of a response. *)
Definition violationsJSON (fvs : list FieldViolation) : JSON :=
  JArr (map (fun fv =>
               JObj (<["field" := JStr (Field fv)]>
                    (<["code" := JStr (Code fv)]>
                    (<["message" := JStr (Description fv)]> ∅))))
            fvs).

Section HTTP.

Context {W : Type} `{ResponseWriter W}.

(** [runtime.HTTPStatusFromCode] of the grpc-gateway. *)
Variable HTTPStatusFromCode : codes.Code → Z.
(** [protojson.Marshal] of an extension followed by [json.Unmarshal];
    [None] when either fails. *)
Variable anyToJSON : Any → option JSON.

Definition writeAppErrorResponse (now : Timestamp) (w : W)
    (appErr : AppError) (instance : string) : W :=
  let statusCode := HTTPStatusFromCode (GRPCCode appErr) in
  let response : gmap string JSON :=
    <["type" := JStr (getTypeForCode (String (AppCode appErr)))]>
    (<["title" := JStr (Title appErr)]>
    (<["status" := JInt statusCode]>
    (<["detail" := JStr (Detail appErr)]>
    (<["traceId" := JStr (TraceID appErr)]>
    (<["timestamp" := JTime now]> ∅))))) in
  let response :=
    if negb (String.eqb instance "")
    then <["instance" := JStr instance]> response else response in
  let response :=
    if bool_decide (0 < length (FieldViolations appErr))%nat
    then <["errors" := violationsJSON (FieldViolations appErr)]> response
    else response in
  let w := Header_Set "Content-Type" "application/problem+json" w in
  let w := WriteHeader statusCode w in
  Write (JSONDoc (JObj response)) w.

(** [writeErrorResponse]; [http.Error] sets its two headers, writes the
    status and the message followed by a newline. *)
Definition writeErrorResponse (now : Timestamp) (w : W) (err : error) : W :=
  match err with
  | appError appErr => writeAppErrorResponse now w appErr ""
  | _ =>
      let w := Header_Set "Content-Type" "text/plain; charset=utf-8" w in
      let w := Header_Set "X-Content-Type-Options" "nosniff" w in
      let w := WriteHeader 500 w in
      Write (RawBytes (Error err +:+ String.String "010"%char "")) w
  end.

(** The first [*errorspb.ErrorDetail] among the details. *)
Fixpoint firstErrorDetail (details : list status.Detail)
  : option ErrorDetail :=
  match details with
  | [] => None
  | status.DErrorDetail errorDetail :: _ => Some errorDetail
  | _ :: details' => firstErrorDetail details'
  end.

(** [CustomHTTPError]. [span] is the trace id of the span of [ctx] when
    its span context is valid, [uuid] the reading of [uuid.New()], [now]
    of [time.Now()]. *)
Definition CustomHTTPError (span : option string) (uuid : string)
    (now : Timestamp) (w : W) (r : Request) (err : error) : W :=
  (* Extract trace ID *)
  let traceID := Header_Get (Header r) "X-Trace-ID" in
  let traceID :=
    if String.eqb traceID ""
    then match span with Some id => id | None => uuid end
    else traceID in
  (* Convert gRPC error to HTTP response *)
  let st := fst (FromError err) in
  (* Check if we have our custom error detail in status details *)
  match firstErrorDetail (status.Details st) with
  | Some errorDetail =>
      (* Update the error detail with current request context *)
      let errorDetail :=
        {| ed_Code := ed_Code errorDetail;
           ed_Title := ed_Title errorDetail;
           ed_Detail := ed_Detail errorDetail;
           ed_FieldViolations := ed_FieldViolations errorDetail;
           ed_TraceId := traceID;
           ed_Timestamp := ed_Timestamp errorDetail;
           ed_Instance := URL_Path r;
           ed_Extensions := ed_Extensions errorDetail |} in
      (* Convert to JSON and write response *)
      let w := Header_Set "Content-Type" "application/problem+json" w in
      let w := WriteHeader (HTTPStatusFromCode (status.Code st)) w in
      let response : gmap string JSON :=
        <["type" := JStr (getTypeForCode (ed_Code errorDetail))]>
        (<["title" := JStr (ed_Title errorDetail)]>
        (<["status" := JInt (HTTPStatusFromCode (status.Code st))]>
        (<["detail" := JStr (ed_Detail errorDetail)]>
        (<["instance" := JStr (ed_Instance errorDetail)]>
        (<["traceId" := JStr (ed_TraceId errorDetail)]>
        (<["timestamp" := match ed_Timestamp errorDetail with
                          | Some t => JTime t
                          | None => JNull
                          end]> ∅)))))) in
      (* Add field violations if present *)
      let response :=
        if bool_decide (0 < length (ed_FieldViolations errorDetail))%nat
        then <["errors" := violationsJSON (ed_FieldViolations errorDetail)]>
               response
        else response in
      (* Add extensions if present *)
      let response :=
        if bool_decide (0 < size (ed_Extensions errorDetail))%nat
        then
          let extensions := omap anyToJSON (ed_Extensions errorDetail) in
          if bool_decide (0 < size extensions)%nat
          then <["extensions" := JObj extensions]> response
          else response
        else response in
      Write (JSONDoc (JObj response)) w
  | None =>
      (* Fallback: create new error response *)
      let fallbackErr := NewInternal (status.Message st) traceID None in
      let fallbackErr :=
        {| GRPCCode := status.Code st;
           AppCode := AppCode fallbackErr;
           Title := Title fallbackErr;
           Detail := Detail fallbackErr;
           FieldViolations := FieldViolations fallbackErr;
           TraceID := TraceID fallbackErr;
           Instance := Instance fallbackErr;
           Extensions := Extensions fallbackErr;
           CausedBy := CausedBy fallbackErr |} in
      writeAppErrorResponse now w fallbackErr (URL_Path r)
  end.

End HTTP.

Section Panic.

Context {W : Type} `{ResponseWriter W}.
Variable HTTPStatusFromCode : codes.Code → Z.

(** [handlePanic]: the recovered value is not used. *)
Definition handlePanic (now : Timestamp) (w : responseWriter W)
  : responseWriter W :=
  let appErr :=
    NewInternal "An unexpected error occurred. Please try again later."
      (traceID w) None in
  writeErrorResponse HTTPStatusFromCode now w (appError appErr).

(** What a handler does with the writer it is given: the calls it
    makes, and whether it then panics instead of returning. *)
Inductive Call :=
| CallHeaderSet (key value : string)
| CallWriteHeader (code : Z)
| CallWrite (b : Body).

Definition doCall {V : Type} `{ResponseWriter V} (w : V) (c : Call) : V :=
  match c with
  | CallHeaderSet k v => Header_Set k v w
  | CallWriteHeader code => WriteHeader code w
  | CallWrite b => Write b w
  end.

Definition doCalls {V : Type} `{ResponseWriter V} (w : V) (cs : list Call)
  : V :=
  foldl doCall w cs.

(** [HTTPErrorHandler(next)] serving [r] on [w], where [next.ServeHTTP]
    makes the calls [calls] and panics iff [panics]. *)
Definition HTTPErrorHandler (uuid : string) (now : Timestamp)
    (calls : list Call) (panics : bool) (w : W) (r : Request) : W :=
  (* Add trace ID to context *)
  let traceID := Header_Get (Header r) "X-Trace-ID" in
  let traceID := if String.eqb traceID "" then uuid else traceID in
  (* Create response wrapper to intercept errors *)
  let wrapped :=
    {| ResponseWriter_ := w;
       request := r;
       traceID := traceID;
       statusCode := 0;
       written := false |} in
  (* Process request *)
  let wrapped := doCalls wrapped calls in
  (* Handle panics *)
  let wrapped := if panics then handlePanic now wrapped else wrapped in
  ResponseWriter_ wrapped.

End Panic.

End middleware.

(** ** internal/repository: the rest of the in-memory store *)

Module store.

Import apperrors repository.

Definition UpdateTask (task : todopb.Task) (r : InMemoryRepository)
  : option error * InMemoryRepository :=
  let id := extractID (todopb.Name task) in
  match tasks r !! id with
  | None => (Some (sentinelError ErrNotFound), r)
  | Some existing =>
      (* Update title index if changed *)
      if negb (String.eqb (todopb.Title existing) (todopb.Title task))
      then
        let index' := delete (todopb.Title existing) (index r) in
        (* Check new title uniqueness *)
        match index' !! todopb.Title task with
        | Some existingID =>
            if negb (String.eqb existingID id)
            then (Some (sentinelError ErrAlreadyExists),
                  mkInMemoryRepository (tasks r) index')
            else (None,
                  mkInMemoryRepository (<[id := task]> (tasks r))
                    (<[todopb.Title task := id]> index'))
        | None =>
            (None,
             mkInMemoryRepository (<[id := task]> (tasks r))
               (<[todopb.Title task := id]> index'))
        end
      else (None, mkInMemoryRepository (<[id := task]> (tasks r)) (index r))
  end.

Definition DeleteTask (id : string) (r : InMemoryRepository)
  : option error * InMemoryRepository :=
  match tasks r !! id with
  | None => (Some (sentinelError ErrNotFound), r)
  | Some task =>
      (None,
       mkInMemoryRepository (delete id (tasks r))
         (delete (todopb.Title task) (index r)))
  end.

(** The two maps agree: every title of the index leads to a stored task
    with that title, every stored task is indexed under its title, and a
    task is stored under the id of its name. *)
Definition consistent (r : InMemoryRepository) : Prop :=
  (∀ title id, index r !! title = Some id →
     ∃ task, tasks r !! id = Some task ∧ todopb.Title task = title)
  ∧ (∀ id task, tasks r !! id = Some task →
       index r !! todopb.Title task = Some id
       ∧ extractID (todopb.Name task) = id).

End store.

(** The pages of [ListTasks]. *)

Module paging.

Import repository.

(** The loop that looks for the page token: [start] when it ends. *)
Fixpoint tokenStart (pageToken : string) (filtered : list todopb.Task)
    (i : nat) : nat :=
  match filtered with
  | [] => 0
  | task :: filtered' =>
      if String.eqb (extractID (todopb.Name task)) pageToken
      then i + 1
      else tokenStart pageToken filtered' (S i)
  end.

(** The part "Paginate" of [ListTasks], on the filtered and sorted
    tasks: the page and the next token, or [None] when an index or the
    bounds of the slice are out of range and the code panics. The sums
    are those of Go's [int] (64 bits) and wrap around. *)
Definition paginate (filtered : list todopb.Task) (pageToken : string)
    (pageSize : Z) : option (list todopb.Task * string) :=
  let start : Z :=
    if String.eqb pageToken "" then 0
    else Z.of_nat (tokenStart pageToken filtered 0) in
  let len := Z.of_nat (length filtered) in
  let end_ := wrap64 (start + pageSize) in
  let end_ := if len <? end_ then len else end_ in
  let nextToken : option string :=
    if end_ <? len
    then
      let last := wrap64 (end_ - 1) in
      if (last <? 0) || (len <=? last) then None
      else (fun task => extractID (todopb.Name task))
             <$> filtered !! Z.to_nat last
    else Some "" in
  match nextToken with
  | None => None
  | Some nextToken =>
      if (end_ <? start) || (len <? start) then None
      else Some (take (Z.to_nat (end_ - start))
                   (drop (Z.to_nat start) filtered), nextToken)
  end.

End paging.

(** ** internal/service: reading, updating, deleting and listing tasks *)

Module taskservice.

Import errorspb apperrors.

Record GetTaskRequest := mkGetTaskRequest { get_Name : string }.

Record DeleteTaskRequest := mkDeleteTaskRequest { delete_Name : string }.

Record DeleteTaskResponse := mkDeleteTaskResponse { Message : string }.

(** [UpdateMask] is a [*fieldmaskpb.FieldMask]: nil, or its [Paths]. *)
Record UpdateTaskRequest := mkUpdateTaskRequest {
  update_Task : option todopb.Task;
  UpdateMask : option (list string)
}.

(** The two writing methods of the [TodoRepository] interface that
    creation does not use. *)
Class TodoRepositoryWrites (R : Type) := {
  repo_UpdateTask : todopb.Task → R → option error * R;
  repo_DeleteTask : string → R → option error * R
}.

#[global] Instance InMemory_TodoRepositoryWrites
  : TodoRepositoryWrites repository.InMemoryRepository :=
  {| repo_UpdateTask := store.UpdateTask;
     repo_DeleteTask := store.DeleteTask |}.

(** How a handler ends: it returns a value, returns an error, or panics
    (on the nil task of a repository that returns neither a task nor an
    error). *)
Inductive Outcome (A : Type) :=
| Returned (a : A)
| Failed (err : error)
| Panicked.

Arguments Returned {A}.
Arguments Failed {A}.
Arguments Panicked {A}.

Definition canAccessTask (user : string) (task : todopb.Task) : bool :=
  String.eqb user (todopb.CreatedBy task) || String.eqb user "admin".

Definition canModifyTask (user : string) (task : todopb.Task) : bool :=
  String.eqb user (todopb.CreatedBy task) || String.eqb user "admin".

(** One step of the loop of [applyFieldMask]. *)
Definition applyPath (update : todopb.Task) (result : todopb.Task)
    (path : string) : todopb.Task :=
  let set title description status priority dueDate tags :=
    {| todopb.Name := todopb.Name result;
       todopb.Title := title;
       todopb.Description := description;
       todopb.Status_ := status;
       todopb.Priority_ := priority;
       todopb.DueDate := dueDate;
       todopb.Tags := tags;
       todopb.CreateTime := todopb.CreateTime result;
       todopb.UpdateTime := todopb.UpdateTime result;
       todopb.CreatedBy := todopb.CreatedBy result |} in
  let keep := set (todopb.Title result) (todopb.Description result)
                  (todopb.Status_ result) (todopb.Priority_ result)
                  (todopb.DueDate result) (todopb.Tags result) in
  if String.eqb path "title"
  then set (todopb.Title update) (todopb.Description result)
           (todopb.Status_ result) (todopb.Priority_ result)
           (todopb.DueDate result) (todopb.Tags result)
  else if String.eqb path "description"
  then set (todopb.Title result) (todopb.Description update)
           (todopb.Status_ result) (todopb.Priority_ result)
           (todopb.DueDate result) (todopb.Tags result)
  else if String.eqb path "status"
  then set (todopb.Title result) (todopb.Description result)
           (todopb.Status_ update) (todopb.Priority_ result)
           (todopb.DueDate result) (todopb.Tags result)
  else if String.eqb path "priority"
  then set (todopb.Title result) (todopb.Description result)
           (todopb.Status_ result) (todopb.Priority_ update)
           (todopb.DueDate result) (todopb.Tags result)
  else if String.eqb path "due_date"
  then set (todopb.Title result) (todopb.Description result)
           (todopb.Status_ result) (todopb.Priority_ result)
           (todopb.DueDate update) (todopb.Tags result)
  else if String.eqb path "tags"
  then set (todopb.Title result) (todopb.Description result)
           (todopb.Status_ result) (todopb.Priority_ result)
           (todopb.DueDate result) (todopb.Tags update)
  else keep.

Definition applyFieldMask (existing update : todopb.Task)
    (paths : list string) : todopb.Task :=
  foldl (applyPath update) existing paths.

(** [task] with [UpdateTime] set. *)
Definition withUpdateTime (task : todopb.Task) (now : Timestamp)
  : todopb.Task :=
  {| todopb.Name := todopb.Name task;
     todopb.Title := todopb.Title task;
     todopb.Description := todopb.Description task;
     todopb.Status_ := todopb.Status_ task;
     todopb.Priority_ := todopb.Priority_ task;
     todopb.DueDate := todopb.DueDate task;
     todopb.Tags := todopb.Tags task;
     todopb.CreateTime := todopb.CreateTime task;
     todopb.UpdateTime := Some now;
     todopb.CreatedBy := todopb.CreatedBy task |}.

Section Handlers.

Context {R : Type} `{repository.TodoRepository R} `{TodoRepositoryWrites R}.

(** The validator on the three kinds of message, the reading of
    [timestamppb.Now()] and the user of the context. *)
Variable pvTask : todopb.Task → protovalidate.Result.
Variable pvGet : GetTaskRequest → protovalidate.Result.
Variable pvDelete : DeleteTaskRequest → protovalidate.Result.
Variable now : Timestamp.
Variable user : string.

(** "Get existing task", as [GetTask], [UpdateTask] and [DeleteTask] do
    it: the stored task, or how the handler fails. *)
Definition lookupTask (taskID traceID : string) (repo : R)
  : Outcome todopb.Task :=
  match repository.GetTask taskID repo with
  | (_, Some err) =>
      if repository.IsNotFound err
      then Failed (appError (NewNotFound "Task" taskID traceID))
      else Failed (appError
                     (service.handleRepositoryError err traceID))
  | (Some task, None) => Returned task
  | (None, None) => Panicked
  end.

Definition GetTask (traceID : string) (req : GetTaskRequest) (repo : R)
  : Outcome todopb.Task :=
  (* Validate request using the new validation package *)
  match validation.ValidateRequest pvGet req traceID with
  | Some err => Failed (appError err)
  | None =>
      (* Extract task ID *)
      match gostrings.Split (get_Name req) "/"%char with
      | [kind; taskID] =>
          if negb (String.eqb kind "tasks")
          then Failed (appError
                         (NewRequiredField "name"
                            "Task name must be in format 'tasks/{id}'"
                            traceID))
          else
            (* Get from repository *)
            match lookupTask taskID traceID repo with
            | Returned task =>
                (* Check permissions *)
                if negb (canAccessTask user task)
                then Failed (appError
                               (NewPermissionDenied "task" "read" traceID))
                else Returned task
            | other => other
            end
      | _ =>
          Failed (appError
                    (NewRequiredField "name"
                       "Task name must be in format 'tasks/{id}'" traceID))
      end
  end.

Definition UpdateTask (traceID : string) (req : UpdateTaskRequest) (repo : R)
  : Outcome todopb.Task * R :=
  (* Validate request *)
  match update_Task req with
  | None =>
      (Failed (appError
                 (NewRequiredField "task" "Task object is required" traceID)),
       repo)
  | Some reqTask =>
      match UpdateMask req with
      | None | Some [] =>
          (Failed (appError
                     (NewRequiredField "update_mask"
                        "Update mask must specify which fields to update"
                        traceID)), repo)
      | Some paths =>
          (* Extract task ID *)
          match gostrings.Split (todopb.Name reqTask) "/"%char with
          | [kind; taskID] =>
              if negb (String.eqb kind "tasks")
              then (Failed (appError
                              (NewRequiredField "task.name"
                                 "Invalid task name format" traceID)), repo)
              else
                (* Get existing task *)
                match lookupTask taskID traceID repo with
                | Returned existing =>
                    (* Check permissions *)
                    if negb (canModifyTask user existing)
                    then (Failed (appError
                                    (NewPermissionDenied "task" "update"
                                       traceID)), repo)
                    else
                      (* Apply updates based on field mask *)
                      let updated :=
                        withUpdateTime
                          (applyFieldMask existing reqTask paths) now in
                      (* Validate updated task *)
                      match validation.ValidateTask pvTask updated traceID with
                      | Some err => (Failed (appError err), repo)
                      | None =>
                          (* Save to repository *)
                          match repo_UpdateTask updated repo with
                          | (Some err, repo') =>
                              (Failed (appError
                                         (service.handleRepositoryError err
                                            traceID)), repo')
                          | (None, repo') => (Returned updated, repo')
                          end
                      end
                | other => (other, repo)
                end
          | _ =>
              (Failed (appError
                         (NewRequiredField "task.name"
                            "Invalid task name format" traceID)), repo)
          end
      end
  end.

Definition DeleteTask (traceID : string) (req : DeleteTaskRequest) (repo : R)
  : Outcome DeleteTaskResponse * R :=
  (* Validate request using the new validation package *)
  match validation.ValidateRequest pvDelete req traceID with
  | Some err => (Failed (appError err), repo)
  | None =>
      (* Extract task ID *)
      match gostrings.Split (delete_Name req) "/"%char with
      | [kind; taskID] =>
          if negb (String.eqb kind "tasks")
          then (Failed (appError
                          (NewRequiredField "name" "Invalid task name format"
                             traceID)), repo)
          else
            (* Get existing task to check permissions *)
            match lookupTask taskID traceID repo with
            | Returned existing =>
                (* Check permissions *)
                if negb (canModifyTask user existing)
                then (Failed (appError
                                (NewPermissionDenied "task" "delete"
                                   traceID)), repo)
                else
                  (* Delete from repository *)
                  match repo_DeleteTask taskID repo with
                  | (Some err, repo') =>
                      (Failed (appError
                                 (service.handleRepositoryError err traceID)),
                       repo')
                  | (None, repo') =>
                      (Returned
                         (mkDeleteTaskResponse
                            ("Task " +:+ delete_Name req
                             +:+ " deleted successfully")), repo')
                  end
            | Failed err => (Failed err, repo)
            | Panicked => (Panicked, repo)
            end
      | _ =>
          (Failed (appError
                     (NewRequiredField "name" "Invalid task name format"
                        traceID)), repo)
      end
  end.

End Handlers.

End taskservice.

(** The filter of [ListTasks]. *)

Module filters.





Section ParseFilter.

(** [strings.TrimSpace] and [strings.Trim]. *)
Variable TrimSpace : string → string.
Variable Trim : string → string → string.




End ParseFilter.

End filters.

(** ** main.go: the interceptor chain and the HTTP middleware *)

Module server.

Import apperrors taskservice.

(** [recoveryInterceptor], given how [handler(ctx, req)] ended. The
    named results are [nil] when the handler panics, and the deferred
    function sets [err]. The line it logs and the metric are left out. *)
Definition recoveryInterceptor {Resp : Type} (handler : Outcome Resp)
  : option Resp * option error :=
  match handler with
  | Returned resp => (Some resp, None)
  | Failed err => (None, Some err)
  | Panicked =>
      (None,
       Status_Err (Some (status.New codes.Internal "Internal server error")))
  end.

(** [loggingInterceptor] returns what its handler returned; the line it
    logs is left out. *)
Definition loggingInterceptor {Resp : Type}
    (handler : option Resp * option error) : option Resp * option error :=
  let '(resp, err) := handler in
  (resp, err).

(** [grpc.ChainUnaryInterceptor(UnaryErrorInterceptor, loggingInterceptor(),
    recoveryInterceptor())]: the first interceptor is the outermost. *)
Definition chain {Resp : Type} (now : Timestamp) (handler : Outcome Resp)
  : (option Resp * option error) * list string :=
  let '(resp, err) := loggingInterceptor (recoveryInterceptor handler) in
  middleware.UnaryErrorInterceptor now resp err.

End server.

(** Byte slices of strings. *)

Module bytes.

(** [s[n:]] for [n <= len(s)]. *)
Fixpoint sliceFrom (n : nat) (s : string) : string :=
  match n, s with
  | O, _ => s
  | S n', String.String _ s' => sliceFrom n' s'
  | S _, EmptyString => EmptyString
  end.

(** [s[:n]] for [n <= len(s)]. *)
Fixpoint sliceTo (n : nat) (s : string) : string :=
  match n, s with
  | O, _ => EmptyString
  | S n', String.String c s' => String.String c (sliceTo n' s')
  | S _, EmptyString => EmptyString
  end.

(** The index of the first byte [c] of [s], counting from [i]. *)
Fixpoint indexFrom (i : nat) (c : Ascii.ascii) (s : string) : option nat :=
  match s with
  | EmptyString => None
  | String.String c' s' =>
      if Ascii.eqb c' c then Some i else indexFrom (S i) c s'
  end.

End bytes.

(** [authMiddleware] of main.go: the user it puts in the context, from
    the value of the [Authorization] header. *)
Definition authUser (authHeader : string) : string :=
  let authHeader :=
    if String.eqb authHeader "" then "Bearer anonymous" else authHeader in
  (* Extract user from token *)
  if (7 <? String.length authHeader)%nat
     && String.eqb (bytes.sliceTo 7 authHeader) "Bearer "
  then bytes.sliceFrom 7 authHeader
  else "anonymous".

(** ** The masking helpers of the account service *)

Module accounts.

Import bytes.

(** [lastN(s, n)], for [n >= 0] as at its callers. *)
Definition lastN (s : string) (n : nat) : string :=
  if (String.length s <=? n)%nat then s
  else sliceFrom (String.length s - n) s.

(** [maskEmail]. The loop ranges over the runes of [email]; a rune is
    ['@'] exactly at an index that holds the byte ['@']. *)
Definition maskEmail (email : string) : string :=
  (* Simple email masking: show first 2 chars and domain *)
  if (String.length email <? 3)%nat then "***"
  else
    match indexFrom 0 "@"%char email with
    | None => sliceTo 2 email +:+ "***"
    | Some atIndex => sliceTo 2 email +:+ "***" +:+ sliceFrom atIndex email
    end.

Definition maskPhone (phone : string) : string :=
  (* Simple phone masking: show last 4 digits *)
  if (String.length phone <=? 4)%nat then phone
  else "XXX-XXX-" +:+ lastN phone 4.

End accounts.

(** * Properties *)

(** ** The error model *)

Section ErrorModel.

Import errorspb apperrors.

(** A call of one of the seven typed constructors. *)
Inductive Construction :=
| ValidationFailed (violations : list FieldViolation) (traceID : string)
| NotFound (resource id traceID : string)
| Conflict (resource reason traceID : string)
| PermissionDenied (resource action traceID : string)
| ServiceUnavailable (message traceID : string)
| Internal (message traceID : string) (causedBy : option error)
| RequiredField (field message traceID : string).

Definition construct (c : Construction) : AppError :=
  match c with
  | ValidationFailed violations traceID =>
      NewValidationFailed violations traceID
  | NotFound resource id traceID => NewNotFound resource id traceID
  | Conflict resource reason traceID => NewConflict resource reason traceID
  | PermissionDenied resource action traceID =>
      NewPermissionDenied resource action traceID
  | ServiceUnavailable message traceID =>
      NewServiceUnavailable message traceID
  | Internal message traceID causedBy =>
      NewInternal message traceID causedBy
  | RequiredField field message traceID =>
      NewRequiredField field message traceID
  end.

(** The rows of the table of codes in the specification, by category:
    the application code and the transport code. *)
Definition codeTable (c : Construction) : AppErrorCode * codes.Code :=
  match c with
  | ValidationFailed _ _ => (VALIDATION_FAILED, codes.InvalidArgument)
  | RequiredField _ _ _ => (VALIDATION_FAILED, codes.InvalidArgument)
  | NotFound _ _ _ => (RESOURCE_NOT_FOUND, codes.NotFound)
  | Conflict _ _ _ => (RESOURCE_CONFLICT, codes.AlreadyExists)
  | PermissionDenied _ _ _ => (PERMISSION_DENIED, codes.PermissionDenied)
  | ServiceUnavailable _ _ => (SERVICE_UNAVAILABLE, codes.Unavailable)
  | Internal _ _ _ => (INTERNAL_ERROR, codes.Internal)
  end.

(** [e] with its [CausedBy] replaced. *)
Definition withCause (e : AppError) (cause : option error) : AppError :=
  {| GRPCCode := GRPCCode e;
     AppCode := AppCode e;
     Title := Title e;
     Detail := Detail e;
     FieldViolations := FieldViolations e;
     TraceID := TraceID e;
     Instance := Instance e;
     Extensions := Extensions e;
     CausedBy := cause |}.

Lemma ToGRPCStatus_code now (e : AppError) :
  GRPCCode e ≠ codes.OK →
  ∃ st, ToGRPCStatus now e = Some st
        ∧ status.Code st = GRPCCode e
        ∧ status.Message st = Title e.
Proof.
  intros Hok. unfold ToGRPCStatus, status.WithDetails, status.New. simpl.
  destruct (bool_decide _ && bool_decide _); case_decide; try done; eauto.
Qed.

Lemma ToGRPCStatus_validation now (e : AppError) :
  GRPCCode e = codes.InvalidArgument → FieldViolations e ≠ [] →
  ToGRPCStatus now e =
    Some (status.mkStatus codes.InvalidArgument (Title e)
            [status.DBadRequest (toBadRequest (FieldViolations e));
             status.DErrorDetail (errorDetailOf now e)]).
Proof.
  intros Hc Hv. unfold ToGRPCStatus, status.WithDetails, status.New. simpl.
  rewrite Hc, bool_decide_true by done.
  rewrite (bool_decide_true (0 < _)%nat)
    by (destruct (FieldViolations e); simpl; [done | lia]).
  reflexivity.
Qed.

Lemma ToGRPCStatus_plain now (e : AppError) :
  GRPCCode e ≠ codes.OK →
  GRPCCode e ≠ codes.InvalidArgument ∨ FieldViolations e = [] →
  ToGRPCStatus now e =
    Some (status.mkStatus (GRPCCode e) (Title e)
            [status.DErrorDetail (errorDetailOf now e)]).
Proof.
  intros Hok Hv. unfold ToGRPCStatus, status.WithDetails, status.New. simpl.
  destruct (decide (GRPCCode e = codes.OK)) as [|_]; [done |].
  destruct Hv as [Hc | Hv].
  - rewrite (bool_decide_false (GRPCCode e = codes.InvalidArgument)) by done.
    reflexivity.
  - rewrite Hv. by rewrite andb_false_r.
Qed.

(** On the errors the constructors make, the transport code
    [InvalidArgument] and the validation codes go together, and the other
    errors carry no violations. *)
Lemma construct_validation_code (c : Construction) :
  (GRPCCode (construct c) = codes.InvalidArgument
   ↔ is_validation (AppCode (construct c)) = true)
  ∧ (is_validation (AppCode (construct c)) = false →
     FieldViolations (construct c) = []).
Proof. by destruct c. Qed.

(** C1. Each of the seven constructors yields an [AppError] whose
    (application code, transport code) pair is the one the table of the
    specification fixes for its category, [RequiredField] sharing the row
    of [ValidationFailed]; and [ToGRPCStatus] of it is a status with that
    transport code. *)
Theorem constructors_follow_code_table (c : Construction) (now : Timestamp) :
  (AppCode (construct c), GRPCCode (construct c)) = codeTable c
  ∧ ∃ st, ToGRPCStatus now (construct c) = Some st
          ∧ status.Code st = snd (codeTable c).
Proof.
  split; [by destruct c |].
  destruct (ToGRPCStatus_code now (construct c)) as (st & Hst & Hcode & _).
  { by destruct c. }
  exists st. split; [done |]. rewrite Hcode. by destruct c.
Qed.

(** C5, as amended. What decides is the transport code and the list of
    violations, not the application code. For every [AppError] with a
    transport code other than [OK], [ToGRPCStatus] returns a status with
    that code and the title as message whose last detail is the
    [ErrorDetail] filled from the fields of the error; exactly when the
    transport code is [InvalidArgument] and there is at least one field
    violation, the generic [BadRequest] block with the field and
    description of each violation, in order, comes before it, and
    otherwise the [ErrorDetail] is the only detail. With the code [OK]
    [WithDetails] fails and the result is the nil status. For an error
    made by one of the seven constructors with at least one violation,
    the transport code is [InvalidArgument] exactly when the application
    code is a validation code, and a constructor gives no violations to
    an error with another code. *)
Theorem validation_detail_attached_twice (e : AppError) (now : Timestamp) :
  let errorDetail :=
    {| ed_Code := String (AppCode e);
       ed_Title := Title e;
       ed_Detail := Detail e;
       ed_FieldViolations := FieldViolations e;
       ed_TraceId := TraceID e;
       ed_Timestamp := Some now;
       ed_Instance := Instance e;
       ed_Extensions := Extensions e |} in
  let badRequest :=
    errdetails.mkBadRequest
      (map (fun fv =>
              errdetails.mkBRFieldViolation (Field fv) (Description fv))
           (FieldViolations e)) in
  ToGRPCStatus now e
  = (if decide (GRPCCode e = codes.OK) then None
     else Some (status.mkStatus (GRPCCode e) (Title e)
                  (if bool_decide (GRPCCode e = codes.InvalidArgument
                                   ∧ FieldViolations e ≠ [])
                   then [status.DBadRequest badRequest;
                         status.DErrorDetail errorDetail]
                   else [status.DErrorDetail errorDetail])))
  ∧ (∀ c, e = construct c →
          (GRPCCode e = codes.InvalidArgument ∧ FieldViolations e ≠ []
           ↔ is_validation (AppCode e) = true ∧ FieldViolations e ≠ [])
          ∧ (is_validation (AppCode e) = false → FieldViolations e = [])).
Proof.
  cbv zeta. split.
  - destruct (decide (GRPCCode e = codes.OK)) as [Hok | Hok].
    + unfold ToGRPCStatus, status.WithDetails, status.New. simpl.
      case_match; by rewrite decide_True.
    + case_bool_decide as Hboth.
      * destruct Hboth as [Hc Hv].
        rewrite (ToGRPCStatus_validation now e Hc Hv). by rewrite Hc.
      * rewrite (ToGRPCStatus_plain now e Hok); [done |].
        destruct (decide (GRPCCode e = codes.InvalidArgument)); [| by left].
        right. destruct (FieldViolations e); [done |].
        destruct Hboth. by split.
  - intros c ->.
    destruct (construct_validation_code c) as [Hcode Hnone].
    split; [by rewrite Hcode | exact Hnone].
Qed.

(** The claim as worded fails on values of [AppError]: an error with a
    validation code and no violation (as [NewValidationFailed] makes of
    an empty list) gets the [ErrorDetail] only; so does an error with a
    validation code and a violation whose transport code is not
    [InvalidArgument]; and an error with another application code gets
    both details when it travels as [InvalidArgument] with a
    violation. *)
Lemma validation_code_alone_does_not_decide :
  let violation := {| Field := "title"; Code := "REQUIRED_FIELD";
                      Description := "Task title is required" |} in
  let now := mkTimestamp 0 0 in
  let relabelled :=
    {| GRPCCode := codes.NotFound;
       AppCode := VALIDATION_FAILED;
       Title := "Validation Failed";
       Detail := "";
       FieldViolations := [violation];
       TraceID := "t1";
       Instance := "";
       Extensions := ∅;
       CausedBy := None |} in
  let other :=
    {| GRPCCode := codes.InvalidArgument;
       AppCode := RESOURCE_NOT_FOUND;
       Title := "Resource Not Found";
       Detail := "";
       FieldViolations := [violation];
       TraceID := "t1";
       Instance := "";
       Extensions := ∅;
       CausedBy := None |} in
  (is_validation (AppCode (NewValidationFailed [] "t1")) = true
   ∧ (status.Details <$> ToGRPCStatus now (NewValidationFailed [] "t1"))
     = Some [status.DErrorDetail
               (errorDetailOf now (NewValidationFailed [] "t1"))])
  ∧ (is_validation (AppCode relabelled) = true
     ∧ FieldViolations relabelled ≠ []
     ∧ (status.Details <$> ToGRPCStatus now relabelled)
       = Some [status.DErrorDetail (errorDetailOf now relabelled)])
  ∧ (is_validation (AppCode other) = false
     ∧ (status.Details <$> ToGRPCStatus now other)
       = Some [status.DBadRequest (toBadRequest [violation]);
               status.DErrorDetail (errorDetailOf now other)]).
Proof. cbv zeta. repeat split; done. Qed.

Lemma validation_detail_attached_twice_witness :
  (status.Details
   <$> ToGRPCStatus (mkTimestamp 0 0)
         (NewRequiredField "title" "Task title is required" "t1"))
  = Some [status.DBadRequest
            (errdetails.mkBadRequest
               [errdetails.mkBRFieldViolation "title"
                  "Task title is required"]);
          status.DErrorDetail
            {| ed_Code := "VALIDATION_FAILED";
               ed_Title := "Validation Failed";
               ed_Detail := "The request contains validation errors";
               ed_FieldViolations :=
                 [ {| Field := "title"; Code := "REQUIRED_FIELD";
                      Description := "Task title is required" |} ];
               ed_TraceId := "t1";
               ed_Timestamp := Some (mkTimestamp 0 0);
               ed_Instance := "";
               ed_Extensions := ∅ |}].
Proof.
  rewrite (proj1 (validation_detail_attached_twice
                    (NewRequiredField "title" "Task title is required" "t1")
                    (mkTimestamp 0 0))).
  reflexivity.
Defined.

End ErrorModel.

(** ** The gRPC interceptor *)

Section Interceptor.

Import errorspb apperrors middleware.

(** The status the interceptor makes of an error that is neither an
    [AppError] nor a status error. *)
Definition unexpectedStatus (now : Timestamp) : status.Status :=
  {| status.Code := codes.Internal;
     status.Message := "Internal Server Error";
     status.Details :=
       [status.DErrorDetail
          {| ed_Code := "INTERNAL_ERROR";
             ed_Title := "Internal Server Error";
             ed_Detail := "An unexpected error occurred";
             ed_FieldViolations := [];
             ed_TraceId := "";
             ed_Timestamp := Some now;
             ed_Instance := "";
             ed_Extensions := ∅ |}] |}.

(** [e1] and [e2] differ at most in [CausedBy]. *)
Definition sameButCause (e1 e2 : AppError) : Prop :=
  GRPCCode e1 = GRPCCode e2 ∧ AppCode e1 = AppCode e2
  ∧ Title e1 = Title e2 ∧ Detail e1 = Detail e2
  ∧ FieldViolations e1 = FieldViolations e2 ∧ TraceID e1 = TraceID e2
  ∧ Instance e1 = Instance e2 ∧ Extensions e1 = Extensions e2.

Lemma sameButCause_withCause (e1 e2 : AppError) :
  sameButCause e1 e2 → e2 = withCause e1 (CausedBy e2).
Proof.
  destruct e1, e2. unfold sameButCause, withCause. simpl.
  intros (-> & -> & -> & -> & -> & -> & -> & ->). reflexivity.
Qed.

(** C6. Two [AppError]s that differ only in [CausedBy] give the same
    status from [ToGRPCStatus], the same error returned by the
    interceptor, and the same HTTP response from [writeAppErrorResponse]
    and [writeErrorResponse] on any writer; the cause only shows in the
    line the interceptor logs when it translates the error. *)
Theorem internal_cause_not_serialized (e1 e2 : AppError) (now : Timestamp) :
  sameButCause e1 e2 →
  ToGRPCStatus now e1 = ToGRPCStatus now e2
  ∧ (∀ (Resp : Type) (resp : option Resp),
       fst (UnaryErrorInterceptor now resp (Some (appError e1)))
       = fst (UnaryErrorInterceptor now resp (Some (appError e2)))
       ∧ snd (UnaryErrorInterceptor now resp (Some (appError e1)))
         = match CausedBy e1 with
           | Some cause =>
               ["ERROR: " +:+ Title e1 +:+ ", Original cause: "
                +:+ Error cause]
           | None => []
           end)
  ∧ (∀ (W : Type) (HW : ResponseWriter W) (HTTPStatusFromCode : codes.Code → Z)
       (w : W) (instance : string),
       writeAppErrorResponse HTTPStatusFromCode now w e1 instance
       = writeAppErrorResponse HTTPStatusFromCode now w e2 instance
       ∧ writeErrorResponse HTTPStatusFromCode now w (appError e1)
         = writeErrorResponse HTTPStatusFromCode now w (appError e2)).
Proof.
  intros Hsame. rewrite (sameButCause_withCause e1 e2 Hsame).
  destruct e1 as [code app title detail fvs trace inst ext cause1].
  generalize (CausedBy e2). intros cause2. unfold withCause. simpl.
  split; [reflexivity |]. split.
  - intros Resp resp. split; reflexivity.
  - intros W HW HTTPStatusFromCode w instance. split; reflexivity.
Qed.

Lemma internal_cause_not_serialized_witness :
  ToGRPCStatus (mkTimestamp 5 0)
    (NewInternal "An unexpected error occurred" "t1"
       (Some (errorString "dial tcp 10.0.0.7:5432: password rejected")))
  = ToGRPCStatus (mkTimestamp 5 0)
      (NewInternal "An unexpected error occurred" "t1" None).
Proof.
  apply (internal_cause_not_serialized
           (NewInternal "An unexpected error occurred" "t1"
              (Some (errorString "dial tcp 10.0.0.7:5432: password rejected")))
           (NewInternal "An unexpected error occurred" "t1" None)
           (mkTimestamp 5 0)).
  unfold sameButCause. simpl. repeat split; reflexivity.
Defined.

(** C8. The interceptor, by the kind of error the handler returned: a
    nil error leaves the response as it is; an [AppError] (found by
    [errors.As]) is converted with [ToGRPCStatus], its cause logged when
    present; an error that is already a status error is returned as it
    is; any other error becomes the status of an [Internal] error with an
    empty trace id. *)
Theorem interceptor_cases {Resp : Type} (now : Timestamp)
    (resp : option Resp) :
  UnaryErrorInterceptor now resp None = ((resp, None), [])
  ∧ (∀ err appErr,
       errors_As_AppError err = Some appErr →
       UnaryErrorInterceptor now resp (Some err)
       = ((None, Status_Err (ToGRPCStatus now appErr)),
          match CausedBy appErr with
          | Some cause =>
              ["ERROR: " +:+ Title appErr +:+ ", Original cause: "
               +:+ Error cause]
          | None => []
          end))
  ∧ (∀ err,
       errors_As_AppError err = None → snd (FromError err) = true →
       UnaryErrorInterceptor now resp (Some err) = ((None, Some err), []))
  ∧ (∀ err,
       errors_As_AppError err = None → snd (FromError err) = false →
       UnaryErrorInterceptor now resp (Some err)
       = ((None, Some (statusError (unexpectedStatus now))),
          ["UNEXPECTED ERROR: " +:+ Error err])
       ∧ ToGRPCStatus now
           (NewInternal "An unexpected error occurred" "" (Some err))
         = Some (unexpectedStatus now)).
Proof.
  split; [reflexivity |]. split; [| split].
  - intros err appErr Has. unfold UnaryErrorInterceptor. by rewrite Has.
  - intros err Has Hst. unfold UnaryErrorInterceptor. by rewrite Has, Hst.
  - intros err Has Hst. unfold UnaryErrorInterceptor. rewrite Has, Hst.
    split; reflexivity.
Qed.

Lemma interceptor_cases_witness :
  UnaryErrorInterceptor (mkTimestamp 0 0) (None : option unit)
    (Some (statusError (status.New codes.NotFound "no such account")))
  = ((None, Some (statusError (status.New codes.NotFound "no such account"))),
     [])
  ∧ UnaryErrorInterceptor (mkTimestamp 0 0) (None : option unit)
      (Some (wrapError "lookup: not found" (sentinelError ErrNotFound)))
    = ((None, Some (statusError (unexpectedStatus (mkTimestamp 0 0)))),
       ["UNEXPECTED ERROR: lookup: not found"])
  ∧ fst (UnaryErrorInterceptor (mkTimestamp 0 0) (None : option unit)
           (Some (wrapError "create: conflict"
                    (appError (NewConflict "task" "taken" "t1")))))
    = (None, Status_Err (ToGRPCStatus (mkTimestamp 0 0)
                           (NewConflict "task" "taken" "t1"))).
Proof.
  destruct (interceptor_cases (mkTimestamp 0 0) (None : option unit))
    as (_ & Happ & Hst & Hother).
  split; [| split].
  - apply Hst; reflexivity.
  - apply Hother; reflexivity.
  - rewrite (Happ _ (NewConflict "task" "taken" "t1")); reflexivity.
Defined.

(** Every error falls in exactly one of the cases of the interceptor. *)
Lemma interceptor_trichotomy (err : error) :
  is_Some (errors_As_AppError err)
  ∨ errors_As_AppError err = None ∧ snd (FromError err) = true
  ∨ errors_As_AppError err = None ∧ snd (FromError err) = false.
Proof.
  destruct (errors_As_AppError err); [left; eauto |].
  destruct (snd (FromError err)); auto.
Qed.

(** [status.FromError] reports a status error exactly when one is on the
    chain of the error. *)
Lemma FromError_ok (err : error) :
  snd (FromError err) = true ↔ is_Some (errors_As_grpcstatus err).
Proof.
  unfold FromError.
  destruct err as [s | s | msg inner | st | e]; simpl;
    try destruct (errors_As_grpcstatus inner); simpl;
    (split; [| by eauto]); try done; by intros [? ?].
Qed.

End Interceptor.

(** ** The HTTP translator *)

Section HTTPTranslator.

Import errorspb apperrors middleware.

(** The gateway's table and the conversion of extensions. *)
Variable HTTPStatusFromCode : codes.Code → Z.
Variable anyToJSON : Any → option JSON.

(** The response a fresh writer has received: the content type, one
    status and one JSON document. *)
Definition problemResponse (code : Z) (doc : gmap string JSON) : Recorder :=
  [EvHeaderSet "Content-Type" "application/problem+json";
   EvWriteHeader code;
   EvWrite (JSONDoc (JObj doc))].

(** The key under which [Header.Get] looks for the trace id. *)
Lemma Header_Get_trace_header (h : gmap string (list string)) :
  Header_Get h "X-Trace-ID"
  = match h !! "X-Trace-Id" with
    | Some (value :: _) => value
    | _ => ""
    end.
Proof. reflexivity. Qed.

(** C4. On the proxied path, when the status of the error carries an
    [ErrorDetail]: the response is one problem+json document; its
    [instance] is the URL path of the current request, with or without a
    trace header; when the request has an [X-Trace-ID] header (stored, as
    the server stores it, under the canonical key [X-Trace-Id]) with a
    first value that is not empty, its [traceId] is that value, whatever
    trace id the detail carried; and otherwise its [traceId] is the one
    of the span, or a fresh one. *)
Theorem proxied_restamps_trace_and_instance
    (span : option string) (uuid : string) (now : Timestamp)
    (r : Request) (err : error) (errorDetail : ErrorDetail) :
  firstErrorDetail (status.Details (fst (FromError err))) = Some errorDetail →
  ∃ doc,
    CustomHTTPError HTTPStatusFromCode anyToJSON span uuid now
      ([] : Recorder) r err
    = problemResponse (HTTPStatusFromCode (status.Code (fst (FromError err))))
        doc
    ∧ doc !! "instance" = Some (JStr (URL_Path r))
    ∧ (∀ value values,
         Header r !! "X-Trace-Id" = Some (value :: values) →
         value ≠ "" →
         doc !! "traceId" = Some (JStr value))
    ∧ ((Header r !! "X-Trace-Id" = None
        ∨ Header r !! "X-Trace-Id" = Some []
        ∨ ∃ values, Header r !! "X-Trace-Id" = Some ("" :: values)) →
       doc !! "traceId"
       = Some (JStr (match span with Some id => id | None => uuid end))).
Proof.
  intros Hdetail. unfold CustomHTTPError. rewrite Hdetail.
  rewrite Header_Get_trace_header.
  cbn [ed_TraceId ed_Instance ed_Code ed_Title ed_Detail ed_FieldViolations
       ed_Timestamp ed_Extensions].
  eexists. split; [reflexivity |].
  split; [repeat case_bool_decide; by simplify_map_eq |].
  split.
  - intros value values -> Hvalue. apply String.eqb_neq in Hvalue.
    rewrite Hvalue. repeat case_bool_decide; by simplify_map_eq.
  - intros [-> | [-> | [values ->]]]; cbn [String.eqb];
      repeat case_bool_decide; by simplify_map_eq.
Qed.

(** C7. On the proxied path, when the status of the error carries no
    [ErrorDetail], the response still is one problem+json document: the
    rendering of a generic [Internal] error whose detail is the message
    of the status. *)
Theorem proxied_fallback_is_internal
    (span : option string) (uuid : string) (now : Timestamp)
    (r : Request) (err : error) :
  firstErrorDetail (status.Details (fst (FromError err))) = None →
  ∃ doc,
    CustomHTTPError HTTPStatusFromCode anyToJSON span uuid now
      ([] : Recorder) r err
    = problemResponse (HTTPStatusFromCode (status.Code (fst (FromError err))))
        doc
    ∧ doc !! "type"
      = Some (JStr "https://api.example.com/errors/internal-error")
    ∧ doc !! "title" = Some (JStr "Internal Server Error")
    ∧ doc !! "status"
      = Some (JInt (HTTPStatusFromCode (status.Code (fst (FromError err)))))
    ∧ doc !! "detail" = Some (JStr (status.Message (fst (FromError err))))
    ∧ doc !! "traceId"
      = Some (JStr (if String.eqb (Header_Get (Header r) "X-Trace-ID") ""
                    then match span with Some id => id | None => uuid end
                    else Header_Get (Header r) "X-Trace-ID"))
    ∧ doc !! "timestamp" = Some (JTime now)
    ∧ doc !! "errors" = None.
Proof.
  intros Hdetail. unfold CustomHTTPError. rewrite Hdetail.
  unfold writeAppErrorResponse.
  cbn [GRPCCode AppCode Title Detail FieldViolations TraceID NewInternal
       length].
  rewrite (bool_decide_false (0 < 0)%nat) by lia.
  eexists. split; [reflexivity |].
  destruct (negb _); by simplify_map_eq.
Qed.

(** Without a usable [X-Trace-ID] header (absent, or present with an
    empty value) the trace id of the response is the one of the span, or
    a fresh one; the id the detail carried is replaced all the same. *)
Lemma proxied_trace_without_header
    (span : option string) (uuid : string) (now : Timestamp)
    (r : Request) (err : error) (errorDetail : ErrorDetail) :
  firstErrorDetail (status.Details (fst (FromError err))) = Some errorDetail →
  Header_Get (Header r) "X-Trace-ID" = "" →
  ∃ doc,
    CustomHTTPError HTTPStatusFromCode anyToJSON span uuid now
      ([] : Recorder) r err
    = problemResponse (HTTPStatusFromCode (status.Code (fst (FromError err))))
        doc
    ∧ doc !! "traceId"
      = Some (JStr (match span with Some id => id | None => uuid end)).
Proof.
  intros Hdetail Hheader. unfold CustomHTTPError. rewrite Hdetail, Hheader.
  cbn [String.eqb ed_TraceId ed_Instance ed_Code ed_Title ed_Detail
       ed_FieldViolations ed_Timestamp ed_Extensions].
  eexists. split; [reflexivity |].
  repeat case_bool_decide; by simplify_map_eq.
Qed.

End HTTPTranslator.

(** [runtime.HTTPStatusFromCode] as the grpc-gateway documents it. *)
Definition gatewayHTTPStatus (c : codes.Code) : Z :=
  match c with
  | codes.OK => 200
  | codes.Canceled => 499
  | codes.Unknown => 500
  | codes.InvalidArgument => 400
  | codes.DeadlineExceeded => 504
  | codes.NotFound => 404
  | codes.AlreadyExists => 409
  | codes.PermissionDenied => 403
  | codes.Unauthenticated => 401
  | codes.ResourceExhausted => 429
  | codes.FailedPrecondition => 400
  | codes.Aborted => 409
  | codes.OutOfRange => 400
  | codes.Unimplemented => 501
  | codes.Internal => 500
  | codes.Unavailable => 503
  | codes.DataLoss => 500
  end.

Lemma proxied_restamps_trace_and_instance_witness :
  ∃ doc,
    middleware.CustomHTTPError gatewayHTTPStatus (fun _ => None)
      (Some "span-7") "uuid-1" (mkTimestamp 10 0) ([] : Recorder)
      (mkRequest {["X-Trace-Id" := ["abc"]]} "/v1/tasks")
      (apperrors.statusError
         (status.mkStatus codes.NotFound "Resource Not Found"
            [status.DErrorDetail
               (apperrors.errorDetailOf (mkTimestamp 9 0)
                  (apperrors.NewNotFound "Task" "zz" "generated-by-rpc"))]))
    = problemResponse 404 doc
    ∧ doc !! "traceId" = Some (JStr "abc")
    ∧ doc !! "instance" = Some (JStr "/v1/tasks").
Proof.
  destruct (proxied_restamps_trace_and_instance gatewayHTTPStatus
              (fun _ => None) (Some "span-7") "uuid-1" (mkTimestamp 10 0)
              (mkRequest {["X-Trace-Id" := ["abc"]]} "/v1/tasks")
              (apperrors.statusError
                 (status.mkStatus codes.NotFound "Resource Not Found"
                    [status.DErrorDetail
                       (apperrors.errorDetailOf (mkTimestamp 9 0)
                          (apperrors.NewNotFound "Task" "zz"
                             "generated-by-rpc"))]))
              (apperrors.errorDetailOf (mkTimestamp 9 0)
                 (apperrors.NewNotFound "Task" "zz" "generated-by-rpc")))
    as (doc & Hresp & Hinstance & Htrace & _).
  - reflexivity.
  - exists doc. split; [exact Hresp |].
    split; [| exact Hinstance].
    apply (Htrace "abc" []); [reflexivity | discriminate].
Defined.

Lemma proxied_fallback_is_internal_witness :
  ∃ doc,
    middleware.CustomHTTPError gatewayHTTPStatus (fun _ => None)
      None "uuid-1" (mkTimestamp 10 0) ([] : Recorder)
      (mkRequest ∅ "/v1/accounts/7")
      (apperrors.statusError
         (status.New codes.NotFound "account 7 not found"))
    = problemResponse 404 doc
    ∧ doc !! "detail" = Some (JStr "account 7 not found").
Proof.
  destruct (proxied_fallback_is_internal gatewayHTTPStatus (fun _ => None)
              None "uuid-1" (mkTimestamp 10 0)
              (mkRequest ∅ "/v1/accounts/7")
              (apperrors.statusError
                 (status.New codes.NotFound "account 7 not found")))
    as (doc & Hresp & _ & _ & _ & Hdetail & _).
  - reflexivity.
  - exists doc. split; [exact Hresp | exact Hdetail].
Defined.

(** ** The response writer of the HTTP middleware *)

Section ResponseWriterOnce.

Import middleware.

(** The status a call asks for: the code of a [WriteHeader], the 200 a
    [Write] implies. *)
Definition statusOfCall (c : Call) : option Z :=
  match c with
  | CallWriteHeader code => Some code
  | CallWrite _ => Some 200
  | CallHeaderSet _ _ => None
  end.

Definition statusCalls (cs : list Call) : list Z := omap statusOfCall cs.

(** The wrapper [HTTPErrorHandler] creates around the writer [w]. *)
Definition freshWriter (w : Recorder) (r : Request) (traceID : string)
  : responseWriter Recorder :=
  {| ResponseWriter_ := w;
     request := r;
     traceID := traceID;
     statusCode := 0;
     written := false |}.

Lemma headerCodes_app (w1 w2 : Recorder) :
  headerCodes (w1 ++ w2) = headerCodes w1 ++ headerCodes w2.
Proof. apply omap_app. Qed.

Lemma doCall_written (w : responseWriter Recorder) (c : Call) :
  written w = true →
  headerCodes (ResponseWriter_ (doCall w c)) = headerCodes (ResponseWriter_ w)
  ∧ written (doCall w c) = true
  ∧ statusCode (doCall w c) = statusCode w.
Proof.
  intros Hw. destruct c; simpl.
  - rewrite headerCodes_app. simpl. by rewrite app_nil_r.
  - unfold responseWriter_WriteHeader. by rewrite Hw.
  - unfold responseWriter_Write. rewrite Hw. simpl.
    rewrite headerCodes_app. simpl. by rewrite app_nil_r.
Qed.

Lemma doCalls_written (cs : list Call) (w : responseWriter Recorder) :
  written w = true →
  headerCodes (ResponseWriter_ (doCalls w cs)) = headerCodes (ResponseWriter_ w)
  ∧ written (doCalls w cs) = true
  ∧ statusCode (doCalls w cs) = statusCode w.
Proof.
  revert w. induction cs as [| c cs IH]; intros w Hw; [done |].
  destruct (doCall_written w c Hw) as (Hc & Hwr & Hs).
  destruct (IH (doCall w c) Hwr) as (Hc' & Hwr' & Hs').
  unfold doCalls in *. simpl. by rewrite Hc', Hs', Hc, Hs.
Qed.

Lemma doCall_unwritten (w : responseWriter Recorder) (c : Call) :
  written w = false →
  match statusOfCall c with
  | Some code =>
      headerCodes (ResponseWriter_ (doCall w c))
      = headerCodes (ResponseWriter_ w) ++ [code]
      ∧ written (doCall w c) = true
      ∧ statusCode (doCall w c) = code
  | None =>
      headerCodes (ResponseWriter_ (doCall w c))
      = headerCodes (ResponseWriter_ w)
      ∧ written (doCall w c) = false
      ∧ statusCode (doCall w c) = statusCode w
  end.
Proof.
  intros Hw. destruct c; simpl.
  - rewrite headerCodes_app. simpl. by rewrite app_nil_r.
  - unfold responseWriter_WriteHeader. rewrite Hw. simpl.
    by rewrite headerCodes_app.
  - unfold responseWriter_Write, responseWriter_WriteHeader. rewrite Hw.
    simpl. rewrite !headerCodes_app. simpl. by rewrite app_nil_r.
Qed.

Lemma doCalls_unwritten (cs : list Call) (w : responseWriter Recorder) :
  written w = false →
  headerCodes (ResponseWriter_ (doCalls w cs))
  = headerCodes (ResponseWriter_ w) ++ take 1 (statusCalls cs)
  ∧ written (doCalls w cs) = bool_decide (statusCalls cs ≠ [])
  ∧ statusCode (doCalls w cs) = default (statusCode w) (head (statusCalls cs)).
Proof.
  revert w. induction cs as [| c cs IH]; intros w Hw.
  { simpl. by rewrite app_nil_r. }
  pose proof (doCall_unwritten w c Hw) as Hc.
  unfold statusCalls, doCalls in *. simpl.
  destruct (statusOfCall c) as [code |]; simpl.
  - destruct Hc as (Hc & Hwr & Hs).
    destruct (doCalls_written cs (doCall w c) Hwr) as (Hc' & Hwr' & Hs').
    unfold doCalls in *. by rewrite Hc', Hwr', Hs', Hc, Hs.
  - destruct Hc as (Hc & Hwr & Hs).
    destruct (IH (doCall w c) Hwr) as (Hc' & Hwr' & Hs').
    by rewrite Hc', Hwr', Hs', Hc, Hs.
Qed.

(** What [handlePanic] sends on a writer that has already written: no
    status, only its header and body. *)
Lemma handlePanic_written (HTTPStatusFromCode : codes.Code → Z)
    (now : Timestamp) (w : responseWriter Recorder) :
  written w = true →
  headerCodes (ResponseWriter_ (handlePanic HTTPStatusFromCode now w))
  = headerCodes (ResponseWriter_ w)
  ∧ statusCode (handlePanic HTTPStatusFromCode now w) = statusCode w.
Proof.
  intros Hw. unfold handlePanic, writeErrorResponse, writeAppErrorResponse.
  simpl. unfold responseWriter_Write, responseWriter_WriteHeader.
  simpl. rewrite Hw. simpl. rewrite Hw. simpl.
  rewrite !headerCodes_app. simpl. by rewrite !app_nil_r.
Qed.

(** C10. The wrapper of [HTTPErrorHandler] forwards [WriteHeader] at most
    once. For every sequence of calls a handler makes on a fresh wrapper,
    the writer underneath receives exactly the first status asked for
    (the code of the first [WriteHeader], or the 200 of the first
    [Write]), if any, and the wrapper records that status and that it
    has written; a [WriteHeader] that comes after a status was sent
    changes nothing at all, in particular not [statusCode] and [written];
    and when the handler panics after it has written, the response of
    [handlePanic] does not send a second status. *)
Theorem WriteHeader_forwarded_at_most_once
    (calls : list Call) (r : Request) (tid : string) :
  headerCodes (ResponseWriter_ (doCalls (freshWriter [] r tid) calls))
  = take 1 (statusCalls calls)
  ∧ written (doCalls (freshWriter [] r tid) calls)
    = bool_decide (statusCalls calls ≠ [])
  ∧ statusCode (doCalls (freshWriter [] r tid) calls)
    = default 0 (head (statusCalls calls))
  ∧ (∀ code,
       statusCalls calls ≠ [] →
       doCalls (freshWriter [] r tid) (calls ++ [CallWriteHeader code])
       = doCalls (freshWriter [] r tid) calls)
  ∧ (∀ HTTPStatusFromCode uuid now,
       statusCalls calls ≠ [] →
       headerCodes (HTTPErrorHandler HTTPStatusFromCode uuid now calls true
                      ([] : Recorder) r)
       = take 1 (statusCalls calls)).
Proof.
  split; [| split; [| split; [| split]]].
  - by destruct (doCalls_unwritten calls (freshWriter [] r tid)) as (-> & _).
  - by destruct (doCalls_unwritten calls (freshWriter [] r tid))
      as (_ & -> & _).
  - by destruct (doCalls_unwritten calls (freshWriter [] r tid))
      as (_ & _ & ->).
  - intros code Hne.
    destruct (doCalls_unwritten calls (freshWriter [] r tid)) as (_ & Hw & _);
      [done |].
    rewrite bool_decide_true in Hw by done.
    unfold doCalls in *. rewrite foldl_app. simpl.
    unfold responseWriter_WriteHeader. by rewrite Hw.
  - intros HTTPStatusFromCode uuid now Hne. unfold HTTPErrorHandler.
    match goal with
    | |- context [doCalls ?w calls] =>
        destruct (doCalls_unwritten calls w) as (Hc & Hw & _); [done |];
        rewrite bool_decide_true in Hw by done;
        destruct (handlePanic_written HTTPStatusFromCode now
                    (doCalls w calls) Hw) as (-> & _);
        by rewrite Hc
    end.
Qed.

Lemma WriteHeader_forwarded_at_most_once_witness :
  headerCodes
    (HTTPErrorHandler gatewayHTTPStatus "uuid-1" (mkTimestamp 10 0)
       [CallHeaderSet "Content-Type" "application/json";
        CallWrite (RawBytes "{");
        CallWriteHeader 404]
       true ([] : Recorder) (mkRequest ∅ "/v1/tasks"))
  = [200].
Proof.
  destruct (WriteHeader_forwarded_at_most_once
              [CallHeaderSet "Content-Type" "application/json";
               CallWrite (RawBytes "{");
               CallWriteHeader 404]
              (mkRequest ∅ "/v1/tasks") "uuid-1")
    as (_ & _ & _ & _ & Hpanic).
  apply (Hpanic gatewayHTTPStatus "uuid-1" (mkTimestamp 10 0)).
  discriminate.
Defined.

(** The gateway's error handler runs inside [HTTPErrorHandler]: written
    through a fresh wrapper, its response reaches the connection as it
    is. *)
Lemma CustomHTTPError_through_wrapper
    (HTTPStatusFromCode : codes.Code → Z) (anyToJSON : Any → option JSON)
    (span : option string) (uuid : string) (now : Timestamp)
    (r : Request) (tid : string) (err : apperrors.error) :
  ResponseWriter_
    (CustomHTTPError HTTPStatusFromCode anyToJSON span uuid now
       (freshWriter [] r tid) r err)
  = CustomHTTPError HTTPStatusFromCode anyToJSON span uuid now
      ([] : Recorder) r err.
Proof.
  unfold CustomHTTPError.
  destruct (firstErrorDetail _); reflexivity.
Qed.

End ResponseWriterOnce.

(** ** The validation engine *)

Section BatchValidation.

Import errorspb apperrors validation.

Variable pv : todopb.Task → protovalidate.Result.

(** The indices of the batch items that carry the title [title], in
    increasing order. *)
Definition occurrences (title : string)
    (requests : list todopb.CreateTaskRequest) : list nat :=
  omap (fun '(i, createReq) =>
          match todopb.Task_ createReq with
          | Some task =>
              if String.eqb (todopb.Title task) title then Some i else None
          | None => None
          end)
       (imap pair requests).

(** The violations [ValidateBatchCreateTasks] has collected when it
    reaches the check for duplicate titles. *)
Definition violationsBeforeTitles (req : todopb.BatchCreateTasksRequest)
    (traceID : string) : list FieldViolation :=
  (if bool_decide (length (todopb.Requests req) = 0%nat)
   then [emptyBatch] else [])
  ++ (if bool_decide (100 < length (todopb.Requests req))%nat
      then [batchTooLarge (length (todopb.Requests req))] else [])
  ++ concat (imap (validateItem pv traceID) (todopb.Requests req)).

Lemma ValidateBatchCreateTasks_violations rng req traceID :
  ValidateBatchCreateTasks pv rng req traceID
  = let violations :=
      violationsBeforeTitles req traceID
      ++ duplicateTitleViolations rng (buildTitleMap (todopb.Requests req)) in
    if bool_decide (0 < length violations)%nat
    then Some (NewValidationFailed violations traceID) else None.
Proof.
  unfold ValidateBatchCreateTasks, violationsBeforeTitles.
  repeat case_bool_decide; simpl; by rewrite <- ?app_assoc.
Qed.

Lemma imap_pair_snoc {A} (l : list A) (x : A) :
  imap pair (l ++ [x]) = imap pair l ++ [(length l, x)].
Proof.
  rewrite imap_app. simpl. by rewrite Nat.add_0_r.
Qed.

Lemma occurrences_snoc title requests createReq :
  occurrences title (requests ++ [createReq])
  = occurrences title requests
    ++ match todopb.Task_ createReq with
       | Some task =>
           if String.eqb (todopb.Title task) title
           then [length requests] else []
       | None => []
       end.
Proof.
  unfold occurrences. rewrite imap_pair_snoc, omap_app. simpl.
  destruct (todopb.Task_ createReq) as [task |]; [| done].
  by destruct (String.eqb _ _).
Qed.

Lemma buildTitleMap_snoc requests createReq :
  buildTitleMap (requests ++ [createReq])
  = titleMapStep (buildTitleMap requests) (length requests, createReq).
Proof.
  unfold buildTitleMap. by rewrite imap_pair_snoc, foldl_app.
Qed.

(** [titleMap] after the loop: a non-empty title is bound to the indices
    that carry it. *)
Lemma buildTitleMap_lookup requests title :
  title ≠ "" →
  buildTitleMap requests !! title
  = match occurrences title requests with
    | [] => None
    | indices => Some indices
    end.
Proof.
  intros Hne. induction requests as [| createReq requests IH] using rev_ind.
  { done. }
  rewrite buildTitleMap_snoc, occurrences_snoc. unfold titleMapStep.
  destruct (todopb.Task_ createReq) as [task |];
    [| by rewrite app_nil_r].
  destruct (String.eqb_spec (todopb.Title task) "") as [Hempty | Hfull];
    simpl.
  { destruct (String.eqb_spec (todopb.Title task) title) as [<- | _];
      [done | by rewrite app_nil_r]. }
  destruct (String.eqb_spec (todopb.Title task) title) as [-> | Hother].
  - rewrite lookup_insert_eq, IH.
    destruct (occurrences title requests); simpl; [done |].
    by destruct (_ ++ _) eqn:E; [destruct l; discriminate | ].
  - rewrite lookup_insert_ne, app_nil_r by done. exact IH.
Qed.

(** The empty title is never entered in [titleMap]. *)
Lemma buildTitleMap_empty_title requests :
  buildTitleMap requests !! "" = None.
Proof.
  induction requests as [| createReq requests IH] using rev_ind; [done |].
  rewrite buildTitleMap_snoc. unfold titleMapStep.
  destruct (todopb.Task_ createReq) as [task |]; [| done].
  destruct (String.eqb_spec (todopb.Title task) "") as [Hempty | Hfull];
    simpl; [done |].
  by rewrite lookup_insert_ne.
Qed.

(** Where the entry of a title stands in the iteration over the map:
    once, whatever order the runtime chose. *)
Lemma range_order_split (rng : MapRange string (list nat))
    (m : gmap string (list nat)) title indices :
  m !! title = Some indices →
  ∃ l1 l2,
    range_order rng m = l1 ++ (title, indices) :: l2
    ∧ (title ∉ l1.*1) ∧ (title ∉ l2.*1).
Proof.
  intros Hm.
  assert ((title, indices) ∈ range_order rng m) as Hin.
  { rewrite (range_perm rng m). by apply elem_of_map_to_list. }
  apply list_elem_of_split in Hin as (l1 & l2 & Hsplit).
  exists l1, l2. split; [done |].
  assert (NoDup (range_order rng m).*1) as Hnodup.
  { rewrite (range_perm rng m). apply NoDup_fst_map_to_list. }
  rewrite Hsplit, fmap_app, fmap_cons in Hnodup. simpl in Hnodup.
  apply NoDup_app in Hnodup as (_ & Hdisj & Hnd2).
  apply NoDup_cons in Hnd2 as (Hnot2 & _).
  split; [| done]. intros Hin1. apply (Hdisj _ Hin1). by left.
Qed.

(** The violations the loop over [titleMap] makes of entries other than
    the one of [title]. *)
Lemma duplicateTitleViolations_others (l : list (string * list nat)) title v :
  title ∉ l.*1 →
  v ∈ flat_map (fun '(title, indices) =>
                  if bool_decide (1 < length indices)%nat
                  then map (duplicateTitle title) indices
                  else []) l →
  ∃ title' i, title' ≠ title ∧ v = duplicateTitle title' i.
Proof.
  intros Hnot Hv. apply list_elem_of_In, in_flat_map in Hv
    as ([title' indices] & Hentry & Hv).
  apply list_elem_of_In in Hentry.
  case_bool_decide; [| by destruct Hv].
  apply in_map_iff in Hv as (i & <- & _).
  exists title', i. split; [| done].
  intros ->. apply Hnot. apply list_elem_of_fmap. by exists (title, indices).
Qed.

(** No violation of the earlier checks has the code [DUPLICATE_TITLE]:
    the violations of that code are those of the loop over [titleMap]. *)
Definition otherCode (v : FieldViolation) : Prop :=
  Code v ≠ "DUPLICATE_TITLE".

Lemma mapConstraintToCode_otherCode ruleId :
  mapConstraintToCode ruleId ≠ "DUPLICATE_TITLE".
Proof.
  unfold mapConstraintToCode.
  repeat (destruct (gostrings.Contains _ _); [by vm_compute |]).
  destruct (String.eqb _ _); by vm_compute.
Qed.

Lemma ValidateRequest_otherCode {M : Type} (validate : M → protovalidate.Result)
    (msg : M) traceID appErr :
  ValidateRequest validate msg traceID = Some appErr →
  Forall otherCode (FieldViolations appErr).
Proof.
  unfold ValidateRequest. destruct (validate msg) as [| vs | err];
    intros [= <-]; simpl; [| done].
  apply Forall_forall. intros v Hv%list_elem_of_In%in_map_iff.
  destruct Hv as (violation & <- & _). apply mapConstraintToCode_otherCode.
Qed.

Lemma duplicateTagStep_otherCode acc it :
  Forall otherCode (snd acc) → Forall otherCode (snd (duplicateTagStep acc it)).
Proof.
  destruct acc as [tagMap violations], it as [i tag]. simpl. intros Hall.
  destruct (default false (tagMap !! tag)); [| done].
  apply Forall_app. split; [done |]. by repeat constructor.
Qed.

Lemma ValidateTask_otherCode task traceID appErr :
  ValidateTask pv task traceID = Some appErr →
  Forall otherCode (FieldViolations appErr).
Proof.
  unfold ValidateTask. case_bool_decide; intros [= <-]. simpl.
  match goal with
  | |- Forall _ (snd (foldl _ (∅, ?vs) ?l)) =>
      assert (Forall otherCode vs) as Hvs; [| revert Hvs; generalize vs l]
  end.
  - apply Forall_app. split.
    + assert (Forall otherCode
                match ValidateRequest pv task traceID with
                | Some appErr => FieldViolations appErr
                | None => []
                end) as Hreq.
      { destruct (ValidateRequest pv task traceID) eqn:E; [| done].
        by eapply ValidateRequest_otherCode. }
      destruct (todopb.Status_ task), (todopb.DueDate task),
        (todopb.UpdateTime task); try done.
      destruct (After _ _); [| done].
      apply Forall_app. split; [done |]. by repeat constructor.
    + apply Forall_forall. intros v Hv%list_elem_of_In%in_concat.
      destruct Hv as (vs & Hvs%list_elem_of_In & Hv).
      apply elem_of_lookup_imap in Hvs as (i & tag & -> & _).
      destruct (isValidTag tag); [done |].
      destruct Hv as [<- | []]. by vm_compute.
  - intros vs l. set (acc := (∅, vs)). change vs with (snd acc).
    generalize acc. clear. induction l as [| it l IH]; intros acc Hacc; [done |].
    simpl. apply IH. by apply duplicateTagStep_otherCode.
Qed.

Lemma violationsBeforeTitles_otherCode req traceID :
  Forall otherCode (violationsBeforeTitles req traceID).
Proof.
  unfold violationsBeforeTitles. repeat apply Forall_app_2.
  - case_bool_decide; by repeat constructor.
  - case_bool_decide; by repeat constructor.
  - apply Forall_forall. intros v Hv%list_elem_of_In%in_concat.
    destruct Hv as (vs & Hvs%list_elem_of_In & Hv%list_elem_of_In).
    apply elem_of_lookup_imap in Hvs as (i & createReq & -> & _).
    unfold validateItem in Hv.
    destruct (todopb.Task_ createReq) as [task |].
    + destruct (ValidateTask pv task traceID) as [appErr |] eqn:E;
        [| by apply elem_of_nil in Hv].
      apply list_elem_of_fmap in Hv as (v0 & -> & Hv0).
      pose proof (ValidateTask_otherCode _ _ _ E) as Hall.
      rewrite Forall_forall in Hall. exact (Hall v0 Hv0).
    + apply list_elem_of_singleton in Hv as ->. by vm_compute.
Qed.

(** C9. [ValidateBatchCreateTasks] detects duplicate titles across the
    batch: for every (non-empty) title that two or more items carry, and
    whatever the order in which the runtime walks [titleMap], the error it
    returns lists, after the violations of the earlier checks, one
    [DUPLICATE_TITLE] violation for each index at which the title appears,
    the first included, in increasing order of the index, with field path
    [requests[i].task.title]; every other violation of that part is about
    another title, and no violation of the earlier checks has the code
    [DUPLICATE_TITLE]. *)
Theorem duplicate_title_per_occurrence
    (rng : MapRange string (list nat)) (req : todopb.BatchCreateTasksRequest)
    (traceID title : string) :
  title ≠ "" →
  (1 < length (occurrences title (todopb.Requests req)))%nat →
  ∃ appErr before after,
    ValidateBatchCreateTasks pv rng req traceID = Some appErr
    ∧ FieldViolations appErr
      = violationsBeforeTitles req traceID
        ++ before
        ++ map (fun i =>
                  {| Field := "requests[" +:+ pretty i +:+ "].task.title";
                     Code := "DUPLICATE_TITLE";
                     Description := "Title '" +:+ title +:+
                       "' is used by multiple tasks in the batch" |})
               (occurrences title (todopb.Requests req))
        ++ after
    ∧ (∀ v, v ∈ before ++ after →
            ∃ title' i, title' ≠ title ∧ v = duplicateTitle title' i)
    ∧ (∀ v, v ∈ violationsBeforeTitles req traceID →
            Code v ≠ "DUPLICATE_TITLE").
Proof.
  intros Hne Hlen.
  pose proof (buildTitleMap_lookup (todopb.Requests req) title Hne) as Hm.
  destruct (occurrences title (todopb.Requests req)) as [| i0 indices] eqn:Ho;
    [simpl in Hlen; lia |].
  destruct (range_order_split rng _ _ _ Hm) as (l1 & l2 & Hsplit & Hn1 & Hn2).
  rewrite ValidateBatchCreateTasks_violations. cbv zeta.
  unfold duplicateTitleViolations. rewrite Hsplit, flat_map_app.
  set (entry := fun '(title, indices) =>
                  if bool_decide (1 < length indices)%nat
                  then map (duplicateTitle title) indices
                  else []) in *.
  change (flat_map entry ((title, i0 :: indices) :: l2))
    with (entry (title, i0 :: indices) ++ flat_map entry l2).
  assert (entry (title, i0 :: indices)
          = map (duplicateTitle title) (i0 :: indices)) as ->.
  { unfold entry. by rewrite bool_decide_true. }
  rewrite bool_decide_true by (rewrite !length_app; simpl; lia).
  exists (NewValidationFailed
            (violationsBeforeTitles req traceID
             ++ flat_map entry l1
             ++ map (duplicateTitle title) (i0 :: indices)
             ++ flat_map entry l2) traceID),
         (flat_map entry l1), (flat_map entry l2).
  split; [reflexivity |]. split; [reflexivity |]. split.
  - intros v Hv. apply elem_of_app in Hv as [Hv | Hv].
    + by apply (duplicateTitleViolations_others l1).
    + by apply (duplicateTitleViolations_others l2).
  - intros v Hv.
    pose proof (violationsBeforeTitles_otherCode req traceID) as Hall.
    rewrite Forall_forall in Hall. exact (Hall v Hv).
Qed.

End BatchValidation.

(** Two orders a run may walk a map in: the order of [map_to_list] and
    its reverse. *)
Definition rangeForward : MapRange string (list nat) :=
  {| range_order := map_to_list;
     range_perm := fun m => Permutation_refl (map_to_list m) |}.

Definition rangeBackward : MapRange string (list nat) :=
  {| range_order := fun m => reverse (map_to_list m);
     range_perm := fun m => reverse_Permutation (map_to_list m) |}.

(** A validator that finds nothing. *)
Definition acceptAll (task : todopb.Task) : protovalidate.Result :=
  protovalidate.Valid.

(** A request to create a task that has only a title. *)
Definition titled (title : string) : todopb.CreateTaskRequest :=
  todopb.mkCreateTaskRequest
    (Some {| todopb.Name := "";
             todopb.Title := title;
             todopb.Description := "";
             todopb.Status_ := todopb.STATUS_UNSPECIFIED;
             todopb.Priority_ := todopb.PRIORITY_UNSPECIFIED;
             todopb.DueDate := None;
             todopb.Tags := [];
             todopb.CreateTime := None;
             todopb.UpdateTime := None;
             todopb.CreatedBy := "" |}).

Lemma duplicate_title_per_occurrence_witness :
  ∃ appErr before after,
    validation.ValidateBatchCreateTasks acceptAll rangeBackward
      (todopb.mkBatchCreateTasksRequest
         [titled "a"; titled "b"; titled "a"; titled "b"]) "t1"
    = Some appErr
    ∧ apperrors.FieldViolations appErr
      = before
        ++ [errorspb.mkFieldViolation "requests[0].task.title"
              "Title 'a' is used by multiple tasks in the batch"
              "DUPLICATE_TITLE";
            errorspb.mkFieldViolation "requests[2].task.title"
              "Title 'a' is used by multiple tasks in the batch"
              "DUPLICATE_TITLE"]
        ++ after.
Proof.
  destruct (duplicate_title_per_occurrence acceptAll rangeBackward
              (todopb.mkBatchCreateTasksRequest
                 [titled "a"; titled "b"; titled "a"; titled "b"])
              "t1" "a") as (appErr & before & after & Hret & Hv & _).
  - discriminate.
  - vm_compute. lia.
  - exists appErr, before, after. split; [exact Hret | exact Hv].
Defined.

Section BatchOrder.

Import errorspb apperrors validation.

Variable pv : todopb.Task → protovalidate.Result.

(** Two runs on one batch return the same violations up to their order:
    either both accept, or both fail with permutations of one list. *)
Lemma ValidateBatchCreateTasks_runs (rng1 rng2 : MapRange string (list nat))
    (req : todopb.BatchCreateTasksRequest) (traceID : string) :
  match ValidateBatchCreateTasks pv rng1 req traceID,
        ValidateBatchCreateTasks pv rng2 req traceID with
  | Some e1, Some e2 => FieldViolations e1 ≡ₚ FieldViolations e2
  | None, None => True
  | _, _ => False
  end.
Proof.
  rewrite !ValidateBatchCreateTasks_violations. cbv zeta.
  assert (duplicateTitleViolations rng1 (buildTitleMap (todopb.Requests req))
          ≡ₚ duplicateTitleViolations rng2
               (buildTitleMap (todopb.Requests req))) as Hperm.
  { unfold duplicateTitleViolations.
    apply Permutation_flat_map.
    by rewrite (range_perm rng1), (range_perm rng2). }
  rewrite !length_app, (Permutation_length Hperm).
  case_bool_decide; [| done]. simpl. by rewrite Hperm.
Qed.

(** A batch in which no title repeats is validated the same way by every
    run: the loop over [titleMap] adds nothing. *)
Lemma duplicateTitleViolations_none (rng : MapRange string (list nat))
    (requests : list todopb.CreateTaskRequest) :
  (∀ title, length (occurrences title requests) ≤ 1)%nat →
  duplicateTitleViolations rng (buildTitleMap requests) = [].
Proof.
  intros Honce. unfold duplicateTitleViolations.
  assert (Forall (fun entry => (length (snd entry) ≤ 1)%nat)
                 (range_order rng (buildTitleMap requests))) as Hall.
  { rewrite (range_perm rng). apply Forall_forall.
    intros [title indices] Hin%elem_of_map_to_list. simpl.
    destruct (decide (title = "")) as [-> | Hne].
    { by rewrite buildTitleMap_empty_title in Hin. }
    rewrite buildTitleMap_lookup in Hin by done.
    specialize (Honce title).
    destruct (occurrences title requests); [done |].
    by injection Hin as <-. }
  induction Hall as [| [title indices] l Hle _ IH]; [done |].
  simpl in *. rewrite IH, bool_decide_false by lia. done.
Qed.

End BatchOrder.

(** Two titles, each used twice. *)
Definition twoDuplicatedTitles : todopb.BatchCreateTasksRequest :=
  todopb.mkBatchCreateTasksRequest
    [titled "a"; titled "b"; titled "a"; titled "b"].

(** C3, as the code behaves. One batch, two runs that differ only in the
    order in which the runtime walks [titleMap]: the same four
    [DUPLICATE_TITLE] violations come out in two different orders. *)
Theorem duplicate_title_order_varies_between_runs :
  (apperrors.FieldViolations <$>
     validation.ValidateBatchCreateTasks acceptAll rangeForward
       twoDuplicatedTitles "t1")
  = Some [validation.duplicateTitle "a" 0; validation.duplicateTitle "a" 2;
          validation.duplicateTitle "b" 1; validation.duplicateTitle "b" 3]
  ∧ (apperrors.FieldViolations <$>
       validation.ValidateBatchCreateTasks acceptAll rangeBackward
         twoDuplicatedTitles "t1")
    = Some [validation.duplicateTitle "b" 1; validation.duplicateTitle "b" 3;
            validation.duplicateTitle "a" 0; validation.duplicateTitle "a" 2]
  ∧ validation.ValidateBatchCreateTasks acceptAll rangeForward
      twoDuplicatedTitles "t1"
    ≠ validation.ValidateBatchCreateTasks acceptAll rangeBackward
        twoDuplicatedTitles "t1".
Proof.
  split; [by vm_compute |]. split; [by vm_compute |].
  vm_compute. discriminate.
Qed.

(** ** Batch creation *)

Section BatchCreate.

Import errorspb apperrors validation service.

Context {R : Type} `{repository.TodoRepository R}.

Variable pv : todopb.Task → protovalidate.Result.
Variable rng : MapRange string (list nat).
Variable uuids : nat → string.
Variable clock : nat → Timestamp.
Variable user : string.

(** One item that does not pass validation makes
    [ValidateBatchCreateTasks] fail for the whole batch. *)
Lemma ValidateBatchCreateTasks_invalid_item
    (req : todopb.BatchCreateTasksRequest) (traceID : string)
    (i : nat) (createReq : todopb.CreateTaskRequest) (v : FieldViolation) :
  todopb.Requests req !! i = Some createReq →
  v ∈ validateItem pv traceID i createReq →
  ∃ violations,
    ValidateBatchCreateTasks pv rng req traceID
    = Some (NewValidationFailed violations traceID)
    ∧ v ∈ violations.
Proof.
  intros Hi Hv. rewrite ValidateBatchCreateTasks_violations. cbv zeta.
  assert (v ∈ violationsBeforeTitles pv req traceID) as Hin.
  { unfold violationsBeforeTitles. rewrite !elem_of_app. right. right.
    apply list_elem_of_In, in_concat.
    exists (validateItem pv traceID i createReq).
    split; apply list_elem_of_In; [| done].
    by apply elem_of_lookup_imap_2. }
  eexists. split.
  - rewrite bool_decide_true; [reflexivity |].
    rewrite length_app.
    destruct (violationsBeforeTitles pv req traceID);
      [by apply elem_of_nil in Hin | simpl; lia].
  - apply elem_of_app. by left.
Qed.

(** Such a batch is rejected by [BatchCreateTasks] before any task is
    created: it returns the validation error and leaves the store as it
    was. *)
Lemma BatchCreateTasks_rejects_invalid_item
    (req : todopb.BatchCreateTasksRequest) (traceID : string)
    (w : World) (i : nat) (createReq : todopb.CreateTaskRequest)
    (v : FieldViolation) :
  todopb.Requests req !! i = Some createReq →
  v ∈ validateItem pv traceID i createReq →
  ∃ violations,
    BatchCreateTasks pv rng uuids clock user traceID req w
    = (inr (appError (NewValidationFailed violations traceID)),
       [("validation.error",
         AttrString (AppError_Error (NewValidationFailed violations traceID)))],
       w)
    ∧ v ∈ violations.
Proof.
  intros Hi Hv.
  destruct (ValidateBatchCreateTasks_invalid_item req traceID i createReq v
              Hi Hv) as (violations & Hval & Hin).
  exists violations. split; [| done].
  unfold BatchCreateTasks. by rewrite Hval.
Qed.

End BatchCreate.

(** The batch of the README and of the test client: two valid tasks, a
    task with an empty title, and an item without a task. *)
Definition partialFailureBatch : todopb.BatchCreateTasksRequest :=
  todopb.mkBatchCreateTasksRequest
    [titled "Valid Task 1"; titled ""; titled "Valid Task 2";
     todopb.mkCreateTaskRequest None].

(** C2, as the code behaves. On the batch of the README, for every
    validator, store and run, [BatchCreateTasks] returns no response: it
    fails with one [ValidationFailed] error that lists
    [requests[3].task] as required, sets only the attribute
    [validation.error], and creates no task. *)
Theorem batch_with_invalid_item_is_rejected
    {R : Type} `{repository.TodoRepository R}
    (pv : todopb.Task → protovalidate.Result)
    (rng : MapRange string (list nat))
    (uuids : nat → string) (clock : nat → Timestamp)
    (user traceID : string) (w : service.World) :
  ∃ violations,
    service.BatchCreateTasks pv rng uuids clock user traceID
      partialFailureBatch w
    = (inr (apperrors.appError
              (apperrors.NewValidationFailed violations traceID)),
       [("validation.error",
         service.AttrString
           (apperrors.AppError_Error
              (apperrors.NewValidationFailed violations traceID)))],
       w)
    ∧ errorspb.mkFieldViolation "requests[3].task" "Task is required"
        "REQUIRED_FIELD" ∈ violations.
Proof.
  apply (BatchCreateTasks_rejects_invalid_item pv rng uuids clock user
           partialFailureBatch traceID w 3 (todopb.mkCreateTaskRequest None)).
  - reflexivity.
  - by left.
Qed.

(** A validator with the one constraint the README shows: a task needs a
    title. *)
Definition requireTitle (task : todopb.Task) : protovalidate.Result :=
  if String.eqb (todopb.Title task) ""
  then protovalidate.ValidationError
         [ {| protovalidate.GetField :=
                Some [protovalidate.mkFieldPathElement "title" 2];
              protovalidate.GetRuleId := "required";
              protovalidate.GetMessage := "Task title is required" |} ]
  else protovalidate.Valid.

Definition emptyWorld : service.World :=
  service.mkWorld repository.NewInMemoryRepository 0 0.

(** The same batch with that validator and an empty store. *)
Example partialFailureBatch_run :
  service.BatchCreateTasks requireTitle rangeForward
    (fun n => "id-" +:+ pretty n) (fun n => mkTimestamp (Z.of_nat n) 0)
    "anonymous" "t1" partialFailureBatch emptyWorld
  = (inr (apperrors.appError
            (apperrors.NewValidationFailed
               [errorspb.mkFieldViolation "requests[1].task.title"
                  "Task title is required" "REQUIRED_FIELD";
                errorspb.mkFieldViolation "requests[3].task"
                  "Task is required" "REQUIRED_FIELD"] "t1")),
     [("validation.error",
       service.AttrString
         ("gRPC Code: InvalidArgument, App Code: VALIDATION_FAILED, "
          +:+ "Title: Validation Failed, "
          +:+ "Detail: The request contains 2 validation errors"))],
     emptyWorld).
Proof. vm_compute. reflexivity. Qed.

(** Past validation the loop does tolerate failures: with "Valid Task 1"
    stored already, a batch of two valid tasks creates the second one
    only, and the failure is counted on the span. *)
Example conflict_in_batch_run :
  let uuids := fun n => "id-" +:+ pretty n in
  let clock := fun n => mkTimestamp (Z.of_nat n) 0 in
  let batch :=
    todopb.mkBatchCreateTasksRequest
      [titled "Valid Task 1"; titled "Valid Task 2"] in
  ∃ first w1 second w2,
    service.CreateTask requireTitle uuids clock "anonymous" "t0"
      (titled "Valid Task 1") emptyWorld = (inl first, w1)
    ∧ service.BatchCreateTasks requireTitle rangeForward uuids clock
        "anonymous" "t1" batch w1
      = (inl (todopb.mkBatchCreateTasksResponse [second]),
         [("batch.total", service.AttrInt 2);
          ("batch.success", service.AttrInt 1);
          ("batch.failed", service.AttrInt 1)],
         w2)
    ∧ todopb.Title second = "Valid Task 2".
Proof.
  eexists _, _, _, _. split; [vm_compute; reflexivity |].
  split; [vm_compute; reflexivity | reflexivity].
Qed.

(** * Further properties of the code *)

(** ** Splitting names *)

Section SplitNames.

(** The byte [c] occurs in [s]. *)
Fixpoint hasByte (c : Ascii.ascii) (s : string) : bool :=
  match s with
  | EmptyString => false
  | String.String c' s' => Ascii.eqb c' c || hasByte c s'
  end.

Lemma Split_nonempty (s : string) (sep : Ascii.ascii) :
  gostrings.Split s sep ≠ [].
Proof.
  destruct s as [| c s]; simpl; [done |].
  destruct (Ascii.eqb c sep); [done |].
  by destruct (gostrings.Split s sep).
Qed.

Lemma Split_no_sep (s : string) (sep : Ascii.ascii) :
  hasByte sep s = false → gostrings.Split s sep = [s].
Proof.
  induction s as [| c s IH]; simpl; [done |].
  intros [Hc Hs]%orb_false_elim. rewrite Hc, (IH Hs). done.
Qed.

Lemma Split_cons (a b : string) (sep : Ascii.ascii) :
  hasByte sep a = false →
  gostrings.Split (a +:+ String.String sep b) sep = a :: gostrings.Split b sep.
Proof.
  induction a as [| c a IH]; simpl.
  - intros _. by rewrite Ascii.eqb_refl.
  - intros [Hc Ha]%orb_false_elim. rewrite Hc, (IH Ha). done.
Qed.

(** [strings.Join(strings.Split(s, sep), sep)] gives [s] back. *)
Lemma Join_Split (s : string) (sep : Ascii.ascii) :
  gostrings.Join (gostrings.Split s sep) (String.String sep "") = s.
Proof.
  unfold gostrings.Join. induction s as [| c s IH]; simpl; [done |].
  destruct (Ascii.eqb_spec c sep) as [-> | Hne].
  - pose proof (Split_nonempty s sep) as Hn.
    destruct (gostrings.Split s sep) as [| p ps]; [done |].
    simpl in *. by rewrite IH.
  - pose proof (Split_nonempty s sep) as Hn.
    destruct (gostrings.Split s sep) as [| p ps]; [done |].
    destruct ps as [| q ps]; simpl in *; by rewrite <- IH.
Qed.

(** No part of a split contains the separator. *)
Lemma Split_parts (s : string) (sep : Ascii.ascii) :
  Forall (fun part => hasByte sep part = false) (gostrings.Split s sep).
Proof.
  induction s as [| c s IH]; simpl; [by repeat constructor |].
  destruct (Ascii.eqb c sep) eqn:Hc; [by constructor |].
  pose proof (Split_nonempty s sep) as Hn.
  destruct (gostrings.Split s sep) as [| p ps]; [done |].
  inversion IH as [| ? ? Hp Hps]; subst.
  constructor; [| done]. simpl. by rewrite Hc.
Qed.

(** A name splits in two parts exactly when it has one separator. *)
Lemma Split_two (s a b : string) (sep : Ascii.ascii) :
  gostrings.Split s sep = [a; b]
  ↔ s = a +:+ String.String sep b
    ∧ hasByte sep a = false ∧ hasByte sep b = false.
Proof.
  split.
  - intros Hsplit.
    pose proof (Join_Split s sep) as Hjoin.
    pose proof (Split_parts s sep) as Hparts.
    rewrite Hsplit in Hjoin, Hparts. simpl in Hjoin.
    inversion Hparts as [| ? ? Ha Hrest]; subst.
    inversion Hrest as [| ? ? Hb _]; subst. done.
  - intros (-> & Ha & Hb). by rewrite Split_cons, Split_no_sep.
Qed.

End SplitNames.

(** ** internal/repository: the in-memory store *)

Section InMemoryStore.

Import apperrors repository store.

Lemma NewInMemoryRepository_consistent : consistent NewInMemoryRepository.
Proof. split; intros ? ? H; simpl in H; by rewrite lookup_empty in H. Qed.

Lemma consistent_insert (r : InMemoryRepository) (task : todopb.Task) :
  consistent r →
  tasks r !! extractID (todopb.Name task) = None →
  index r !! todopb.Title task = None →
  consistent
    (mkInMemoryRepository
       (<[extractID (todopb.Name task) := task]> (tasks r))
       (<[todopb.Title task := extractID (todopb.Name task)]> (index r))).
Proof.
  intros [Hidx Htasks] Hfree Htitle. split; simpl.
  - intros title id Hl.
    destruct (decide (todopb.Title task = title)) as [<- | Hne].
    + rewrite lookup_insert_eq in Hl. injection Hl as <-.
      exists task. by rewrite lookup_insert_eq.
    + rewrite lookup_insert_ne in Hl by done.
      destruct (Hidx _ _ Hl) as (other & Hother & Ht).
      exists other. split; [| done].
      rewrite lookup_insert_ne; [done |]. intros <-. congruence.
  - intros id other Hl.
    destruct (decide (extractID (todopb.Name task) = id)) as [<- | Hne].
    + rewrite lookup_insert_eq in Hl. injection Hl as <-.
      by rewrite lookup_insert_eq.
    + rewrite lookup_insert_ne in Hl by done.
      destruct (Htasks _ _ Hl) as [Hi Hn]. split; [| done].
      rewrite lookup_insert_ne; [done |]. intros Heq. congruence.
Qed.

Lemma consistent_preserved (r : InMemoryRepository) :
  consistent r →
  (∀ task, consistent (snd (InMemory_CreateTask task r)))
  ∧ (∀ id, consistent (snd (DeleteTask id r)))
  ∧ (∀ task r', UpdateTask task r = (None, r') → consistent r').
Proof.
  intros Hc. pose proof Hc as [Hidx Htasks]. split; [| split].
  - intros task. unfold InMemory_CreateTask.
    destruct (tasks r !! extractID (todopb.Name task)) eqn:Hid; [done |].
    destruct (index r !! todopb.Title task) as [existingID |] eqn:Ht.
    + destruct (String.eqb_spec existingID (extractID (todopb.Name task)))
        as [-> | Hne]; simpl; [| done].
      destruct (Hidx _ _ Ht) as (other & Hother & _). congruence.
    + by apply consistent_insert.
  - intros id. unfold DeleteTask.
    destruct (tasks r !! id) as [task |] eqn:Hid; [| done].
    destruct (Htasks _ _ Hid) as [Hi Hn]. split; simpl.
    + intros title id' Hl.
      apply lookup_delete_Some in Hl as [Hne Hl].
      destruct (Hidx _ _ Hl) as (other & Hother & Ht).
      exists other. split; [| done].
      rewrite lookup_delete_ne; [done |]. intros <-. congruence.
    + intros id' other Hl.
      apply lookup_delete_Some in Hl as [Hne Hl].
      destruct (Htasks _ _ Hl) as [Hi' Hn']. split; [| done].
      rewrite lookup_delete_ne; [done |]. intros Heq.
      rewrite Heq in Hi. congruence.
  - intros task r'. unfold UpdateTask.
    set (id := extractID (todopb.Name task)).
    destruct (tasks r !! id) as [existing |] eqn:Hid; [| done].
    destruct (Htasks _ _ Hid) as [Hi Hn].
    destruct (String.eqb_spec (todopb.Title existing) (todopb.Title task))
      as [Hsame | Hchanged]; simpl.
    + intros [= <-]. split; simpl.
      * intros title id' Hl. destruct (Hidx _ _ Hl) as (other & Hother & Ht).
        destruct (decide (id = id')) as [<- | Hne].
        -- exists task. rewrite lookup_insert_eq. split; [done |]. congruence.
        -- exists other. by rewrite lookup_insert_ne.
      * intros id' other Hl.
        destruct (decide (id = id')) as [<- | Hne].
        -- rewrite lookup_insert_eq in Hl. injection Hl as <-.
           by rewrite <- Hsame.
        -- rewrite lookup_insert_ne in Hl by done. by apply Htasks.
    + destruct (delete (todopb.Title existing) (index r)
                !! todopb.Title task) as [existingID |] eqn:Hnew.
      { apply lookup_delete_Some in Hnew as [_ Hnew].
        destruct (String.eqb_spec existingID id) as [-> | Hne]; simpl;
          [| done].
        destruct (Hidx _ _ Hnew) as (t & Ht & Htt). congruence. }
      intros [= <-]. split; simpl.
      * intros title id' Hl.
        destruct (decide (todopb.Title task = title)) as [<- | Hne].
        { rewrite lookup_insert_eq in Hl. injection Hl as <-.
          exists task. by rewrite lookup_insert_eq. }
        rewrite lookup_insert_ne in Hl by done.
        apply lookup_delete_Some in Hl as [Hold Hl].
        destruct (Hidx _ _ Hl) as (other & Hother & Ht).
        exists other. split; [| done].
        rewrite lookup_insert_ne; [done |]. intros <-. congruence.
      * intros id' other Hl.
        destruct (decide (id = id')) as [<- | Hne].
        { rewrite lookup_insert_eq in Hl. injection Hl as <-.
          by rewrite lookup_insert_eq. }
        rewrite lookup_insert_ne in Hl by done.
        destruct (Htasks _ _ Hl) as [Hi' Hn']. split; [| done].
        rewrite lookup_insert_ne.
        -- rewrite lookup_delete_ne; [done |]. intros Heq.
           rewrite Heq in Hi. congruence.
        -- intros Heq. rewrite <- Heq in Hi'.
           rewrite lookup_delete_ne in Hnew by done. congruence.
Qed.

(** In a consistent store no two tasks share a title. *)
Lemma consistent_unique_titles (r : InMemoryRepository) id1 id2 t1 t2 :
  consistent r →
  tasks r !! id1 = Some t1 → tasks r !! id2 = Some t2 →
  todopb.Title t1 = todopb.Title t2 → id1 = id2.
Proof.
  intros [_ Htasks] H1 H2 Ht.
  destruct (Htasks _ _ H1) as [Hi1 _], (Htasks _ _ H2) as [Hi2 _].
  rewrite Ht in Hi1. congruence.
Qed.

(** The stores a program can reach from the empty one with [CreateTask],
    [DeleteTask] and [UpdateTask], as long as no [UpdateTask] is refused
    with [ErrAlreadyExists]. *)
Inductive reachable : InMemoryRepository → Prop :=
| reach_new : reachable NewInMemoryRepository
| reach_create task r :
    reachable r → reachable (snd (InMemory_CreateTask task r))
| reach_delete id r :
    reachable r → reachable (snd (DeleteTask id r))
| reach_update task r :
    reachable r →
    fst (UpdateTask task r) ≠ Some (sentinelError ErrAlreadyExists) →
    reachable (snd (UpdateTask task r)).

(** The store keeps its two maps consistent: every store reached from the
    empty one by creations, deletions and updates, none of them a refused
    update, is consistent, and no two of its tasks share a title. *)
Theorem store_stays_consistent (r : InMemoryRepository) :
  reachable r →
  consistent r
  ∧ (∀ id1 id2 t1 t2,
       tasks r !! id1 = Some t1 → tasks r !! id2 = Some t2 →
       todopb.Title t1 = todopb.Title t2 → id1 = id2).
Proof.
  intros Hr.
  assert (consistent r) as Hc.
  { induction Hr as [| task r _ IH | id r _ IH | task r _ IH Hok].
    - exact NewInMemoryRepository_consistent.
    - by apply consistent_preserved.
    - by apply consistent_preserved.
    - destruct (UpdateTask task r) as [[err |] r'] eqn:Hupd; simpl in *.
      + revert Hupd Hok. unfold UpdateTask.
        destruct (tasks r !! extractID (todopb.Name task));
          [| by intros [= <- <-]].
        destruct (negb _); [| done].
        destruct (delete _ _ !! _); [| done].
        destruct (negb _); [| done]. by intros [= <- <-].
      + by eapply consistent_preserved. }
  split; [done |]. intros id1 id2 t1 t2. by apply consistent_unique_titles.
Qed.

(** A task with only a name and a title. *)
Definition namedTask (name title : string) : todopb.Task :=
  {| todopb.Name := name;
     todopb.Title := title;
     todopb.Description := "";
     todopb.Status_ := todopb.STATUS_PENDING;
     todopb.Priority_ := todopb.PRIORITY_MEDIUM;
     todopb.DueDate := None;
     todopb.Tags := [];
     todopb.CreateTime := None;
     todopb.UpdateTime := None;
     todopb.CreatedBy := "anonymous" |}.

(** A store of two tasks, the second one renamed after its creation. *)
Lemma store_stays_consistent_witness :
  let r :=
    snd (UpdateTask (namedTask "tasks/2" "Buy oat milk")
           (snd (InMemory_CreateTask (namedTask "tasks/2" "Buy milk")
                   (snd (InMemory_CreateTask
                           (namedTask "tasks/1" "Write report")
                           NewInMemoryRepository))))) in
  tasks r !! "1" = Some (namedTask "tasks/1" "Write report")
  ∧ tasks r !! "2" = Some (namedTask "tasks/2" "Buy oat milk")
  ∧ index r !! "Buy oat milk" = Some "2"
  ∧ consistent r
  ∧ (∀ id1 id2 t1 t2,
       tasks r !! id1 = Some t1 → tasks r !! id2 = Some t2 →
       todopb.Title t1 = todopb.Title t2 → id1 = id2).
Proof.
  intros r.
  split; [vm_compute; reflexivity |].
  split; [vm_compute; reflexivity |].
  split; [vm_compute; reflexivity |].
  apply (store_stays_consistent r).
  apply reach_update; [| vm_compute; discriminate].
  apply reach_create, reach_create, reach_new.
Defined.

(** Create, then look up: a task that [CreateTask] accepted is returned
    by [GetTask] under the id of its name and by [GetTaskByTitle] under
    its title, and the tasks stored under other ids are as before. *)
Theorem created_task_is_found (task : todopb.Task)
    (r r' : InMemoryRepository) :
  InMemory_CreateTask task r = (None, r') →
  InMemory_GetTask (extractID (todopb.Name task)) r' = (Some task, None)
  ∧ InMemory_GetTaskByTitle (todopb.Title task) r' = (Some task, None)
  ∧ (∀ id, id ≠ extractID (todopb.Name task) →
           InMemory_GetTask id r' = InMemory_GetTask id r).
Proof.
  unfold InMemory_CreateTask.
  destruct (tasks r !! extractID (todopb.Name task)) eqn:Hid; [done |].
  assert (∀ r'',
            r'' = mkInMemoryRepository
                    (<[extractID (todopb.Name task) := task]> (tasks r))
                    (<[todopb.Title task := extractID (todopb.Name task)]>
                       (index r)) →
            InMemory_GetTask (extractID (todopb.Name task)) r''
            = (Some task, None)
            ∧ InMemory_GetTaskByTitle (todopb.Title task) r''
              = (Some task, None)
            ∧ (∀ id, id ≠ extractID (todopb.Name task) →
                     InMemory_GetTask id r'' = InMemory_GetTask id r))
    as Hstored.
  { intros r'' ->. unfold InMemory_GetTaskByTitle, InMemory_GetTask. simpl.
    rewrite !lookup_insert_eq. split; [done |]. split; [done |].
    intros id Hne. by rewrite lookup_insert_ne. }
  destruct (index r !! todopb.Title task) as [existingID |].
  - destruct (negb _); [done |]. intros [= <-]. by apply Hstored.
  - intros [= <-]. by apply Hstored.
Qed.

Lemma created_task_is_found_witness :
  InMemory_GetTaskByTitle "Write report"
    (snd (InMemory_CreateTask (namedTask "tasks/1" "Write report")
            NewInMemoryRepository))
  = (Some (namedTask "tasks/1" "Write report"), None).
Proof.
  apply (created_task_is_found (namedTask "tasks/1" "Write report")
           NewInMemoryRepository).
  reflexivity.
Defined.

(** [CreateTask] refuses a task whose id is taken, and in a consistent
    store a task whose title another stored task has: it returns
    [ErrAlreadyExists] and changes nothing. No other error is possible. *)
Theorem create_refuses_taken_id_or_title (task : todopb.Task)
    (r : InMemoryRepository) :
  consistent r →
  ((is_Some (tasks r !! extractID (todopb.Name task))
    ∨ ∃ id other, tasks r !! id = Some other
                  ∧ todopb.Title other = todopb.Title task)
   → InMemory_CreateTask task r = (Some (sentinelError ErrAlreadyExists), r))
  ∧ (∀ err r', InMemory_CreateTask task r = (Some err, r') →
               err = sentinelError ErrAlreadyExists ∧ r' = r).
Proof.
  intros [Hidx Htasks]. unfold InMemory_CreateTask. split.
  - intros Htaken.
    destruct (tasks r !! extractID (todopb.Name task)) eqn:Hid; [done |].
    destruct Htaken as [[? ?] | (id & other & Hother & Ht)]; [done |].
    destruct (Htasks _ _ Hother) as [Hi _]. rewrite Ht in Hi. rewrite Hi.
    destruct (String.eqb_spec id (extractID (todopb.Name task)))
      as [-> | Hne]; [congruence | done].
  - intros err r'.
    destruct (tasks r !! extractID (todopb.Name task)); [by intros [= <- <-] |].
    destruct (index r !! todopb.Title task); [| done].
    destruct (negb _); [by intros [= <- <-] | done].
Qed.

Lemma create_refuses_taken_id_or_title_witness :
  InMemory_CreateTask (namedTask "tasks/2" "Write report")
    (snd (InMemory_CreateTask (namedTask "tasks/1" "Write report")
            NewInMemoryRepository))
  = (Some (sentinelError ErrAlreadyExists),
     snd (InMemory_CreateTask (namedTask "tasks/1" "Write report")
            NewInMemoryRepository)).
Proof.
  apply (create_refuses_taken_id_or_title
           (namedTask "tasks/2" "Write report")
           (snd (InMemory_CreateTask (namedTask "tasks/1" "Write report")
                   NewInMemoryRepository))).
  - apply (consistent_preserved NewInMemoryRepository).
    exact NewInMemoryRepository_consistent.
  - right. exists "1", (namedTask "tasks/1" "Write report").
    split; reflexivity.
Defined.

(** [DeleteTask] of an id that is not stored returns [ErrNotFound] and
    changes nothing; of a stored id, it succeeds, after which neither
    [GetTask] of the id nor [GetTaskByTitle] of the title finds the task,
    and lookups of the other ids are as before. *)
Theorem deleted_task_is_gone (id : string) (r : InMemoryRepository) :
  (tasks r !! id = None →
   DeleteTask id r = (Some (sentinelError ErrNotFound), r))
  ∧ (∀ task, tasks r !! id = Some task →
       ∃ r', DeleteTask id r = (None, r')
             ∧ InMemory_GetTask id r' = (None, Some (sentinelError ErrNotFound))
             ∧ InMemory_GetTaskByTitle (todopb.Title task) r'
               = (None, Some (sentinelError ErrNotFound))
             ∧ (∀ id', id' ≠ id →
                       InMemory_GetTask id' r' = InMemory_GetTask id' r)).
Proof.
  unfold DeleteTask. split.
  - by intros ->.
  - intros task ->. eexists. split; [reflexivity |].
    unfold InMemory_GetTaskByTitle, InMemory_GetTask. simpl.
    rewrite !lookup_delete_eq. split; [done |]. split; [done |].
    intros id' Hne. by rewrite lookup_delete_ne.
Qed.

Lemma deleted_task_is_gone_witness :
  let r :=
    snd (InMemory_CreateTask (namedTask "tasks/2" "Buy milk")
           (snd (InMemory_CreateTask (namedTask "tasks/1" "Write report")
                   NewInMemoryRepository))) in
  ∃ r',
    DeleteTask "1" r = (None, r')
    ∧ InMemory_GetTask "1" r' = (None, Some (sentinelError ErrNotFound))
    ∧ InMemory_GetTaskByTitle "Write report" r'
      = (None, Some (sentinelError ErrNotFound))
    ∧ InMemory_GetTask "2" r' = (Some (namedTask "tasks/2" "Buy milk"), None)
    ∧ DeleteTask "7" r = (Some (sentinelError ErrNotFound), r).
Proof.
  intros r.
  destruct (deleted_task_is_gone "1" r) as [_ Hstored].
  destruct (Hstored (namedTask "tasks/1" "Write report"))
    as (r' & Hdelete & Hget & Htitle & Hothers).
  { vm_compute. reflexivity. }
  exists r'. split; [exact Hdelete |]. split; [exact Hget |].
  split; [exact Htitle |]. split.
  - rewrite (Hothers "2") by discriminate. vm_compute. reflexivity.
  - apply (deleted_task_is_gone "7" r). vm_compute. reflexivity.
Defined.

(** An [UpdateTask] that changes the title to one another task has
    returns [ErrAlreadyExists] and leaves the stored tasks as they were,
    but it has already removed the old title from the index: the task is
    still found by [GetTask] and no longer by [GetTaskByTitle]. *)
Theorem refused_update_unindexes_title (task existing : todopb.Task)
    (other : string) (r : InMemoryRepository) :
  tasks r !! extractID (todopb.Name task) = Some existing →
  todopb.Title existing ≠ todopb.Title task →
  index r !! todopb.Title task = Some other →
  other ≠ extractID (todopb.Name task) →
  ∃ r', UpdateTask task r = (Some (sentinelError ErrAlreadyExists), r')
        ∧ tasks r' = tasks r
        ∧ InMemory_GetTask (extractID (todopb.Name task)) r'
          = (Some existing, None)
        ∧ InMemory_GetTaskByTitle (todopb.Title existing) r'
          = (None, Some (sentinelError ErrNotFound)).
Proof.
  intros Hid Hchanged Hother Hne. unfold UpdateTask. rewrite Hid.
  destruct (String.eqb_spec (todopb.Title existing) (todopb.Title task))
    as [? | _]; [done |]. simpl.
  rewrite lookup_delete_ne, Hother by done.
  destruct (String.eqb_spec other (extractID (todopb.Name task)))
    as [? | _]; [done |]. simpl.
  eexists. split; [reflexivity |].
  unfold InMemory_GetTaskByTitle, InMemory_GetTask. simpl.
  by rewrite Hid, lookup_delete_eq.
Qed.

Lemma refused_update_unindexes_title_witness :
  let r := snd (InMemory_CreateTask (namedTask "tasks/2" "Call Bob")
                  (snd (InMemory_CreateTask
                          (namedTask "tasks/1" "Write report")
                          NewInMemoryRepository))) in
  ∃ r', UpdateTask (namedTask "tasks/2" "Write report") r
        = (Some (sentinelError ErrAlreadyExists), r')
        ∧ InMemory_GetTaskByTitle "Call Bob" r'
          = (None, Some (sentinelError ErrNotFound)).
Proof.
  intros r.
  destruct (refused_update_unindexes_title
              (namedTask "tasks/2" "Write report")
              (namedTask "tasks/2" "Call Bob") "1" r)
    as (r' & Hupd & _ & _ & Hgone).
  - reflexivity.
  - simpl. discriminate.
  - reflexivity.
  - simpl. discriminate.
  - exists r'. split; [exact Hupd | exact Hgone].
Defined.

(** An [UpdateTask] that succeeds stores the new task under its id; in a
    consistent store the task is then found under its new title. *)
Theorem updated_task_is_found (task : todopb.Task)
    (r r' : InMemoryRepository) :
  consistent r →
  UpdateTask task r = (None, r') →
  InMemory_GetTask (extractID (todopb.Name task)) r' = (Some task, None)
  ∧ InMemory_GetTaskByTitle (todopb.Title task) r' = (Some task, None).
Proof.
  intros Hc Hupd.
  destruct (consistent_preserved r Hc) as (_ & _ & Hkeep).
  destruct (Hkeep _ _ Hupd) as [_ Htasks'].
  assert (tasks r' !! extractID (todopb.Name task) = Some task) as Hstored.
  { revert Hupd. unfold UpdateTask.
    destruct (tasks r !! extractID (todopb.Name task)); [| done].
    destruct (negb _).
    - destruct (delete _ _ !! _).
      + destruct (negb _); [done |]. intros [= <-]. simpl.
        by rewrite lookup_insert_eq.
      + intros [= <-]. simpl. by rewrite lookup_insert_eq.
    - intros [= <-]. simpl. by rewrite lookup_insert_eq. }
  destruct (Htasks' _ _ Hstored) as [Hi _].
  unfold InMemory_GetTaskByTitle, InMemory_GetTask. by rewrite Hi, Hstored.
Qed.

Lemma updated_task_is_found_witness :
  let r := snd (InMemory_CreateTask (namedTask "tasks/1" "Write report")
                  NewInMemoryRepository) in
  InMemory_GetTaskByTitle "Write the report"
    (snd (UpdateTask (namedTask "tasks/1" "Write the report") r))
  = (Some (namedTask "tasks/1" "Write the report"), None).
Proof.
  intros r.
  apply (updated_task_is_found (namedTask "tasks/1" "Write the report") r).
  - apply (consistent_preserved NewInMemoryRepository).
    exact NewInMemoryRepository_consistent.
  - reflexivity.
Defined.

(** [extractID] of ["tasks/" + id] is [id] when [id] has no slash, and a
    name without a slash is its own id. *)
Theorem extractID_of_task_name (id : string) :
  hasByte "/"%char id = false →
  extractID ("tasks/" +:+ id) = id ∧ extractID id = id.
Proof.
  intros Hid. unfold extractID. split.
  - change ("tasks/" +:+ id) with ("tasks" +:+ String.String "/"%char id).
    by rewrite Split_cons, Split_no_sep.
  - by rewrite Split_no_sep.
Qed.

Lemma extractID_of_task_name_witness :
  extractID ("tasks/" +:+ "6f1c-42") = "6f1c-42".
Proof.
  apply (extractID_of_task_name "6f1c-42"). reflexivity.
Defined.

End InMemoryStore.

(** ** internal/validation: what [ValidateTask] reports *)

Section TaskValidation.

Import errorspb apperrors validation.

Variable pv : todopb.Task → protovalidate.Result.

(** The violations of the validator on [task], as [ValidateTask] takes
    them over: none when the validator accepts the task or fails
    itself. *)
Definition validatorViolations (task : todopb.Task) (traceID : string)
  : list FieldViolation :=
  match ValidateRequest pv task traceID with
  | Some appErr => FieldViolations appErr
  | None => []
  end.

(** The task is completed, has a due date and was updated after it. *)
Definition completedLate (task : todopb.Task) : bool :=
  match todopb.Status_ task, todopb.DueDate task, todopb.UpdateTime task with
  | todopb.STATUS_COMPLETED, Some dueDate, Some updateTime =>
      After (AsTime updateTime) (AsTime dueDate)
  | _, _, _ => false
  end.

(** Sums within the range of [int64] do not wrap. *)
Lemma wrap64_small (z : Z) :
  - 2 ^ 63 ≤ z < 2 ^ 63 → wrap64 z = z.
Proof.
  intros Hz. unfold wrap64. rewrite Z.mod_small; lia.
Qed.

(** On timestamps with normalised nanoseconds and seconds far from the
    ends of [int64], [After] compares the seconds and then the
    nanoseconds. *)
Lemma After_AsTime_ordinary (t u : Timestamp) :
  - 2 ^ 62 ≤ seconds t ≤ 2 ^ 62 → 0 ≤ nanos t < 1000000000 →
  - 2 ^ 62 ≤ seconds u ≤ 2 ^ 62 → 0 ≤ nanos u < 1000000000 →
  After (AsTime t) (AsTime u)
  = bool_decide (seconds u < seconds t
                 ∨ seconds u = seconds t ∧ nanos u < nanos t).
Proof.
  intros Hst Hnt Hsu Hnu. unfold After, AsTime, Unix.
  rewrite (proj2 (Z.ltb_ge (nanos t) 0)) by lia.
  rewrite (proj2 (Z.leb_gt 1000000000 (nanos t))) by lia.
  rewrite (proj2 (Z.ltb_ge (nanos u) 0)) by lia.
  rewrite (proj2 (Z.leb_gt 1000000000 (nanos u))) by lia.
  cbn [orb ext nsec]. unfold unixToInternal.
  rewrite !wrap64_small by lia.
  destruct (Z.ltb_spec (seconds u + 62135596800) (seconds t + 62135596800));
    destruct (Z.eqb_spec (seconds t + 62135596800) (seconds u + 62135596800));
    destruct (Z.ltb_spec (nanos u) (nanos t));
    cbn [orb andb]; symmetry;
    (apply bool_decide_eq_true_2 || apply bool_decide_eq_false_2); lia.
Qed.

(** At the end of [int64] the seconds wrap: a time built from
    [MaxInt64] seconds lies before the epoch, as in Go. *)
Lemma After_AsTime_wraps :
  After (AsTime (mkTimestamp (2 ^ 63 - 1) 0)) (AsTime (mkTimestamp 0 0))
  = false
  ∧ After (AsTime (mkTimestamp 0 0)) (AsTime (mkTimestamp (2 ^ 63 - 1) 0))
    = true.
Proof. split; vm_compute; reflexivity. Qed.

(** One [INVALID_TAG_FORMAT] violation for each tag that is not valid. *)
Definition invalidTags (tags : list string) : list FieldViolation :=
  concat (imap (fun i tag =>
                  if isValidTag tag then [] else [invalidTagFormat i tag])
               tags).

(** One [DUPLICATE_TAG] violation for each tag that occurs at a smaller
    index as well. *)
Definition repeatedTags (tags : list string) : list FieldViolation :=
  concat (imap (fun i tag =>
                  if bool_decide (tag ∈ take i tags)
                  then [duplicateTag i tag] else [])
               tags).

Lemma repeatedTags_snoc (tags : list string) (tag : string) :
  repeatedTags (tags ++ [tag])
  = repeatedTags tags
    ++ (if bool_decide (tag ∈ tags)
        then [duplicateTag (length tags) tag] else []).
Proof.
  unfold repeatedTags. rewrite imap_app, concat_app. f_equal.
  - f_equal. apply imap_ext. intros i x Hi. simpl.
    rewrite take_app_le; [done |].
    apply lookup_lt_Some in Hi. lia.
  - simpl. rewrite Nat.add_0_r, take_app_length, app_nil_r. done.
Qed.

(** The loop with [tagMap] computes [repeatedTags]. *)
Lemma duplicateTag_loop (tags : list string) (violations : list FieldViolation) :
  let result :=
    foldl duplicateTagStep (∅, violations) (imap pair tags) in
  (∀ tag, default false (fst result !! tag) = bool_decide (tag ∈ tags))
  ∧ snd result = violations ++ repeatedTags tags.
Proof.
  induction tags as [| tag tags IH] using rev_ind; simpl.
  { split; [| by rewrite app_nil_r].
    intros tag. by rewrite lookup_empty. }
  rewrite imap_pair_snoc, foldl_app. simpl.
  destruct (foldl duplicateTagStep (∅, violations) (imap pair tags))
    as [tagMap vs]. simpl in IH. destruct IH as [Hmap Hvs]. simpl. split.
  - intros t. destruct (decide (tag = t)) as [<- | Hne].
    + rewrite lookup_insert_eq. simpl.
      rewrite bool_decide_true; [done |]. apply elem_of_app. right.
      by apply list_elem_of_singleton.
    + rewrite lookup_insert_ne by done. rewrite Hmap.
      apply bool_decide_ext. rewrite elem_of_app, list_elem_of_singleton.
      split; [by left | by intros [? | ?]].
  - rewrite repeatedTags_snoc, Hmap, Hvs.
    case_bool_decide; by rewrite <- ?app_assoc, ?app_nil_r.
Qed.

(** All the violations [ValidateTask] finds, in the order it appends
    them. *)
Definition taskViolations (task : todopb.Task) (traceID : string)
  : list FieldViolation :=
  validatorViolations task traceID
  ++ (if completedLate task then [overdueCompletion] else [])
  ++ invalidTags (todopb.Tags task)
  ++ repeatedTags (todopb.Tags task).

Lemma ValidateTask_taskViolations (task : todopb.Task) (traceID : string) :
  ValidateTask pv task traceID
  = if bool_decide (0 < length (taskViolations task traceID))%nat
    then Some (NewValidationFailed (taskViolations task traceID) traceID)
    else None.
Proof.
  unfold ValidateTask.
  match goal with
  | |- context [foldl duplicateTagStep (∅, ?vs) _] =>
      destruct (duplicateTag_loop (todopb.Tags task) vs) as [_ ->];
      assert (vs ++ repeatedTags (todopb.Tags task)
              = taskViolations task traceID) as ->
  end; [| done].
  unfold taskViolations, validatorViolations, completedLate, invalidTags.
  destruct (todopb.Status_ task), (todopb.DueDate task),
    (todopb.UpdateTime task); rewrite <- ?app_assoc, ?app_nil_r; try done.
  destruct (After _ _); by rewrite <- ?app_assoc.
Qed.


Lemma invalidTags_nil (tags : list string) :
  invalidTags tags = [] ↔ Forall (fun tag => isValidTag tag = true) tags.
Proof.
  unfold invalidTags.
  induction tags as [| tag tags IH] using rev_ind; [done |].
  rewrite imap_app, concat_app, Forall_app, Forall_singleton. simpl.
  rewrite app_nil_r. split.
  - intros [Hl Hr]%app_eq_nil. split; [by apply IH |].
    by destruct (isValidTag tag).
  - intros [Hl ->]. by rewrite (proj2 IH Hl).
Qed.

Lemma repeatedTags_nil (tags : list string) :
  repeatedTags tags = [] ↔ NoDup tags.
Proof.
  induction tags as [| tag tags IH] using rev_ind; [by split; [constructor|] |].
  rewrite repeatedTags_snoc, NoDup_app. split.
  - intros [Hl Hr]%app_eq_nil. case_bool_decide; [done |].
    split; [by apply IH |]. split; [| apply NoDup_singleton].
    intros x Hx ->%list_elem_of_singleton. done.
  - intros (Hl & Hdisj & _). rewrite (proj2 IH Hl).
    rewrite bool_decide_false; [done |].
    intros Hin. apply (Hdisj _ Hin). by apply list_elem_of_singleton.
Qed.

(** When [ValidateTask] accepts a task: exactly when the validator
    reports no violation (it accepts the task, or it fails itself: that
    error is dropped), the task is not completed after its due date,
    every tag is valid and no tag is repeated. *)
Theorem ValidateTask_accepts (task : todopb.Task) (traceID : string) :
  ValidateTask pv task traceID = None
  ↔ (∀ violations,
       pv task = protovalidate.ValidationError violations → violations = [])
    ∧ completedLate task = false
    ∧ Forall (fun tag => isValidTag tag = true) (todopb.Tags task)
    ∧ NoDup (todopb.Tags task).
Proof.
  rewrite ValidateTask_taskViolations.
  assert (validatorViolations task traceID = []
          ↔ ∀ violations,
              pv task = protovalidate.ValidationError violations →
              violations = []) as Hpv.
  { unfold validatorViolations, ValidateRequest.
    destruct (pv task) as [| vs | err]; simpl.
    - split; [by intros _ ? [=] | done].
    - split.
      + intros Hnil%fmap_nil_inv vs' [= <-]. done.
      + intros Hvs. by rewrite (Hvs vs).
    - split; [by intros _ ? [=] | done]. }
  rewrite <- Hpv, <- invalidTags_nil, <- repeatedTags_nil.
  unfold taskViolations. split.
  - case_bool_decide as Hlen; [done |]. intros _.
    destruct (validatorViolations task traceID); [| simpl in Hlen; lia].
    destruct (completedLate task); [simpl in Hlen; lia |].
    destruct (invalidTags (todopb.Tags task)); [| simpl in Hlen; lia].
    destruct (repeatedTags (todopb.Tags task)); [done | simpl in Hlen; lia].
  - intros (-> & -> & -> & ->). done.
Qed.

End TaskValidation.

(** ** internal/validation: which batches pass *)

Section BatchAcceptance.

Import errorspb apperrors validation.

Variable pv : todopb.Task → protovalidate.Result.

Lemma concat_imap_nil {A B} (f : nat → A → list B) (l : list A) :
  concat (imap f l) = [] ↔ ∀ i x, l !! i = Some x → f i x = [].
Proof.
  induction l as [| y l IH] using rev_ind.
  { split; [by intros _ i x Hi | done]. }
  rewrite imap_app, concat_app. simpl. rewrite app_nil_r, Nat.add_0_r. split.
  - intros [Hl Hy]%app_eq_nil i x Hi.
    destruct (decide (i < length l)%nat) as [Hlt | Hge].
    + rewrite lookup_app_l in Hi by done. by apply IH.
    + rewrite lookup_app_r in Hi by lia.
      destruct (i - length l)%nat as [| k] eqn:Hk; [| by destruct k].
      injection Hi as <-. by replace i with (length l) by lia.
  - intros Hall. rewrite (proj2 IH), (Hall (length l) y); [done | |].
    + by rewrite lookup_app_r, Nat.sub_diag.
    + intros i x Hi. apply Hall. rewrite lookup_app_l; [done |].
      by eapply lookup_lt_Some.
Qed.

Lemma ValidateTask_Some_violations (task : todopb.Task) traceID appErr :
  ValidateTask pv task traceID = Some appErr →
  appErr = NewValidationFailed (FieldViolations appErr) traceID
  ∧ FieldViolations appErr ≠ [].
Proof.
  rewrite ValidateTask_taskViolations. case_bool_decide as Hlen; [| done].
  intros [= <-]. simpl. split; [done |]. intros Hnil.
  rewrite Hnil in Hlen. simpl in Hlen. lia.
Qed.

Lemma validateItem_nil (traceID : string) (i : nat)
    (createReq : todopb.CreateTaskRequest) :
  validateItem pv traceID i createReq = []
  ↔ ∃ task, todopb.Task_ createReq = Some task
            ∧ ValidateTask pv task traceID = None.
Proof.
  unfold validateItem. destruct (todopb.Task_ createReq) as [task |].
  - destruct (ValidateTask pv task traceID) as [appErr |] eqn:Hv.
    + destruct (ValidateTask_Some_violations _ _ _ Hv) as [_ Hne].
      split; [| intros (? & [= <-] & ?); congruence].
      intros Hnil%fmap_nil_inv. done.
    + split; [by eauto | done].
  - split; [done | by intros (? & ? & ?)].
Qed.

Lemma duplicateTitleViolations_nil (rng : MapRange string (list nat))
    (requests : list todopb.CreateTaskRequest) :
  duplicateTitleViolations rng (buildTitleMap requests) = []
  ↔ ∀ title, title ≠ "" → (length (occurrences title requests) ≤ 1)%nat.
Proof.
  split.
  - intros Hnil title Hne.
    destruct (decide (length (occurrences title requests) ≤ 1)%nat)
      as [| Hmany]; [done | exfalso].
    pose proof (buildTitleMap_lookup requests title Hne) as Hm.
    destruct (occurrences title requests) as [| i0 indices] eqn:Ho;
      [simpl in Hmany; lia |].
    destruct (range_order_split rng _ _ _ Hm) as (l1 & l2 & Hsplit & _).
    unfold duplicateTitleViolations in Hnil.
    rewrite Hsplit, flat_map_app in Hnil.
    apply app_eq_nil in Hnil as [_ Hnil]. simpl in Hnil.
    rewrite bool_decide_true in Hnil by (simpl in *; lia). done.
  - intros Honce. unfold duplicateTitleViolations.
    assert (Forall (fun entry => (length (snd entry) ≤ 1)%nat)
                   (range_order rng (buildTitleMap requests))) as Hall.
    { rewrite (range_perm rng). apply Forall_forall.
      intros [title indices] Hin%elem_of_map_to_list. simpl.
      destruct (decide (title = "")) as [-> | Hne].
      { by rewrite buildTitleMap_empty_title in Hin. }
      rewrite buildTitleMap_lookup in Hin by done.
      specialize (Honce title Hne).
      destruct (occurrences title requests); [done |].
      by injection Hin as <-. }
    induction Hall as [| [title indices] l Hle _ IH]; [done |].
    simpl in *. rewrite IH, bool_decide_false by lia. done.
Qed.

(** Which batches [ValidateBatchCreateTasks] lets through, whatever the
    order of the map iteration: those with 1 to 100 items, each with a
    task that [ValidateTask] accepts, in which no non-empty title is used
    twice. *)
Theorem ValidateBatchCreateTasks_accepts (rng : MapRange string (list nat))
    (req : todopb.BatchCreateTasksRequest) (traceID : string) :
  ValidateBatchCreateTasks pv rng req traceID = None
  ↔ (1 ≤ length (todopb.Requests req) ≤ 100)%nat
    ∧ (∀ i createReq,
         todopb.Requests req !! i = Some createReq →
         ∃ task, todopb.Task_ createReq = Some task
                 ∧ ValidateTask pv task traceID = None)
    ∧ (∀ title, title ≠ "" →
         (length (occurrences title (todopb.Requests req)) ≤ 1)%nat).
Proof.
  rewrite ValidateBatchCreateTasks_violations. cbv zeta.
  rewrite <- duplicateTitleViolations_nil with (rng := rng).
  assert ((∀ i createReq,
             todopb.Requests req !! i = Some createReq →
             ∃ task, todopb.Task_ createReq = Some task
                     ∧ ValidateTask pv task traceID = None)
          ↔ concat (imap (validateItem pv traceID) (todopb.Requests req)) = [])
    as ->.
  { rewrite concat_imap_nil. split; intros Hall i createReq Hi.
    - apply validateItem_nil. by eapply Hall.
    - apply (validateItem_nil traceID i). by apply Hall. }
  unfold violationsBeforeTitles. split.
  - case_bool_decide as Hlen; [done |]. intros _.
    rewrite !length_app in Hlen.
    repeat case_bool_decide; simpl in Hlen; try lia.
    split; [lia |].
    split; apply length_zero_iff_nil; lia.
  - intros (Hsize & -> & ->).
    rewrite (bool_decide_false (length _ = 0%nat)) by lia.
    rewrite (bool_decide_false (100 < _)%nat) by lia. done.
Qed.

(** The shape of a validation error. An error that [ValidateTask] or
    [ValidateBatchCreateTasks] returns is a [ValidationFailed] error with
    the trace id it was given and at least one violation, whose detail
    states the number of violations; [ToGRPCStatus] turns it into an
    [InvalidArgument] status with the [BadRequest] block and the
    [ErrorDetail]. *)
Theorem validation_error_shape (rng : MapRange string (list nat))
    (req : todopb.BatchCreateTasksRequest) (task : todopb.Task)
    (traceID : string) (now : Timestamp) (appErr : AppError) :
  ValidateTask pv task traceID = Some appErr
  ∨ ValidateBatchCreateTasks pv rng req traceID = Some appErr →
  FieldViolations appErr ≠ []
  ∧ appErr
    = {| GRPCCode := codes.InvalidArgument;
         AppCode := VALIDATION_FAILED;
         Title := "Validation Failed";
         Detail := "The request contains "
                   +:+ pretty (length (FieldViolations appErr))
                   +:+ " validation errors";
         FieldViolations := FieldViolations appErr;
         TraceID := traceID;
         Instance := "";
         Extensions := ∅;
         CausedBy := None |}
  ∧ ToGRPCStatus now appErr
    = Some (status.mkStatus codes.InvalidArgument "Validation Failed"
              [status.DBadRequest (toBadRequest (FieldViolations appErr));
               status.DErrorDetail (errorDetailOf now appErr)]).
Proof.
  intros Hret.
  assert (appErr = NewValidationFailed (FieldViolations appErr) traceID
          ∧ FieldViolations appErr ≠ []) as [Heq Hne].
  { destruct Hret as [Htask | Hbatch].
    - by eapply ValidateTask_Some_violations.
    - revert Hbatch. rewrite ValidateBatchCreateTasks_violations. cbv zeta.
      case_bool_decide as Hlen; [| done]. intros [= <-]. simpl.
      split; [done |]. intros Hnil. rewrite Hnil in Hlen. simpl in Hlen. lia. }
  split; [done |]. split; [exact Heq |].
  rewrite ToGRPCStatus_validation; [| by rewrite Heq | done].
  by rewrite Heq.
Qed.

End BatchAcceptance.

Lemma validation_error_shape_witness :
  ∃ appErr,
    validation.ValidateBatchCreateTasks acceptAll rangeForward
      (todopb.mkBatchCreateTasksRequest []) "t1" = Some appErr
    ∧ apperrors.Detail appErr = "The request contains 1 validation errors".
Proof.
  exists (apperrors.NewValidationFailed [validation.emptyBatch] "t1").
  split; [reflexivity |].
  destruct (validation_error_shape acceptAll rangeForward
              (todopb.mkBatchCreateTasksRequest [])
              (namedTask "" "") "t1" (mkTimestamp 0 0)
              (apperrors.NewValidationFailed [validation.emptyBatch] "t1"))
    as (_ & Heq & _).
  - right. reflexivity.
  - rewrite Heq. reflexivity.
Defined.

(** ** internal/service: field masks *)

Section FieldMask.

Import taskservice.

Lemma inMask_snoc (key : string) (paths : list string) (path : string) :
  bool_decide (key ∈ paths ++ [path])
  = bool_decide (key ∈ paths) || String.eqb path key.
Proof.
  destruct (String.eqb_spec path key) as [-> | Hne].
  - rewrite orb_true_r. apply bool_decide_eq_true.
    apply elem_of_app. right. by apply list_elem_of_singleton.
  - rewrite orb_false_r. apply bool_decide_ext.
    rewrite elem_of_app, list_elem_of_singleton.
    split; [intros [? | ?]; [done | congruence] | by left].
Qed.

(** [applyFieldMask] in closed form. The result takes from [update] the
    fields whose path is in the mask ([title], [description], [status],
    [priority], [due_date], [tags]) and keeps the others from [existing];
    the name, the two times and the creator always stay; paths it does
    not know, repeated paths and their order make no difference. *)
Theorem applyFieldMask_fields (existing update : todopb.Task)
    (paths : list string) :
  let pick {A} (path : string) (field : todopb.Task → A) : A :=
    if bool_decide (path ∈ paths) then field update else field existing in
  applyFieldMask existing update paths
  = {| todopb.Name := todopb.Name existing;
       todopb.Title := pick "title" todopb.Title;
       todopb.Description := pick "description" todopb.Description;
       todopb.Status_ := pick "status" todopb.Status_;
       todopb.Priority_ := pick "priority" todopb.Priority_;
       todopb.DueDate := pick "due_date" todopb.DueDate;
       todopb.Tags := pick "tags" todopb.Tags;
       todopb.CreateTime := todopb.CreateTime existing;
       todopb.UpdateTime := todopb.UpdateTime existing;
       todopb.CreatedBy := todopb.CreatedBy existing |}.
Proof.
  cbv zeta. unfold applyFieldMask.
  induction paths as [| path paths IH] using rev_ind.
  { by destruct existing. }
  rewrite foldl_app. simpl. rewrite IH. clear IH.
  rewrite !inMask_snoc. unfold applyPath. cbn [todopb.Name todopb.Title
    todopb.Description todopb.Status_ todopb.Priority_ todopb.DueDate
    todopb.Tags todopb.CreateTime todopb.UpdateTime todopb.CreatedBy].
  destruct (String.eqb_spec path "title") as [-> | _];
    [simpl; by rewrite ?orb_true_r, ?orb_false_r |].
  destruct (String.eqb_spec path "description") as [-> | _];
    [simpl; by rewrite ?orb_true_r, ?orb_false_r |].
  destruct (String.eqb_spec path "status") as [-> | _];
    [simpl; by rewrite ?orb_true_r, ?orb_false_r |].
  destruct (String.eqb_spec path "priority") as [-> | _];
    [simpl; by rewrite ?orb_true_r, ?orb_false_r |].
  destruct (String.eqb_spec path "due_date") as [-> | _];
    [simpl; by rewrite ?orb_true_r, ?orb_false_r |].
  destruct (String.eqb_spec path "tags") as [-> | _];
    [simpl; by rewrite ?orb_true_r, ?orb_false_r |].
  by rewrite !orb_false_r.
Qed.

End FieldMask.

(** ** internal/service: the handlers on the in-memory store *)

Section HandlersInMemory.

Import errorspb apperrors repository taskservice.

Variable pvTask : todopb.Task → protovalidate.Result.
Variable pvGet : GetTaskRequest → protovalidate.Result.
Variable pvDelete : DeleteTaskRequest → protovalidate.Result.
Variable now : Timestamp.
Variable user : string.

Lemma lookupTask_stored (taskID traceID : string)
    (r : InMemoryRepository) (task : todopb.Task) :
  tasks r !! taskID = Some task →
  lookupTask taskID traceID r = Returned task.
Proof.
  intros Hid. unfold lookupTask. simpl. unfold InMemory_GetTask.
  by rewrite Hid.
Qed.

Lemma lookupTask_missing (taskID traceID : string) (r : InMemoryRepository) :
  tasks r !! taskID = None →
  lookupTask taskID traceID r
  = Failed (appError (NewNotFound "Task" taskID traceID)).
Proof.
  intros Hid. unfold lookupTask. simpl. unfold InMemory_GetTask.
  by rewrite Hid.
Qed.

Lemma Split_task_name (id : string) :
  hasByte "/"%char id = false →
  gostrings.Split ("tasks/" +:+ id) "/"%char = ["tasks"; id].
Proof.
  intros Hid.
  change ("tasks/" +:+ id) with ("tasks" +:+ String.String "/"%char id).
  by rewrite Split_cons, Split_no_sep.
Qed.

(** When [GetTask] returns a task, for a request the validator accepts:
    exactly when the name is ["tasks/" + id] for an id without slash,
    the store has a task under that id, and the user is its creator or
    ["admin"]; it is that task. A well-formed name that is not stored
    gives [NotFound] with the id. *)
Theorem GetTask_returns (traceID : string) (req : GetTaskRequest)
    (r : InMemoryRepository) :
  pvGet req = protovalidate.Valid →
  (∀ task,
     GetTask pvGet user traceID req r = Returned task
     ↔ ∃ id, get_Name req = "tasks/" +:+ id
             ∧ hasByte "/"%char id = false
             ∧ tasks r !! id = Some task
             ∧ (user = todopb.CreatedBy task ∨ user = "admin"))
  ∧ (∀ id, get_Name req = "tasks/" +:+ id →
           hasByte "/"%char id = false →
           tasks r !! id = None →
           GetTask pvGet user traceID req r
           = Failed (appError (NewNotFound "Task" id traceID))).
Proof.
  intros Hvalid. unfold GetTask, validation.ValidateRequest.
  rewrite Hvalid. split.
  - intros task. split.
    + destruct (gostrings.Split (get_Name req) "/"%char)
        as [| kind [| taskID [| ? ?]]] eqn:Hsplit; try done.
      apply Split_two in Hsplit as (Hname & _ & Hid).
      destruct (String.eqb_spec kind "tasks") as [-> | _]; [| done]. simpl.
      destruct (tasks r !! taskID) as [stored |] eqn:Hstored.
      * rewrite (lookupTask_stored _ _ _ _ Hstored).
        unfold canAccessTask.
        destruct (String.eqb_spec user (todopb.CreatedBy stored)) as [Hu | _];
          simpl.
        { intros [= <-]. exists taskID. by eauto. }
        destruct (String.eqb_spec user "admin") as [Hu | _]; simpl; [| done].
        intros [= <-]. exists taskID. by eauto.
      * by rewrite (lookupTask_missing _ _ _ Hstored).
    + intros (id & Hname & Hid & Hstored & Huser).
      rewrite Hname, (Split_task_name _ Hid). simpl.
      rewrite (lookupTask_stored _ _ _ _ Hstored). unfold canAccessTask.
      destruct Huser as [-> | ->].
      * by rewrite String.eqb_refl.
      * by rewrite String.eqb_refl, orb_true_r.
  - intros id Hname Hid Hstored.
    rewrite Hname, (Split_task_name _ Hid). simpl.
    by rewrite (lookupTask_missing _ _ _ Hstored).
Qed.

(** [DeleteTask], for a request the validator accepts: it succeeds only
    on the name of a stored task of which the user is the creator or
    ["admin"]; afterwards [GetTask] of that name fails with [NotFound]
    for every user. When it fails it leaves the store as it was. *)
Theorem DeleteTask_then_GetTask (traceID : string) (req : DeleteTaskRequest)
    (r r' : InMemoryRepository) (out : Outcome DeleteTaskResponse) :
  pvDelete req = protovalidate.Valid →
  DeleteTask pvDelete user traceID req r = (out, r') →
  match out with
  | Returned resp =>
      ∃ id task,
        delete_Name req = "tasks/" +:+ id
        ∧ tasks r !! id = Some task
        ∧ (user = todopb.CreatedBy task ∨ user = "admin")
        ∧ resp = mkDeleteTaskResponse
                   ("Task " +:+ delete_Name req +:+ " deleted successfully")
        ∧ ∀ reader traceID',
            GetTask (fun _ => protovalidate.Valid) reader traceID'
              (mkGetTaskRequest (delete_Name req)) r'
            = Failed (appError (NewNotFound "Task" id traceID'))
  | _ => r' = r
  end.
Proof.
  intros Hvalid. unfold DeleteTask, validation.ValidateRequest.
  rewrite Hvalid.
  destruct (gostrings.Split (delete_Name req) "/"%char)
    as [| kind [| taskID [| ? ?]]] eqn:Hsplit; try by intros [= <- <-].
  apply Split_two in Hsplit as (Hname & _ & Hid).
  destruct (String.eqb_spec kind "tasks") as [-> | _];
    [| by intros [= <- <-]]. simpl.
  destruct (tasks r !! taskID) as [stored |] eqn:Hstored.
  - rewrite (lookupTask_stored _ _ _ _ Hstored).
    destruct (canModifyTask user stored) eqn:Hcan; simpl;
      [| by intros [= <- <-]].
    unfold store.DeleteTask. rewrite Hstored. intros [= <- <-].
    exists taskID, stored. split; [done |]. split; [done |]. split.
    { unfold canModifyTask in Hcan. apply orb_true_iff in Hcan.
      destruct Hcan as [Hu | Hu]; apply String.eqb_eq in Hu; auto. }
    split; [done |]. intros reader traceID'.
    unfold GetTask, validation.ValidateRequest. simpl.
    rewrite Hname.
    change ("tasks" +:+ String.String "/"%char taskID)
      with ("tasks/" +:+ taskID).
    rewrite (Split_task_name _ Hid). simpl.
    rewrite lookupTask_missing; [done |]. simpl. apply lookup_delete_eq.
  - rewrite (lookupTask_missing _ _ _ Hstored). by intros [= <- <-].
Qed.

End HandlersInMemory.

Section HandlersInMemoryExamples.

Import errorspb apperrors repository taskservice.

Lemma GetTask_returns_witness :
  let r :=
    snd (InMemory_CreateTask (namedTask "tasks/1" "Write report")
           NewInMemoryRepository) in
  GetTask (fun _ => protovalidate.Valid) "anonymous" "t1"
    (mkGetTaskRequest "tasks/1") r
  = Returned (namedTask "tasks/1" "Write report")
  ∧ GetTask (fun _ => protovalidate.Valid) "admin" "t2"
      (mkGetTaskRequest "tasks/1") r
    = Returned (namedTask "tasks/1" "Write report")
  ∧ GetTask (fun _ => protovalidate.Valid) "anonymous" "t3"
      (mkGetTaskRequest "tasks/zz") r
    = Failed (appError (NewNotFound "Task" "zz" "t3")).
Proof.
  intros r. split; [| split].
  - apply (GetTask_returns (fun _ => protovalidate.Valid) "anonymous" "t1"
             (mkGetTaskRequest "tasks/1") r eq_refl).
    exists "1". split; [reflexivity |]. split; [reflexivity |].
    split; [vm_compute; reflexivity |]. left. reflexivity.
  - apply (GetTask_returns (fun _ => protovalidate.Valid) "admin" "t2"
             (mkGetTaskRequest "tasks/1") r eq_refl).
    exists "1". split; [reflexivity |]. split; [reflexivity |].
    split; [vm_compute; reflexivity |]. right. reflexivity.
  - apply (GetTask_returns (fun _ => protovalidate.Valid) "anonymous" "t3"
             (mkGetTaskRequest "tasks/zz") r eq_refl);
      [reflexivity | reflexivity | vm_compute; reflexivity].
Defined.

Lemma DeleteTask_then_GetTask_witness :
  let r := snd (InMemory_CreateTask (namedTask "tasks/1" "Write report")
                  NewInMemoryRepository) in
  ∃ id task,
    tasks r !! id = Some task
    ∧ GetTask (fun _ => protovalidate.Valid) "bob" "t2"
        (mkGetTaskRequest "tasks/1")
        (snd (DeleteTask (fun _ => protovalidate.Valid) "anonymous" "t1"
                (mkDeleteTaskRequest "tasks/1") r))
      = Failed (appError (NewNotFound "Task" id "t2")).
Proof.
  intros r.
  pose proof (DeleteTask_then_GetTask (fun _ => protovalidate.Valid)
                "anonymous" "t1" (mkDeleteTaskRequest "tasks/1") r
                (snd (DeleteTask (fun _ => protovalidate.Valid) "anonymous"
                        "t1" (mkDeleteTaskRequest "tasks/1") r))
                (Returned (mkDeleteTaskResponse
                             "Task tasks/1 deleted successfully"))
                eq_refl eq_refl) as (id & task & _ & Hstored & _ & _ & Hget).
  exists id, task. split; [exact Hstored | apply Hget].
Defined.

End HandlersInMemoryExamples.

Section UpdateHandler.

Import errorspb apperrors repository taskservice.

Variable pvTask : todopb.Task → protovalidate.Result.
Variable now : Timestamp.
Variable user : string.

Lemma applyPath_keeps (update result : todopb.Task) (path : string) :
  todopb.Name (applyPath update result path) = todopb.Name result
  ∧ todopb.CreateTime (applyPath update result path)
    = todopb.CreateTime result
  ∧ todopb.CreatedBy (applyPath update result path)
    = todopb.CreatedBy result.
Proof.
  unfold applyPath. by repeat destruct (String.eqb path _).
Qed.

Lemma applyFieldMask_keeps (existing update : todopb.Task)
    (paths : list string) :
  todopb.Name (applyFieldMask existing update paths) = todopb.Name existing
  ∧ todopb.CreateTime (applyFieldMask existing update paths)
    = todopb.CreateTime existing
  ∧ todopb.CreatedBy (applyFieldMask existing update paths)
    = todopb.CreatedBy existing.
Proof.
  unfold applyFieldMask. revert existing.
  induction paths as [| path paths IH]; intros existing; [done |].
  simpl. destruct (IH (applyPath update existing path)) as (-> & -> & ->).
  apply applyPath_keeps.
Qed.

(** What a successful [UpdateTask] guarantees: the task it returns
    replaces a stored task that the user created (or the user is
    ["admin"]); it has the name, the creation time and the creator of the
    stored task, the current time as update time, and [ValidateTask]
    accepts it; the mask was not empty. *)
Theorem UpdateTask_returns (traceID : string) (req : UpdateTaskRequest)
    (r r' : InMemoryRepository) (updated : todopb.Task) :
  UpdateTask pvTask now user traceID req r = (Returned updated, r') →
  ∃ id existing reqTask paths,
    update_Task req = Some reqTask
    ∧ UpdateMask req = Some paths ∧ paths ≠ []
    ∧ todopb.Name reqTask = "tasks/" +:+ id
    ∧ tasks r !! id = Some existing
    ∧ (user = todopb.CreatedBy existing ∨ user = "admin")
    ∧ todopb.Name updated = todopb.Name existing
    ∧ todopb.CreateTime updated = todopb.CreateTime existing
    ∧ todopb.CreatedBy updated = todopb.CreatedBy existing
    ∧ todopb.UpdateTime updated = Some now
    ∧ validation.ValidateTask pvTask updated traceID = None
    ∧ store.UpdateTask updated r = (None, r').
Proof.
  unfold UpdateTask.
  destruct (update_Task req) as [reqTask |]; [| done].
  destruct (UpdateMask req) as [[| path paths] |]; try done.
  destruct (gostrings.Split (todopb.Name reqTask) "/"%char)
    as [| kind [| taskID [| ? ?]]] eqn:Hsplit; try done.
  apply Split_two in Hsplit as (Hname & _ & Hid).
  destruct (String.eqb_spec kind "tasks") as [-> | _]; [| done]. simpl.
  destruct (tasks r !! taskID) as [existing |] eqn:Hstored.
  2: { unfold lookupTask. simpl. unfold InMemory_GetTask.
       by rewrite Hstored. }
  unfold lookupTask. simpl. unfold InMemory_GetTask. rewrite Hstored.
  destruct (canModifyTask user existing) eqn:Hcan; simpl; [| done].
  set (result := withUpdateTime _ now).
  destruct (validation.ValidateTask pvTask result traceID) eqn:Hv; [done |].
  destruct (store.UpdateTask result r) as [[err |] r''] eqn:Hupd; [done |].
  intros [= <- <-].
  destruct (applyFieldMask_keeps existing reqTask (path :: paths))
    as (Hn & Hc & Hu).
  exists taskID, existing, reqTask, (path :: paths).
  repeat split; try done.
  unfold canModifyTask in Hcan. apply orb_true_iff in Hcan.
  destruct Hcan as [Heq | Heq]; apply String.eqb_eq in Heq; auto.
Qed.

#[local] Arguments applyFieldMask : simpl never.
#[local] Arguments withUpdateTime : simpl never.

(** Renaming a task to a title that another task has. The store refuses
    with [ErrAlreadyExists]; the handler makes an [Internal] error of it
    (not a [Conflict]), and the old title of the task is gone from the
    index although the task is still stored. *)
Theorem UpdateTask_to_taken_title (traceID id other : string)
    (reqTask existing : todopb.Task) (paths : list string)
    (r : InMemoryRepository) :
  let updated := withUpdateTime (applyFieldMask existing reqTask paths) now in
  todopb.Name reqTask = "tasks/" +:+ id →
  hasByte "/"%char id = false →
  paths ≠ [] →
  tasks r !! id = Some existing →
  extractID (todopb.Name existing) = id →
  canModifyTask user existing = true →
  validation.ValidateTask pvTask updated traceID = None →
  todopb.Title updated ≠ todopb.Title existing →
  index r !! todopb.Title updated = Some other →
  other ≠ id →
  ∃ r',
    UpdateTask pvTask now user traceID
      (mkUpdateTaskRequest (Some reqTask) (Some paths)) r
    = (Failed (appError
                 (NewInternal
                    "An unexpected error occurred while processing your request"
                    traceID (Some (sentinelError ErrAlreadyExists)))), r')
    ∧ InMemory_GetTask id r' = (Some existing, None)
    ∧ InMemory_GetTaskByTitle (todopb.Title existing) r'
      = (None, Some (sentinelError ErrNotFound)).
Proof.
  intros updated Hname Hid Hpaths Hstored Hkey Hcan Hv Hchanged Hother Hne.
  unfold UpdateTask. simpl. destruct paths as [| path paths]; [done |].
  rewrite Hname, (Split_task_name _ Hid). simpl.
  unfold lookupTask. simpl. unfold InMemory_GetTask at 1. rewrite Hstored.
  rewrite Hcan. simpl. fold updated. rewrite Hv.
  assert (todopb.Name updated = todopb.Name existing) as Hn.
  { unfold updated, withUpdateTime. cbn [todopb.Name].
    by destruct (applyFieldMask_keeps existing reqTask (path :: paths))
      as (-> & _). }
  unfold store.UpdateTask. rewrite Hn, Hkey, Hstored.
  change (todopb.Title updated)
    with (todopb.Title (applyFieldMask existing reqTask (path :: paths)))
    in *.
  destruct (String.eqb_spec (todopb.Title existing)
              (todopb.Title (applyFieldMask existing reqTask (path :: paths))))
    as [? | _]; [done |]. simpl.
  rewrite lookup_delete_ne, Hother by done.
  destruct (String.eqb_spec other id) as [? | _]; [done |]. simpl.
  eexists. split; [reflexivity |].
  unfold InMemory_GetTaskByTitle, InMemory_GetTask. simpl.
  by rewrite Hstored, lookup_delete_eq.
Qed.

End UpdateHandler.

Section UpdateHandlerExamples.

Import errorspb apperrors repository taskservice.

Lemma UpdateTask_returns_witness :
  let r := snd (InMemory_CreateTask (namedTask "tasks/1" "Write report")
                  NewInMemoryRepository) in
  ∃ updated r',
    UpdateTask acceptAll (mkTimestamp 9 0) "anonymous" "t1"
      (mkUpdateTaskRequest (Some (namedTask "tasks/1" "Write the report"))
         (Some ["title"])) r
    = (Returned updated, r')
    ∧ todopb.UpdateTime updated = Some (mkTimestamp 9 0).
Proof.
  intros r. eexists _, _. split; [reflexivity |].
  destruct (UpdateTask_returns acceptAll (mkTimestamp 9 0) "anonymous" "t1"
              (mkUpdateTaskRequest
                 (Some (namedTask "tasks/1" "Write the report"))
                 (Some ["title"])) r _ _ eq_refl)
    as (_ & _ & _ & _ & _ & _ & _ & _ & _ & _ & _ & _ & _ & Htime & _).
  exact Htime.
Defined.

Lemma UpdateTask_to_taken_title_witness :
  let r := snd (InMemory_CreateTask (namedTask "tasks/2" "Call Bob")
                  (snd (InMemory_CreateTask
                          (namedTask "tasks/1" "Write report")
                          NewInMemoryRepository))) in
  ∃ r',
    UpdateTask acceptAll (mkTimestamp 9 0) "anonymous" "t1"
      (mkUpdateTaskRequest (Some (namedTask "tasks/2" "Write report"))
         (Some ["title"])) r
    = (Failed (appError
                 (NewInternal
                    "An unexpected error occurred while processing your request"
                    "t1" (Some (sentinelError ErrAlreadyExists)))), r')
    ∧ InMemory_GetTaskByTitle "Call Bob" r'
      = (None, Some (sentinelError ErrNotFound)).
Proof.
  intros r.
  destruct (UpdateTask_to_taken_title acceptAll (mkTimestamp 9 0)
              "anonymous" "t1" "2" "1"
              (namedTask "tasks/2" "Write report")
              (namedTask "tasks/2" "Call Bob") ["title"] r)
    as (r' & Hupd & _ & Hgone); try reflexivity; try discriminate.
  exists r'. split; [exact Hupd | exact Hgone].
Defined.

End UpdateHandlerExamples.

(** ** internal/service: creating tasks *)

Section CreateHandler.

Import errorspb apperrors service.

Context {R : Type} `{repository.TodoRepository R}.

Variable pv : todopb.Task → protovalidate.Result.
Variable rng : MapRange string (list nat).
Variable uuids : nat → string.
Variable clock : nat → Timestamp.
Variable user : string.

Lemma handleRepositoryError_cases (err : error) (traceID : string) :
  handleRepositoryError err traceID
  = NewServiceUnavailable
      "Unable to connect to the database. Please try again later." traceID
  ∨ handleRepositoryError err traceID
    = NewInternal
        "An unexpected error occurred while processing your request"
        traceID (Some err).
Proof.
  unfold handleRepositoryError.
  destruct (repository.IsConnectionError err); auto.
Qed.

(** The errors of [CreateTask]. Whatever the repository returns, an error
    of [CreateTask] is an [AppError] with the trace id of the call: a
    [ValidationFailed] error with violations or a [Conflict], both
    before anything is stored or any id is drawn; or what
    [handleRepositoryError] makes of the error the repository returned,
    from the lookup of the title (an error other than [ErrNotFound],
    nothing stored) or from saving the new task: [ServiceUnavailable]
    for a connection error, and otherwise the [Internal] error whose
    cause is that very error. *)
Theorem CreateTask_errors (traceID : string)
    (req : todopb.CreateTaskRequest) (w w' : World) (err : error) :
  CreateTask pv uuids clock user traceID req w = (inr err, w') →
  ∃ e, err = appError e ∧ TraceID e = traceID
       ∧ ((e = NewValidationFailed (FieldViolations e) traceID
           ∨ e = NewRequiredField "task" "Task object is required" traceID)
          ∧ FieldViolations e ≠ [] ∧ w' = w
          ∨ e = NewConflict "task" "A task with this title already exists"
                  traceID
            ∧ w' = w
          ∨ ∃ reqTask storeErr,
              todopb.Task_ req = Some reqTask
              ∧ (snd (repository.GetTaskByTitle (todopb.Title reqTask)
                        (repo w)) = Some storeErr
                 ∧ repository.IsNotFound storeErr = false
                 ∧ w' = w
                 ∨ ∃ task,
                     todopb.Name task = "tasks/" +:+ uuids (uuidCount w)
                     ∧ todopb.Title task = todopb.Title reqTask
                     ∧ repository.CreateTask task (repo w)
                       = (Some storeErr, repo w'))
              ∧ e = (if repository.IsConnectionError storeErr
                     then NewServiceUnavailable
                            "Unable to connect to the database. Please try again later."
                            traceID
                     else NewInternal
                            "An unexpected error occurred while processing your request"
                            traceID (Some storeErr))).
Proof.
  assert (∀ storeErr, TraceID (handleRepositoryError storeErr traceID)
                      = traceID) as Htrace.
  { intros storeErr. unfold handleRepositoryError.
    by destruct (repository.IsConnectionError storeErr). }
  unfold CreateTask.
  destruct (todopb.Task_ req) as [reqTask |].
  2: { intros [= <- <-]. eexists. split; [reflexivity |].
       split; [done |]. left. split; [by right |]. by split. }
  destruct (validation.ValidateTask pv reqTask traceID) as [appErr |] eqn:Hv.
  { intros [= <- <-].
    destruct (ValidateTask_Some_violations pv _ _ _ Hv) as [Heq Hne].
    exists appErr. split; [done |]. split; [by rewrite Heq |].
    left. split; [by left |]. by split. }
  destruct (repository.GetTaskByTitle _ _) as [existing lookupErr] eqn:Hlookup.
  assert (match existing with
          | Some _ =>
              (inr (appError
                      (NewConflict "task"
                         "A task with this title already exists" traceID)),
               w)
          | None => saveNewTask uuids clock user traceID reqTask w
          end = (inr err, w') →
          ∃ e, err = appError e ∧ TraceID e = traceID
               ∧ (e = NewConflict "task"
                        "A task with this title already exists" traceID
                  ∧ w' = w
                  ∨ ∃ storeErr task,
                      todopb.Name task = "tasks/" +:+ uuids (uuidCount w)
                      ∧ todopb.Title task = todopb.Title reqTask
                      ∧ repository.CreateTask task (repo w)
                        = (Some storeErr, repo w')
                      ∧ e = handleRepositoryError storeErr traceID))
    as Hafter.
  { destruct existing.
    - intros [= <- <-]. eexists. split; [reflexivity |]. split; [done |].
      by left.
    - unfold saveNewTask.
      destruct (repository.CreateTask _ _) as [[storeErr |] repo'] eqn:Hc;
        [| done].
      intros [= <- <-]. eexists. split; [reflexivity |].
      split; [apply Htrace |]. right.
      eexists storeErr, _. split; [| split; [| split; [exact Hc | done]]];
        reflexivity. }
  assert (∀ storeErr, handleRepositoryError storeErr traceID
                      = (if repository.IsConnectionError storeErr
                         then NewServiceUnavailable
                                "Unable to connect to the database. Please try again later."
                                traceID
                         else NewInternal
                                "An unexpected error occurred while processing your request"
                                traceID (Some storeErr))) as Hhandle by done.
  destruct lookupErr as [lookupErr |];
    [destruct (repository.IsNotFound lookupErr) eqn:Hnf |];
    simpl; intros Hrun.
  - destruct (Hafter Hrun)
      as (e & He & Ht & [Hc | (storeErr & task & Hn & Hti & Hc & ->)]).
    + exists e. split; [done |]. split; [done |]. right. by left.
    + eexists. split; [exact He |]. split; [done |]. right. right.
      exists reqTask, storeErr. split; [done |].
      split; [| apply Hhandle]. right. by exists task.
  - injection Hrun as <- <-. eexists. split; [reflexivity |].
    split; [apply Htrace |]. right. right.
    exists reqTask, lookupErr. split; [done |].
    split; [| apply Hhandle]. left. split; [by rewrite Hlookup |]. by split.
  - destruct (Hafter Hrun)
      as (e & He & Ht & [Hc | (storeErr & task & Hn & Hti & Hc & ->)]).
    + exists e. split; [done |]. split; [done |]. right. by left.
    + eexists. split; [exact He |]. split; [done |]. right. right.
      exists reqTask, storeErr. split; [done |].
      split; [| apply Hhandle]. right. by exists task.
Qed.

(** What a successful [CreateTask] returns: the task of the request
    (its title, description, due date and tags), which [ValidateTask]
    accepts, named ["tasks/" + uuid] with the next fresh id, with
    [PENDING] in place of an unspecified status and [MEDIUM] in place of
    an unspecified priority (a specified status or priority is kept),
    created by the user of the call, and accepted by the repository. *)
Theorem CreateTask_returns (traceID : string)
    (req : todopb.CreateTaskRequest) (w w' : World) (task : todopb.Task) :
  CreateTask pv uuids clock user traceID req w = (inl task, w') →
  ∃ reqTask,
    todopb.Task_ req = Some reqTask
    ∧ validation.ValidateTask pv reqTask traceID = None
    ∧ todopb.Name task = "tasks/" +:+ uuids (uuidCount w)
    ∧ todopb.Title task = todopb.Title reqTask
    ∧ todopb.Status_ task
      = (if decide (todopb.Status_ reqTask = todopb.STATUS_UNSPECIFIED)
         then todopb.STATUS_PENDING else todopb.Status_ reqTask)
    ∧ todopb.Status_ task ≠ todopb.STATUS_UNSPECIFIED
    ∧ todopb.Priority_ task
      = (if decide (todopb.Priority_ reqTask = todopb.PRIORITY_UNSPECIFIED)
         then todopb.PRIORITY_MEDIUM else todopb.Priority_ reqTask)
    ∧ todopb.Priority_ task ≠ todopb.PRIORITY_UNSPECIFIED
    ∧ todopb.Description task = todopb.Description reqTask
    ∧ todopb.DueDate task = todopb.DueDate reqTask
    ∧ todopb.Tags task = todopb.Tags reqTask
    ∧ todopb.CreatedBy task = user
    ∧ uuidCount w' = S (uuidCount w)
    ∧ repository.CreateTask task (repo w) = (None, repo w').
Proof.
  unfold CreateTask.
  destruct (todopb.Task_ req) as [reqTask |]; [| done].
  destruct (validation.ValidateTask pv reqTask traceID) eqn:Hv; [done |].
  destruct (repository.GetTaskByTitle _ _) as [existing lookupErr].
  assert (saveNewTask uuids clock user traceID reqTask w = (inl task, w') →
          todopb.Name task = "tasks/" +:+ uuids (uuidCount w)
          ∧ todopb.Title task = todopb.Title reqTask
          ∧ todopb.Status_ task
            = (if decide (todopb.Status_ reqTask = todopb.STATUS_UNSPECIFIED)
               then todopb.STATUS_PENDING else todopb.Status_ reqTask)
          ∧ todopb.Status_ task ≠ todopb.STATUS_UNSPECIFIED
          ∧ todopb.Priority_ task
            = (if decide (todopb.Priority_ reqTask
                          = todopb.PRIORITY_UNSPECIFIED)
               then todopb.PRIORITY_MEDIUM else todopb.Priority_ reqTask)
          ∧ todopb.Priority_ task ≠ todopb.PRIORITY_UNSPECIFIED
          ∧ todopb.Description task = todopb.Description reqTask
          ∧ todopb.DueDate task = todopb.DueDate reqTask
          ∧ todopb.Tags task = todopb.Tags reqTask
          ∧ todopb.CreatedBy task = user
          ∧ uuidCount w' = S (uuidCount w)
          ∧ repository.CreateTask task (repo w) = (None, repo w'))
    as Hsave.
  { unfold saveNewTask.
    destruct (repository.CreateTask _ _) as [[cause |] repo'] eqn:Hc;
      [done |].
    intros [= <- <-].
    cbn [todopb.Name todopb.Title todopb.Status_ todopb.Priority_
         todopb.Description todopb.DueDate todopb.Tags
         todopb.CreatedBy uuidCount repo].
    split; [done |]. split; [done |]. split; [done |].
    split;
      [by destruct (decide (todopb.Status_ reqTask
                            = todopb.STATUS_UNSPECIFIED)) |].
    split; [done |].
    split;
      [by destruct (decide (todopb.Priority_ reqTask
                            = todopb.PRIORITY_UNSPECIFIED)) |].
    done. }
  intros Hret. exists reqTask. split; [done |]. split; [done |].
  apply Hsave. revert Hret.
  destruct lookupErr as [cause |].
  - destruct (negb (repository.IsNotFound cause)); [done |].
    by destruct existing.
  - by destruct existing.
Qed.

End CreateHandler.

Section CreateHandlerExamples.

Import errorspb apperrors service.

(** Two readings of [uuid.New()] that collide: the store refuses the
    second task, and the handler reports an [Internal] error whose
    cause is the store's [ErrAlreadyExists]. *)
Lemma CreateTask_errors_witness :
  let uuids := fun _ : nat => "6f1c" in
  let clock := fun n => mkTimestamp (Z.of_nat n) 0 in
  let w1 := snd (CreateTask acceptAll uuids clock "anonymous" "t0"
                   (titled "Write report") emptyWorld) in
  ∃ e w',
    CreateTask acceptAll uuids clock "anonymous" "t1" (titled "Buy milk") w1
    = (inr (appError e), w')
    ∧ TraceID e = "t1"
    ∧ e = NewInternal
            "An unexpected error occurred while processing your request"
            "t1" (Some (sentinelError ErrAlreadyExists)).
Proof.
  intros uuids clock w1.
  destruct (CreateTask acceptAll uuids clock "anonymous" "t1"
              (titled "Buy milk") w1) as [[task | err] w'] eqn:Hres.
  { vm_compute in Hres. discriminate Hres. }
  destruct (CreateTask_errors acceptAll uuids clock "anonymous" "t1"
              (titled "Buy milk") w1 w' err Hres) as (e & -> & Ht & _).
  exists e, w'. split; [reflexivity |]. split; [exact Ht |].
  vm_compute in Hres. injection Hres as He _. symmetry. exact He.
Defined.

Lemma CreateTask_returns_witness :
  ∃ task w',
    CreateTask acceptAll (fun n => "id-" +:+ pretty n)
      (fun n => mkTimestamp (Z.of_nat n) 0) "anonymous" "t1"
      (titled "Valid Task 1") emptyWorld
    = (inl task, w')
    ∧ todopb.Status_ task = todopb.STATUS_PENDING
    ∧ todopb.Priority_ task = todopb.PRIORITY_MEDIUM
    ∧ todopb.Name task = "tasks/id-0".
Proof.
  destruct (CreateTask acceptAll (fun n => "id-" +:+ pretty n)
              (fun n => mkTimestamp (Z.of_nat n) 0) "anonymous" "t1"
              (titled "Valid Task 1") emptyWorld)
    as [[task | err] w'] eqn:Hres.
  - exists task, w'. split; [reflexivity |].
    destruct (CreateTask_returns acceptAll (fun n => "id-" +:+ pretty n)
                (fun n => mkTimestamp (Z.of_nat n) 0) "anonymous" "t1"
                (titled "Valid Task 1") emptyWorld w' task Hres)
      as (reqTask & Hreq & _ & Hname & _ & Hstatus & _ & Hpriority & _).
    injection Hreq as <-.
    split; [exact Hstatus |]. split; [exact Hpriority | exact Hname].
  - vm_compute in Hres. discriminate Hres.
Defined.

End CreateHandlerExamples.

Section CreateTwice.

Import errorspb apperrors repository service.

Variable pv : todopb.Task → protovalidate.Result.
Variable uuids : nat → string.
Variable clock : nat → Timestamp.

Lemma CreateTask_inl_saved {R : Type} `{TodoRepository R}
    (user traceID : string) (req : todopb.CreateTaskRequest)
    (w w' : World) (task : todopb.Task) :
  service.CreateTask pv uuids clock user traceID req w = (inl task, w') →
  repository.CreateTask task (repo w) = (None, repo w').
Proof.
  unfold service.CreateTask.
  destruct (todopb.Task_ req) as [reqTask |]; [| done].
  destruct (validation.ValidateTask pv reqTask traceID); [done |].
  destruct (GetTaskByTitle _ _) as [existing lookupErr].
  assert (saveNewTask uuids clock user traceID reqTask w = (inl task, w') →
          repository.CreateTask task (repo w) = (None, repo w')) as Hsave.
  { unfold saveNewTask.
    destruct (repository.CreateTask _ _) as [[cause |] repo'] eqn:Hc;
      [done |].
    by intros [= <- <-]. }
  destruct lookupErr as [cause |].
  - destruct (negb (IsNotFound cause)); [done |]. by destruct existing.
  - by destruct existing.
Qed.

(** Creating the same title again. On the in-memory store, after
    [CreateTask] has created a task the store finds that task under its
    title; and on every store in which [GetTaskByTitle] finds a task
    under that title (the store the creation left, and any later store
    as long as the title is still in the index), a request for a task
    with that title, one that [ValidateTask] accepts, from any user,
    fails with [Conflict] and leaves the store and the id counter as
    they are. *)
Theorem CreateTask_same_title_conflicts
    (user traceID : string) (req : todopb.CreateTaskRequest)
    (w w1 : World (R := InMemoryRepository)) (task : todopb.Task) :
  CreateTask pv uuids clock user traceID req w = (inl task, w1) →
  InMemory_GetTaskByTitle (todopb.Title task) (repo w1) = (Some task, None)
  ∧ ∀ (w2 : World (R := InMemoryRepository)) (found : todopb.Task)
      (user2 traceID2 : string) (req2 : todopb.CreateTaskRequest)
      (reqTask2 : todopb.Task),
      InMemory_GetTaskByTitle (todopb.Title task) (repo w2)
      = (Some found, None) →
      todopb.Task_ req2 = Some reqTask2 →
      todopb.Title reqTask2 = todopb.Title task →
      validation.ValidateTask pv reqTask2 traceID2 = None →
      CreateTask pv uuids clock user2 traceID2 req2 w2
      = (inr (appError
                (NewConflict "task" "A task with this title already exists"
                   traceID2)), w2).
Proof.
  intros Hfirst. split.
  - apply CreateTask_inl_saved in Hfirst. simpl in Hfirst.
    revert Hfirst. unfold InMemory_CreateTask.
    destruct (tasks (repo w) !! extractID (todopb.Name task)); [done |].
    assert (∀ r'',
              r'' = mkInMemoryRepository
                      (<[extractID (todopb.Name task) := task]>
                         (tasks (repo w)))
                      (<[todopb.Title task := extractID (todopb.Name task)]>
                         (index (repo w))) →
              InMemory_GetTaskByTitle (todopb.Title task) r''
              = (Some task, None)) as Hstored.
    { intros r'' ->. unfold InMemory_GetTaskByTitle, InMemory_GetTask.
      simpl. by rewrite !lookup_insert_eq. }
    destruct (index (repo w) !! todopb.Title task).
    + destruct (negb _); [done |]. intros [= <-]. by apply Hstored.
    + intros [= <-]. by apply Hstored.
  - intros w2 found user2 traceID2 req2 reqTask2 Hfound Hreq Htitle Hv.
    unfold service.CreateTask. rewrite Hreq, Hv. simpl.
    by rewrite Htitle, Hfound.
Qed.

End CreateTwice.

Lemma CreateTask_same_title_conflicts_witness :
  let uuids := fun n => "id-" +:+ pretty n in
  let clock := fun n => mkTimestamp (Z.of_nat n) 0 in
  let w1 := snd (service.CreateTask acceptAll uuids clock "anonymous" "t1"
                   (titled "Unique Task Title") emptyWorld) in
  let w2 := snd (service.CreateTask acceptAll uuids clock "carol" "t2"
                   (titled "Another Title") w1) in
  service.CreateTask acceptAll uuids clock "bob" "t3"
    (titled "Unique Task Title") w2
  = (inr (apperrors.appError
            (apperrors.NewConflict "task"
               "A task with this title already exists" "t3")), w2).
Proof.
  intros uuids clock w1 w2.
  destruct (service.CreateTask acceptAll uuids clock "anonymous" "t1"
              (titled "Unique Task Title") emptyWorld)
    as [[task | err] w1'] eqn:Hfirst.
  2: { vm_compute in Hfirst. discriminate Hfirst. }
  destruct (CreateTask_same_title_conflicts acceptAll uuids clock
              "anonymous" "t1" (titled "Unique Task Title")
              emptyWorld w1' task Hfirst) as [_ Hlater].
  vm_compute in Hfirst. injection Hfirst as <- <-.
  eapply (Hlater w2 _ "bob" "t3" (titled "Unique Task Title"));
    reflexivity.
Defined.

(** ** internal/service: what a batch returns *)

Section BatchOutcome.

Import errorspb apperrors service.

Context {R : Type} `{repository.TodoRepository R}.

Variable pv : todopb.Task → protovalidate.Result.
Variable rng : MapRange string (list nat).
Variable uuids : nat → string.
Variable clock : nat → Timestamp.
Variable user : string.

(** Every item of the loop ends in [created] or in [batchErrors]. *)
Lemma batch_loop_count (traceID : string)
    (requests : list todopb.CreateTaskRequest) (w : World) :
  let '(created, batchErrors, _) :=
    foldl (batchStep pv uuids clock user traceID) ([], [], w)
          (imap pair requests) in
  (length created + length batchErrors = length requests)%nat.
Proof.
  induction requests as [| createReq requests IH] using rev_ind; [done |].
  rewrite imap_pair_snoc, foldl_app. simpl.
  destruct (foldl _ _ (imap pair requests)) as [[created batchErrors] w0].
  unfold batchStep.
  destruct (CreateTask pv uuids clock user traceID createReq w0)
    as [[task | err] w1]; rewrite !length_app; simpl; lia.
Qed.

Lemma ValidateBatchCreateTasks_None_nonempty
    (req : todopb.BatchCreateTasksRequest) (traceID : string) :
  validation.ValidateBatchCreateTasks pv rng req traceID = None →
  todopb.Requests req ≠ [].
Proof.
  rewrite ValidateBatchCreateTasks_violations. cbv zeta.
  intros Hnone Hnil. revert Hnone. unfold violationsBeforeTitles.
  rewrite Hnil. by vm_compute.
Qed.

(** What [BatchCreateTasks] returns. A response means that the batch
    passed validation and at least one task was created: the response is
    never empty, it has at most one task per item, and the span gets the
    three counters, which add up, exactly when some item failed. An
    error is either the validation error of the batch, with nothing
    stored, or the [Internal] error "All batch operations failed". *)
Theorem BatchCreateTasks_outcome (traceID : string)
    (req : todopb.BatchCreateTasksRequest) (w w' : World)
    (result : todopb.BatchCreateTasksResponse + error)
    (attrs : list (string * AttrValue)) :
  BatchCreateTasks pv rng uuids clock user traceID req w
  = (result, attrs, w') →
  match result with
  | inl response =>
      validation.ValidateBatchCreateTasks pv rng req traceID = None
      ∧ todopb.Tasks response ≠ []
      ∧ ∃ failed,
          (length (todopb.Tasks response) + failed
           = length (todopb.Requests req))%nat
          ∧ attrs
            = match failed with
              | O => []
              | _ => [("batch.total", AttrInt (length (todopb.Requests req)));
                      ("batch.success",
                       AttrInt (length (todopb.Tasks response)));
                      ("batch.failed", AttrInt failed)]
              end
  | inr err =>
      (∃ e, validation.ValidateBatchCreateTasks pv rng req traceID = Some e
            ∧ err = appError e ∧ w' = w)
      ∨ (validation.ValidateBatchCreateTasks pv rng req traceID = None
         ∧ err = appError
                   (NewInternal "All batch operations failed" traceID None)
         ∧ attrs = [])
  end.
Proof.
  unfold BatchCreateTasks.
  destruct (validation.ValidateBatchCreateTasks pv rng req traceID)
    as [e |] eqn:Hv.
  { intros [= <- <- <-]. left. by exists e. }
  pose proof (ValidateBatchCreateTasks_None_nonempty req traceID Hv) as Hne.
  pose proof (batch_loop_count traceID (todopb.Requests req) w) as Hcount.
  destruct (foldl _ _ (imap pair (todopb.Requests req)))
    as [[created batchErrors] w0].
  destruct created as [| task created]; simpl.
  - destruct batchErrors as [| e0 batchErrors]; simpl in *.
    + destruct (todopb.Requests req); [done | simpl in Hcount; lia].
    + intros [= <- <- <-]. by right.
  - intros [= <- <- <-]. simpl. split; [done |]. split; [done |].
    exists (length batchErrors). split; [exact Hcount |].
    by destruct batchErrors.
Qed.

End BatchOutcome.

(** A batch of two on a store that already holds the first title: one
    task is created, one item fails, and the span gets the counters. *)
Lemma BatchCreateTasks_outcome_witness :
  let uuids := fun n => "id-" +:+ pretty n in
  let clock := fun n => mkTimestamp (Z.of_nat n) 0 in
  let w1 := snd (service.CreateTask acceptAll uuids clock "anonymous" "t0"
                   (titled "Write report") emptyWorld) in
  ∃ response w',
    service.BatchCreateTasks acceptAll rangeForward uuids clock
      "anonymous" "t1"
      (todopb.mkBatchCreateTasksRequest
         [titled "Write report"; titled "Buy milk"]) w1
    = (inl response,
       [("batch.total", service.AttrInt 2);
        ("batch.success", service.AttrInt 1);
        ("batch.failed", service.AttrInt 1)], w')
    ∧ todopb.Tasks response ≠ []
    ∧ todopb.Title <$> todopb.Tasks response = ["Buy milk"].
Proof.
  intros uuids clock w1.
  destruct (service.BatchCreateTasks acceptAll rangeForward uuids clock
              "anonymous" "t1"
              (todopb.mkBatchCreateTasksRequest
                 [titled "Write report"; titled "Buy milk"]) w1)
    as [[result attrs] w'] eqn:Hres.
  pose proof (BatchCreateTasks_outcome acceptAll rangeForward uuids clock
                "anonymous" "t1"
                (todopb.mkBatchCreateTasksRequest
                   [titled "Write report"; titled "Buy milk"])
                w1 w' result attrs Hres) as Hout.
  destruct result as [response | err].
  - destruct Hout as (_ & Hnonempty & _).
    exists response, w'. vm_compute in Hres.
    injection Hres as <- <- _.
    split; [reflexivity |]. split; [exact Hnonempty | reflexivity].
  - vm_compute in Hres. discriminate Hres.
Defined.

(** ** From the handler's error to the HTTP body *)

Section WireRoundTrip.

Import errorspb apperrors middleware.

Variable HTTPStatusFromCode : codes.Code → Z.
Variable anyToJSON : Any → option JSON.

Lemma ToGRPCStatus_detail (now : Timestamp) (e : AppError)
    (st : status.Status) :
  ToGRPCStatus now e = Some st →
  status.Code st = GRPCCode e
  ∧ firstErrorDetail (status.Details st) = Some (errorDetailOf now e).
Proof.
  unfold ToGRPCStatus, status.WithDetails, status.New. simpl.
  destruct (bool_decide _ && bool_decide _);
    destruct (decide (GRPCCode e = codes.OK)); try done;
    by intros [= <-].
Qed.

(** The document the gateway makes of an error detail. *)
Lemma CustomHTTPError_detail (span : option string) (uuid : string)
    (now : Timestamp) (r : Request) (st : status.Status)
    (errorDetail : ErrorDetail) :
  firstErrorDetail (status.Details st) = Some errorDetail →
  ∃ doc,
    CustomHTTPError HTTPStatusFromCode anyToJSON span uuid now
      ([] : Recorder) r (statusError st)
    = problemResponse (HTTPStatusFromCode (status.Code st)) doc
    ∧ doc !! "type" = Some (JStr (getTypeForCode (ed_Code errorDetail)))
    ∧ doc !! "title" = Some (JStr (ed_Title errorDetail))
    ∧ doc !! "status" = Some (JInt (HTTPStatusFromCode (status.Code st)))
    ∧ doc !! "detail" = Some (JStr (ed_Detail errorDetail))
    ∧ doc !! "errors"
      = match ed_FieldViolations errorDetail with
        | [] => None
        | fvs => Some (violationsJSON fvs)
        end.
Proof.
  intros Hdetail. unfold CustomHTTPError. simpl. rewrite Hdetail.
  cbn [ed_TraceId ed_Instance ed_Code ed_Title ed_Detail ed_FieldViolations
       ed_Timestamp ed_Extensions].
  eexists. split; [reflexivity |].
  destruct (ed_FieldViolations errorDetail) as [| fv fvs].
  - rewrite (bool_decide_false (0 < length [])%nat) by (simpl; lia).
    repeat case_bool_decide; by simplify_map_eq.
  - rewrite (bool_decide_true (0 < length (fv :: fvs))%nat) by (simpl; lia).
    repeat case_bool_decide; by simplify_map_eq.
Qed.

(** Round trip of an application error. An [AppError] (with an error
    code) that a handler returns goes through the interceptor as a status
    error, and the gateway renders that status as one problem+json
    document with the HTTP status of its code and the type, title, detail
    and field violations (in order) of the [AppError]; the ["errors"]
    member is absent when there are no violations. *)
Theorem app_error_round_trip {Resp : Type} (resp : option Resp)
    (e : AppError) (now now' : Timestamp) (span : option string)
    (uuid : string) (r : Request) :
  GRPCCode e ≠ codes.OK →
  ∃ wire doc,
    fst (UnaryErrorInterceptor now resp (Some (appError e)))
    = (None, Some wire)
    ∧ CustomHTTPError HTTPStatusFromCode anyToJSON span uuid now'
        ([] : Recorder) r wire
      = problemResponse (HTTPStatusFromCode (GRPCCode e)) doc
    ∧ doc !! "type" = Some (JStr (getTypeForCode (String (AppCode e))))
    ∧ doc !! "title" = Some (JStr (Title e))
    ∧ doc !! "status" = Some (JInt (HTTPStatusFromCode (GRPCCode e)))
    ∧ doc !! "detail" = Some (JStr (Detail e))
    ∧ doc !! "errors"
      = match FieldViolations e with
        | [] => None
        | fvs =>
            Some (JArr (map (fun fv =>
                               JObj (<["field" := JStr (Field fv)]>
                                    (<["code" := JStr (Code fv)]>
                                    (<["message" := JStr (Description fv)]>
                                       ∅))))
                            fvs))
        end.
Proof.
  intros Hok.
  destruct (ToGRPCStatus_code now e Hok) as (st & Hst & Hcode & _).
  destruct (ToGRPCStatus_detail now e st Hst) as [_ Hdetail].
  destruct (CustomHTTPError_detail span uuid now' r st _ Hdetail)
    as (doc & Hresp & Htype & Htitle & Hstatus & Hdet & Herrors).
  exists (statusError st), doc. rewrite <- Hcode. split.
  - unfold UnaryErrorInterceptor. simpl. rewrite Hst. simpl.
    by rewrite decide_False by congruence.
  - by repeat split.
Qed.

(** An unexpected error never shows in the HTTP body. For every error of
    a handler that is neither an [AppError] nor a status error, the
    gateway's document has the fixed detail "An unexpected error
    occurred" and the title and type of an internal error; the text of
    the error only goes to the server log. *)
Theorem unexpected_error_is_not_leaked {Resp : Type} (resp : option Resp)
    (err : error) (now now' : Timestamp) (span : option string)
    (uuid : string) (r : Request) :
  errors_As_AppError err = None →
  snd (FromError err) = false →
  ∃ wire doc,
    UnaryErrorInterceptor now resp (Some err)
    = ((None, Some wire), ["UNEXPECTED ERROR: " +:+ Error err])
    ∧ CustomHTTPError HTTPStatusFromCode anyToJSON span uuid now'
        ([] : Recorder) r wire
      = problemResponse (HTTPStatusFromCode codes.Internal) doc
    ∧ doc !! "type"
      = Some (JStr "https://api.example.com/errors/internal-error")
    ∧ doc !! "title" = Some (JStr "Internal Server Error")
    ∧ doc !! "detail" = Some (JStr "An unexpected error occurred")
    ∧ doc !! "errors" = None.
Proof.
  intros Has Hst.
  destruct (CustomHTTPError_detail span uuid now' r (unexpectedStatus now) _
              eq_refl)
    as (doc & Hresp & Htype & Htitle & _ & Hdet & Herrors).
  exists (statusError (unexpectedStatus now)), doc. split.
  - unfold UnaryErrorInterceptor. by rewrite Has, Hst.
  - by repeat split.
Qed.

End WireRoundTrip.

Lemma app_error_round_trip_witness :
  ∃ wire doc,
    fst (middleware.UnaryErrorInterceptor (mkTimestamp 5 0)
           (None : option unit)
           (Some (apperrors.appError
                    (apperrors.NewNotFound "Task" "zz" "t1"))))
    = (None, Some wire)
    ∧ middleware.CustomHTTPError gatewayHTTPStatus (fun _ => None)
        None "uuid-1" (mkTimestamp 6 0) ([] : Recorder)
        (mkRequest ∅ "/v1/tasks/zz") wire
      = problemResponse 404 doc
    ∧ doc !! "detail" = Some (JStr "Task with ID 'zz' was not found.").
Proof.
  destruct (app_error_round_trip gatewayHTTPStatus (fun _ => None)
              (None : option unit) (apperrors.NewNotFound "Task" "zz" "t1")
              (mkTimestamp 5 0) (mkTimestamp 6 0) None "uuid-1"
              (mkRequest ∅ "/v1/tasks/zz"))
    as (wire & doc & Hwire & Hresp & _ & _ & _ & Hdetail & _).
  - discriminate.
  - exists wire, doc. split; [exact Hwire |].
    split; [exact Hresp | exact Hdetail].
Defined.

Lemma unexpected_error_is_not_leaked_witness :
  ∃ wire doc,
    middleware.UnaryErrorInterceptor (mkTimestamp 5 0) (None : option unit)
      (Some (apperrors.errorString "pq: password authentication failed"))
    = ((None, Some wire),
       ["UNEXPECTED ERROR: pq: password authentication failed"])
    ∧ middleware.CustomHTTPError gatewayHTTPStatus (fun _ => None)
        None "uuid-1" (mkTimestamp 6 0) ([] : Recorder)
        (mkRequest ∅ "/v1/tasks") wire
      = problemResponse 500 doc
    ∧ doc !! "detail" = Some (JStr "An unexpected error occurred").
Proof.
  destruct (unexpected_error_is_not_leaked gatewayHTTPStatus (fun _ => None)
              (None : option unit)
              (apperrors.errorString "pq: password authentication failed")
              (mkTimestamp 5 0) (mkTimestamp 6 0) None "uuid-1"
              (mkRequest ∅ "/v1/tasks") eq_refl eq_refl)
    as (wire & doc & Hwire & Hresp & _ & _ & Hdetail & _).
  exists wire, doc. split; [exact Hwire |].
  split; [exact Hresp | exact Hdetail].
Defined.

(** ** The wrapper and a panic before the first write *)

Section WrapperForwarding.

Import errorspb apperrors middleware.

(** What a call of a handler asks of the connection besides a status:
    a header setting or a body. *)
Definition payloadOfCall (c : Call) : option Event :=
  match c with
  | CallHeaderSet k v => Some (EvHeaderSet k v)
  | CallWrite b => Some (EvWrite b)
  | CallWriteHeader _ => None
  end.

(** The events of a writer other than the statuses. *)
Definition payloadOfEvent (ev : Event) : option Event :=
  match ev with
  | EvWriteHeader _ => None
  | _ => Some ev
  end.

Definition payload (w : Recorder) : list Event := omap payloadOfEvent w.

Lemma payload_doCall (w : responseWriter Recorder) (c : Call) :
  payload (ResponseWriter_ (doCall w c))
  = payload (ResponseWriter_ w) ++ option_list (payloadOfCall c).
Proof.
  unfold payload. destruct c as [k v | code | b]; simpl.
  - by rewrite omap_app.
  - unfold responseWriter_WriteHeader. destruct (written w); simpl.
    + by rewrite app_nil_r.
    + rewrite omap_app. simpl. by rewrite app_nil_r.
  - unfold responseWriter_Write, responseWriter_WriteHeader.
    destruct (written w); simpl.
    + by rewrite omap_app.
    + rewrite !omap_app. simpl. by rewrite app_nil_r.
Qed.

Lemma doCalls_snoc {V : Type} `{ResponseWriter V} (w : V) (cs : list Call)
    (c : Call) :
  doCalls w (cs ++ [c]) = doCall (doCalls w cs) c.
Proof. unfold doCalls. by rewrite foldl_app. Qed.

(** Calls that ask for no status leave the wrapper unwritten and reach
    the writer underneath as they are. *)
Lemma doCalls_headers_only (cs : list Call) (w : responseWriter Recorder) :
  statusCalls cs = [] →
  doCalls w cs
  = {| ResponseWriter_ := ResponseWriter_ w ++ omap payloadOfCall cs;
       request := request w;
       traceID := traceID w;
       statusCode := statusCode w;
       written := written w |}.
Proof.
  revert w. induction cs as [| c cs IH]; intros w Hcs.
  { simpl. rewrite app_nil_r. by destruct w. }
  destruct c as [k v | code | b]; try done.
  unfold statusCalls in Hcs. simpl in Hcs.
  change (doCalls w (CallHeaderSet k v :: cs))
    with (doCalls (doCall w (CallHeaderSet k v)) cs).
  rewrite (IH _ Hcs). simpl. by rewrite <- app_assoc.
Qed.

End WrapperForwarding.

Section WrapperForwardingTheorems.

Import errorspb apperrors middleware.

(** The wrapper of [HTTPErrorHandler] adds and drops statuses only. For
    every sequence of calls of a handler on a fresh wrapper, the header
    settings and the bodies that reach the writer underneath are those
    of the calls, all of them and in the order of the calls (also a
    header set after the status was sent). *)
Theorem wrapper_forwards_headers_and_bodies
    (calls : list Call) (r : Request) (tid : string) :
  payload (ResponseWriter_ (doCalls (freshWriter [] r tid) calls))
  = omap payloadOfCall calls.
Proof.
  induction calls as [| c calls IH] using rev_ind; [done |].
  rewrite doCalls_snoc, payload_doCall, IH, omap_app. simpl.
  by destruct (payloadOfCall c).
Qed.

(** A panic before any status. When the handler panics after calls that
    only set headers, the client receives those header settings followed
    by one problem+json response: the HTTP status of [Internal], type
    internal-error, title "Internal Server Error", the fixed detail "An
    unexpected error occurred. Please try again later.", the trace id of
    the request (the first value of the [X-Trace-ID] header, which the
    server stores under the canonical key [X-Trace-Id], or a fresh uuid
    when the header is absent or that value is empty), and neither an
    instance nor errors. *)
Theorem panic_before_write_response
    (HTTPStatusFromCode : codes.Code → Z) (uuid : string) (now : Timestamp)
    (calls : list Call) (r : Request) :
  statusCalls calls = [] →
  ∃ doc,
    HTTPErrorHandler HTTPStatusFromCode uuid now calls true
      ([] : Recorder) r
    = omap payloadOfCall calls
      ++ problemResponse (HTTPStatusFromCode codes.Internal) doc
    ∧ doc !! "type"
      = Some (JStr "https://api.example.com/errors/internal-error")
    ∧ doc !! "title" = Some (JStr "Internal Server Error")
    ∧ doc !! "status" = Some (JInt (HTTPStatusFromCode codes.Internal))
    ∧ doc !! "detail"
      = Some (JStr "An unexpected error occurred. Please try again later.")
    ∧ doc !! "traceId"
      = Some (JStr (match Header r !! "X-Trace-Id" with
                    | Some (value :: _) =>
                        if String.eqb value "" then uuid else value
                    | _ => uuid
                    end))
    ∧ doc !! "timestamp" = Some (JTime now)
    ∧ doc !! "instance" = None
    ∧ doc !! "errors" = None.
Proof.
  intros Hcalls. unfold HTTPErrorHandler.
  rewrite (doCalls_headers_only calls _ Hcalls).
  rewrite Header_Get_trace_header. simpl.
  unfold handlePanic, writeErrorResponse, writeAppErrorResponse. simpl.
  unfold responseWriter_Write, responseWriter_WriteHeader. simpl.
  eexists. split.
  - unfold problemResponse. rewrite <- !app_assoc. simpl. reflexivity.
  - repeat split; try done.
    by destruct (Header r !! "X-Trace-Id") as [[| value values] |].
Qed.

End WrapperForwardingTheorems.

(** The trace id of the response is that of the header, which the
    server stores under its canonical key. *)
Lemma panic_before_write_response_witness :
  ∃ doc,
    middleware.HTTPErrorHandler gatewayHTTPStatus "uuid-1" (mkTimestamp 7 0)
      [middleware.CallHeaderSet "Access-Control-Allow-Origin" "*"] true
      ([] : Recorder) (mkRequest {["X-Trace-Id" := ["abc"]]} "/v1/tasks")
    = [EvHeaderSet "Access-Control-Allow-Origin" "*"]
      ++ problemResponse 500 doc
    ∧ doc !! "traceId" = Some (JStr "abc")
    ∧ doc !! "detail"
      = Some (JStr "An unexpected error occurred. Please try again later.").
Proof.
  destruct (panic_before_write_response gatewayHTTPStatus "uuid-1"
              (mkTimestamp 7 0)
              [middleware.CallHeaderSet "Access-Control-Allow-Origin" "*"]
              (mkRequest {["X-Trace-Id" := ["abc"]]} "/v1/tasks") eq_refl)
    as (doc & Hresp & _ & _ & _ & Hdetail & Htrace & _).
  exists doc. split; [exact Hresp |]. split; [exact Htrace | exact Hdetail].
Defined.

(** ** main.go: the interceptor chain of the gRPC server *)

Section ServerChain.

Import errorspb apperrors middleware.

Variable HTTPStatusFromCode : codes.Code → Z.
Variable anyToJSON : Any → option JSON.

(** The document the gateway makes of a status without error detail. *)
Lemma CustomHTTPError_no_detail (span : option string) (uuid : string)
    (now : Timestamp) (r : Request) (st : status.Status) :
  firstErrorDetail (status.Details st) = None →
  ∃ doc,
    CustomHTTPError HTTPStatusFromCode anyToJSON span uuid now
      ([] : Recorder) r (statusError st)
    = problemResponse (HTTPStatusFromCode (status.Code st)) doc
    ∧ doc !! "type"
      = Some (JStr "https://api.example.com/errors/internal-error")
    ∧ doc !! "title" = Some (JStr "Internal Server Error")
    ∧ doc !! "detail" = Some (JStr (status.Message st))
    ∧ doc !! "errors" = None.
Proof.
  intros Hdetail. unfold CustomHTTPError. simpl. rewrite Hdetail.
  unfold writeAppErrorResponse. simpl.
  eexists. split; [reflexivity |].
  destruct (negb (String.eqb (URL_Path r) "")); by simplify_map_eq.
Qed.

(** A panic of an RPC handler, seen from HTTP. The recovery interceptor
    turns the panic into the status [Internal] "Internal server error"
    without detail, the error interceptor passes it on unchanged and logs
    nothing, and the gateway answers with one problem+json document with
    the HTTP status of [Internal], type internal-error, title "Internal
    Server Error" and detail "Internal server error". *)
Theorem rpc_panic_response {Resp : Type} (now now' : Timestamp)
    (span : option string) (uuid : string) (r : Request) :
  ∃ wire doc,
    server.chain now (taskservice.Panicked : taskservice.Outcome Resp)
    = ((None, Some wire), [])
    ∧ CustomHTTPError HTTPStatusFromCode anyToJSON span uuid now'
        ([] : Recorder) r wire
      = problemResponse (HTTPStatusFromCode codes.Internal) doc
    ∧ doc !! "type"
      = Some (JStr "https://api.example.com/errors/internal-error")
    ∧ doc !! "title" = Some (JStr "Internal Server Error")
    ∧ doc !! "detail" = Some (JStr "Internal server error")
    ∧ doc !! "errors" = None.
Proof.
  destruct (CustomHTTPError_no_detail span uuid now' r
              (status.New codes.Internal "Internal server error") eq_refl)
    as (doc & Hresp & Htype & Htitle & Hdetail & Herrors).
  by exists (statusError (status.New codes.Internal "Internal server error")),
    doc.
Qed.

End ServerChain.

(** ** The user of a request and the masks of the account service *)

Section ByteSlices.

Import bytes.

Lemma sliceFrom_length_app (a b : string) :
  sliceFrom (String.length a) (a +:+ b) = b.
Proof. induction a as [| c a IH]; simpl; [by destruct b | done]. Qed.

Lemma sliceTo_length_app (a b : string) :
  sliceTo (String.length a) (a +:+ b) = a.
Proof. induction a as [| c a IH]; simpl; [done | by rewrite IH]. Qed.

Lemma string_length_app (a b : string) :
  String.length (a +:+ b) = (String.length a + String.length b)%nat.
Proof. induction a as [| c a IH]; simpl; [done | by rewrite IH]. Qed.

Lemma sliceTo_sliceFrom (n : nat) (s : string) :
  sliceTo n s +:+ sliceFrom n s = s.
Proof.
  revert s. induction n as [| n IH]; intros [| c s]; simpl; try done.
  change (String.String c (sliceTo n s +:+ sliceFrom n s) = String.String c s).
  f_equal. apply IH.
Qed.

Lemma sliceFrom_length (n : nat) (s : string) :
  String.length (sliceFrom n s) = (String.length s - n)%nat.
Proof.
  revert s. induction n as [| n IH]; intros [| c s]; simpl; done.
Qed.

Lemma sliceTo_app (n : nat) (a b : string) :
  (n ≤ String.length a)%nat → sliceTo n (a +:+ b) = sliceTo n a.
Proof.
  revert a. induction n as [| n IH]; intros [| c a] Hn; simpl in *;
    try done; try lia.
  rewrite IH; [done | lia].
Qed.

Lemma indexFrom_app (i : nat) (c : Ascii.ascii) (a b : string) :
  hasByte c a = false →
  indexFrom i c (a +:+ String.String c b) = Some (i + String.length a)%nat.
Proof.
  revert i. induction a as [| c' a IH]; intros i Ha; simpl in *.
  - rewrite Ascii.eqb_refl. f_equal. lia.
  - apply orb_false_iff in Ha as [Hc Ha]. rewrite Hc, (IH _ Ha).
    f_equal. lia.
Qed.

End ByteSlices.

Section Masking.

Import bytes accounts.

(** The user of a request is never empty: it is the token that follows
    ["Bearer "] when the header has that prefix and a token, and
    ["anonymous"] otherwise (header absent, without prefix, or without
    token). *)
Theorem authUser_is_token_or_anonymous (authHeader : string) :
  authUser authHeader ≠ ""
  ∧ (∀ token, token ≠ "" → authUser ("Bearer " +:+ token) = token)
  ∧ (sliceTo 7 authHeader ≠ "Bearer " → authUser authHeader = "anonymous")
  ∧ authUser "Bearer " = "anonymous".
Proof.
  repeat split.
  - unfold authUser.
    destruct (String.eqb authHeader "") eqn:Hempty; [done |].
    destruct (7 <? String.length authHeader)%nat eqn:Hlen; [| done].
    destruct (String.eqb (sliceTo 7 authHeader) "Bearer "); [| done].
    apply Nat.ltb_lt in Hlen.
    change (sliceFrom 7 authHeader ≠ ""). intros Hnil.
    pose proof (sliceFrom_length 7 authHeader) as Hl.
    rewrite Hnil in Hl. simpl in Hl. lia.
  - intros token Htoken. unfold authUser. simpl.
    destruct token as [| c token]; [done |]. simpl.
    destruct (String.length token); simpl; done.
  - intros Hprefix. unfold authUser.
    destruct (String.eqb authHeader "") eqn:Hempty.
    { apply String.eqb_eq in Hempty. by subst. }
    destruct (String.eqb (sliceTo 7 authHeader) "Bearer ") eqn:Heq.
    { by apply String.eqb_eq in Heq. }
    by rewrite andb_false_r.
Qed.

(** [maskPhone] shows the last four bytes only: of a phone number of
    more than four bytes the result is ["XXX-XXX-"] followed by its last
    four bytes, so two numbers with the same last four bytes are masked
    alike. *)
Theorem maskPhone_shows_last_four (hidden last4 : string) :
  hidden ≠ "" →
  String.length last4 = 4%nat →
  maskPhone (hidden +:+ last4) = "XXX-XXX-" +:+ last4.
Proof.
  intros Hhidden Hlast. unfold maskPhone, lastN.
  assert (0 < String.length hidden)%nat as Hlen.
  { destruct hidden; [done | simpl; lia]. }
  rewrite string_length_app, Hlast.
  rewrite !(proj2 (Nat.leb_gt _ _)) by lia.
  replace (String.length hidden + 4 - 4)%nat with (String.length hidden)
    by lia.
  by rewrite sliceFrom_length_app.
Qed.

(** [maskEmail] shows two bytes and the domain: of an address whose
    local part has at least two bytes (and no ['@']) the result is the
    first two bytes of the local part, ["***"], and the ['@'] with all
    that follows it. *)
Theorem maskEmail_shows_two_bytes_and_domain (local domain : string) :
  hasByte "@"%char local = false →
  (2 ≤ String.length local)%nat →
  maskEmail (local +:+ "@" +:+ domain)
  = sliceTo 2 local +:+ "***@" +:+ domain.
Proof.
  intros Hlocal Hlen. unfold maskEmail.
  change ("@" +:+ domain) with (String.String "@"%char domain).
  rewrite string_length_app.
  rewrite (proj2 (Nat.ltb_ge _ _)) by (cbn [String.length]; lia).
  rewrite (indexFrom_app 0 "@"%char local domain Hlocal), Nat.add_0_l.
  by rewrite sliceFrom_length_app, (sliceTo_app 2 local _ Hlen).
Qed.

End Masking.

Lemma maskPhone_shows_last_four_witness :
  accounts.maskPhone "+1-555-0199" = "XXX-XXX-0199".
Proof.
  apply (maskPhone_shows_last_four "+1-555-" "0199"); [done | reflexivity].
Defined.

Lemma maskEmail_shows_two_bytes_and_domain_witness :
  accounts.maskEmail "alice@example.com" = "al***@example.com".
Proof.
  apply (maskEmail_shows_two_bytes_and_domain "alice" "example.com");
    [reflexivity | simpl; lia].
Defined.

(** ** The filter of ListTasks *)

Section ParseFilterProperties.

Import filters.

Variable TrimSpace : string → string.
Variable Trim : string → string → string.






End ParseFilterProperties.

(** ** The pages of the repository's ListTasks *)

Section Pages.

Import repository paging.

Definition taskID (task : todopb.Task) : string :=
  extractID (todopb.Name task).

(** The token that asks for the tasks from index [k] on: empty for the
    first page, else the id of the task before. *)
Definition tokenAt (filtered : list todopb.Task) (k : nat) : string :=
  match k with
  | O => ""
  | S k' => from_option taskID "" (filtered !! k')
  end.

Lemma tokenStart_found (filtered : list todopb.Task) (i k : nat)
    (task : todopb.Task) :
  NoDup (taskID <$> filtered) →
  filtered !! k = Some task →
  tokenStart (taskID task) filtered i = (i + k + 1)%nat.
Proof.
  revert i k. induction filtered as [| task0 filtered IH]; intros i k Hnd Hk;
    [done |].
  simpl in Hnd. apply NoDup_cons in Hnd as [Hnotin Hnd].
  destruct k as [| k]; simpl in *.
  - injection Hk as ->. fold (taskID task).
    rewrite String.eqb_refl. lia.
  - fold (taskID task0).
    destruct (String.eqb (taskID task0) (taskID task)) eqn:Heq.
    + apply String.eqb_eq in Heq. destruct Hnotin. rewrite Heq.
      apply list_elem_of_fmap. exists task. split; [done |].
      by apply list_elem_of_lookup_2 in Hk.
    + rewrite (IH (S i) k Hnd Hk). lia.
Qed.

(** The pages follow each other. On a list of tasks with distinct,
    non-empty ids and with a positive page size (small enough for the
    sum of start and page size to fit Go's [int]), the token of the first
    [k] tasks gives the next [pageSize] tasks (fewer at the end of the
    list), and the next token is the token of the first [k + pageSize]
    tasks, or empty when the list is exhausted: following the tokens
    from the empty one returns every task once, in the order of the
    list. *)
Theorem pages_follow_each_other (filtered : list todopb.Task) (k : nat)
    (pageSize : Z) :
  NoDup (taskID <$> filtered) →
  ("" ∉ taskID <$> filtered) →
  0 < pageSize →
  Z.of_nat k + pageSize < 2 ^ 63 →
  (k ≤ length filtered)%nat →
  paginate filtered (tokenAt filtered k) pageSize
  = Some (take (Z.to_nat pageSize) (drop k filtered),
          if bool_decide (k + Z.to_nat pageSize < length filtered)%nat
          then tokenAt filtered (k + Z.to_nat pageSize)
          else "").
Proof.
  intros Hnd Hne Hsize Hfits Hk. unfold paginate.
  assert ((if String.eqb (tokenAt filtered k) "" then 0
           else Z.of_nat (tokenStart (tokenAt filtered k) filtered 0))
          = Z.of_nat k) as ->.
  { destruct k as [| k]; [done |]. simpl.
    destruct (lookup_lt_is_Some_2 filtered k ltac:(lia)) as [task Htask].
    rewrite Htask. simpl.
    destruct (String.eqb (taskID task) "") eqn:Heq.
    - apply String.eqb_eq in Heq. destruct Hne. rewrite <- Heq.
      apply list_elem_of_fmap. exists task. split; [done |].
      by apply list_elem_of_lookup_2 in Htask.
    - rewrite (tokenStart_found filtered 0 k task Hnd Htask). lia. }
  assert (∃ n, pageSize = Z.of_nat n ∧ (0 < n)%nat) as (n & -> & Hn).
  { exists (Z.to_nat pageSize). lia. }
  clear Hsize. rewrite !Nat2Z.id.
  rewrite (wrap64_small (Z.of_nat k + Z.of_nat n)) by lia.
  rewrite (proj2 (Z.ltb_ge (Z.of_nat (length filtered)) (Z.of_nat k)))
    by lia.
  rewrite orb_false_r.
  assert ((if Z.of_nat (length filtered) <? Z.of_nat k + Z.of_nat n
           then Z.of_nat (length filtered)
           else Z.of_nat k + Z.of_nat n)
          = Z.of_nat (Nat.min (k + n) (length filtered))) as ->.
  { destruct (Z.ltb_spec (Z.of_nat (length filtered))
                (Z.of_nat k + Z.of_nat n)); lia. }
  rewrite (proj2 (Z.ltb_ge (Z.of_nat (Nat.min (k + n) (length filtered)))
                   (Z.of_nat k))) by lia.
  replace (Z.to_nat (Z.of_nat (Nat.min (k + n) (length filtered)) - Z.of_nat k))
    with (Nat.min n (length filtered - k))%nat by lia.
  assert (take (Nat.min n (length filtered - k)) (drop k filtered)
          = take n (drop k filtered)) as ->.
  { destruct (decide (n ≤ length filtered - k)%nat).
    - by rewrite Nat.min_l by done.
    - rewrite Nat.min_r by lia.
      rewrite !take_ge; [done | |]; rewrite length_drop; lia. }
  case_bool_decide as Hmore.
  - rewrite (proj2 (Z.ltb_lt (Z.of_nat (Nat.min (k + n) (length filtered)))
                     (Z.of_nat (length filtered)))) by lia.
    rewrite (wrap64_small (Z.of_nat (Nat.min (k + n) (length filtered)) - 1))
      by lia.
    rewrite (proj2 (Z.ltb_ge (Z.of_nat (Nat.min (k + n) (length filtered)) - 1) 0))
      by lia.
    rewrite (proj2 (Z.leb_gt (Z.of_nat (length filtered))
                      (Z.of_nat (Nat.min (k + n) (length filtered)) - 1)))
      by lia.
    cbn [orb].
    replace (Z.to_nat (Z.of_nat (Nat.min (k + n) (length filtered)) - 1))
      with (k + n - 1)%nat by lia.
    destruct (lookup_lt_is_Some_2 filtered (k + n - 1) ltac:(lia))
      as [task Htask].
    rewrite Htask. simpl. do 2 f_equal.
    unfold tokenAt. destruct (k + n)%nat as [| m] eqn:Hm; [lia |].
    replace (S m - 1)%nat with m in Htask by lia.
    by rewrite Htask.
  - by rewrite (proj2 (Z.ltb_ge (Z.of_nat (Nat.min (k + n) (length filtered)))
                        (Z.of_nat (length filtered)))) by lia.
Qed.

(** Beyond that bound the sum wraps to a negative end and [ListTasks]
    panics on the index of the last task. *)
Lemma paginate_overflow :
  paginate [namedTask "tasks/a" "A"; namedTask "tasks/b" "B"] "a"
    (2 ^ 63 - 1)
  = None.
Proof. vm_compute. reflexivity. Qed.

Lemma tokenStart_missing (pageToken : string)
    (filtered : list todopb.Task) (i : nat) :
  (pageToken ∉ taskID <$> filtered) →
  tokenStart pageToken filtered i = 0%nat.
Proof.
  revert i. induction filtered as [| task filtered IH]; intros i Hnotin;
    [done |].
  simpl in *. apply not_elem_of_cons in Hnotin as [Hne Hnotin].
  fold (taskID task).
  destruct (String.eqb (taskID task) pageToken) eqn:Heq.
  - apply String.eqb_eq in Heq. by destruct Hne.
  - by apply IH.
Qed.

(** A token that names no task of the list starts again from the top:
    the page and the next token are those of the empty token (so after
    the task of a token is deleted, or falls out of the filter, the
    listing restarts with the first page). *)
Theorem unknown_page_token_gives_first_page (filtered : list todopb.Task)
    (pageToken : string) (pageSize : Z) :
  (pageToken ∉ taskID <$> filtered) →
  paginate filtered pageToken pageSize = paginate filtered "" pageSize.
Proof.
  intros Hnotin. unfold paginate.
  rewrite (tokenStart_missing pageToken filtered 0 Hnotin).
  by destruct (String.eqb pageToken "").
Qed.

End Pages.

Lemma pages_follow_each_other_witness :
  paging.paginate
    [namedTask "tasks/a" "A"; namedTask "tasks/b" "B";
     namedTask "tasks/c" "C"] "a" 1
  = Some ([namedTask "tasks/b" "B"], "b").
Proof.
  apply (pages_follow_each_other
           [namedTask "tasks/a" "A"; namedTask "tasks/b" "B";
            namedTask "tasks/c" "C"] 1 1).
  - apply (bool_decide_unpack _). vm_compute. reflexivity.
  - apply (bool_decide_unpack _). vm_compute. reflexivity.
  - lia.
  - reflexivity.
  - simpl. lia.
Defined.

Lemma unknown_page_token_gives_first_page_witness :
  paging.paginate
    [namedTask "tasks/a" "A"; namedTask "tasks/b" "B";
     namedTask "tasks/c" "C"] "deleted" 2
  = Some ([namedTask "tasks/a" "A"; namedTask "tasks/b" "B"], "b").
Proof.
  transitivity
    (paging.paginate
       [namedTask "tasks/a" "A"; namedTask "tasks/b" "B";
        namedTask "tasks/c" "C"] "" 2); [| reflexivity].
  apply (unknown_page_token_gives_first_page
           [namedTask "tasks/a" "A"; namedTask "tasks/b" "B";
            namedTask "tasks/c" "C"] "deleted" 2).
  apply (bool_decide_unpack _). vm_compute. reflexivity.
Defined.
